(** * Bio312 lab files: parsing, reconciliation and labelling pipeline

    A shallow embedding of the text-processing core of four scripts,

    - [dssp_batch_summary.py]        (secondary-structure tables, DSSP),
    - [sum_pqr_chargesv3.py]         (charge tables, tolerant layout),
    - [sum_pqr_charges.py]           (charge tables, legacy layout),
    - [label_and_plot_net_charges.py] (label join over the charge table),

    together with the properties of their specification.

    Conventions of the embedding.
    - A Python [str] is a [string]; its characters are the code points
      0..255.  Whitespace is what [str.isspace] says on that range.
    - A text file opened for reading is the list of lines that iterating
      over the file object yields: every line keeps its terminator.
    - A Python [float] is a value of [float] below: a rational that lies on
      the binary64 grid, an infinity or NaN; every arithmetic operation
      rounds its exact result to nearest, ties to even.  The sign of zero
      is not tracked.
    - A [dict] is a [gmap]; [dict.setdefault] and [dict.get] are written
      out on it.
    - Exceptions are values of a sum type; a function that can raise
      returns a [result], and what the file system and the programs
      called do, exceptions included, is an argument of the functions
      that meet it.  Diagnostics written to [stderr] are collected in a
      list; writing to [stderr] and [stdout] is taken not to raise. *)

From Stdlib Require Import ZArith QArith Qabs Qround Ascii String List Lia Lqa.
From Stdlib Require Import Permutation DecimalString.
From stdpp Require Import base list strings gmap sorting.

Local Open Scope Z_scope.

(** ** Python string operations *)

Module PyStr.

Definition TAB : string := String "009"%char "".
Definition LF  : string := String "010"%char "".

(** [c.isspace()] for a code point below 256. *)
Definition isspace (c : ascii) : bool :=
  let n := nat_of_ascii c in
  ((9 <=? n) && (n <=? 13) || (28 <=? n) && (n <=? 32)
   || (n =? 133) || (n =? 160))%nat.

(** [s.startswith(p)] *)
Definition startswith (p s : string) : bool := String.prefix p s.

(** [len(s)] *)
Definition len (s : string) : nat := String.length s.

(** [s[n:]] *)
Fixpoint drop (n : nat) (s : string) : string :=
  match n, s with
  | O, _ => s
  | S _, "" => ""
  | S k, String _ s' => drop k s'
  end.

(** [s[i:j]] for [0 <= i <= j] *)
Definition slice (i j : nat) (s : string) : string := substring i (j - i) s.

(** [s[i]]: [None] stands for [IndexError] *)
Definition index (i : nat) (s : string) : option string :=
  match String.get i s with
  | Some c => Some (String c "")
  | None => None
  end.

(** [s.lstrip()], [s.rstrip()], [s.strip()] *)
Fixpoint lstrip (s : string) : string :=
  match s with
  | "" => ""
  | String c s' => if isspace c then lstrip s' else s
  end.

Fixpoint rstrip (s : string) : string :=
  match s with
  | "" => ""
  | String c s' =>
      match rstrip s' with
      | "" => if isspace c then "" else String c ""
      | r => String c r
      end
  end.

Definition strip (s : string) : string := rstrip (lstrip s).

(** [s.rstrip("\n")] *)
Fixpoint rstrip_lf (s : string) : string :=
  match s with
  | "" => ""
  | String c s' =>
      match rstrip_lf s' with
      | "" => if Ascii.eqb c "010" then "" else String c ""
      | r => String c r
      end
  end.

(** [s.split()]: the maximal runs of non-whitespace characters *)
Fixpoint split_ws (s : string) : list string :=
  match s with
  | "" => []
  | String c s' =>
      if isspace c then split_ws s'
      else match s' with
           | "" => [String c ""]
           | String d _ =>
               if isspace d then String c "" :: split_ws s'
               else match split_ws s' with
                    | w :: ws => String c w :: ws
                    | [] => [String c ""]
                    end
           end
  end.

(** [p in s] *)
Fixpoint contains (p s : string) : bool :=
  String.prefix p s ||
  match s with
  | "" => false
  | String _ s' => contains p s'
  end.

(** [s.partition(sep)] when [sep] occurs in [s]: the text before and
    after its first occurrence. *)
Fixpoint partition (sep s : string) : option (string * string) :=
  if String.prefix sep s then Some ("", drop (len sep) s)
  else match s with
       | "" => None
       | String c s' =>
           match partition sep s' with
           | Some (a, b) => Some (String c a, b)
           | None => None
           end
       end.

(** [s.split(sep, 1)] *)
Definition split1 (sep s : string) : list string :=
  match partition sep s with
  | Some (a, b) => [a; b]
  | None => [s]
  end.

(** [s.split(sep)[0]] *)
Definition split_head (sep s : string) : string :=
  match partition sep s with
  | Some (a, _) => a
  | None => s
  end.

(** [s.split(c)] for a separator of one character *)
Fixpoint split_char (c : ascii) (s : string) : list string :=
  match s with
  | "" => [""]
  | String a s' =>
      if Ascii.eqb a c then "" :: split_char c s'
      else match split_char c s' with
           | h :: t => String a h :: t
           | [] => [String a ""]
           end
  end.

(** [s.replace(old, new)] for a non-empty [old]; [skip] counts the
    characters of a match that are still to be passed over. *)
Fixpoint replace_go (old new s : string) (skip : nat) : string :=
  match s with
  | "" => ""
  | String c s' =>
      match skip with
      | S k => replace_go old new s' k
      | O =>
          if String.prefix old s
          then new +:+ replace_go old new s' (len old - 1)
          else String c (replace_go old new s' 0)
      end
  end.

Definition replace (old new s : string) : string := replace_go old new s 0.

(** [os.path.basename(p)]: what follows the last slash *)
Fixpoint basename (p : string) : string :=
  match p with
  | "" => ""
  | String _ p' =>
      if contains "/" p then basename p' else p
  end.

(** [s.lower()] on the letters A..Z *)
Definition lower_char (c : ascii) : ascii :=
  let n := nat_of_ascii c in
  if ((65 <=? n) && (n <=? 90))%nat then ascii_of_nat (n + 32) else c.

Fixpoint lower (s : string) : string :=
  match s with
  | "" => ""
  | String c s' => String (lower_char c) (lower s')
  end.

(** [x in xs] for a collection of strings *)
Definition mem (x : string) (xs : list string) : bool :=
  existsb (String.eqb x) xs.

(** The lines a text-mode file object yields for the content [s]: each
    line ends with its line feed, except possibly the last.  A carriage
    return, alone or before a line feed, is read as a line feed
    (universal newlines). *)
Fixpoint universal_newlines (s : string) : string :=
  match s with
  | "" => ""
  | String c s' =>
      if Ascii.eqb c "013" then
        match s' with
        | String d _ =>
            if Ascii.eqb d "010" then universal_newlines s'
            else String "010" (universal_newlines s')
        | "" => LF
        end
      else String c (universal_newlines s')
  end.

Fixpoint lines_lf (s : string) : list string :=
  match s with
  | "" => []
  | String c s' =>
      if Ascii.eqb c "010" then LF :: lines_lf s'
      else match lines_lf s' with
           | l :: ls => String c l :: ls
           | [] => [String c ""]
           end
  end.

Definition readlines (content : string) : list string :=
  lines_lf (universal_newlines content).

End PyStr.

(** ** Python floats *)

Module PyFloat.
Import PyStr.

Inductive float : Type :=
| FNum (q : Q)          (* a finite value *)
| FInf (neg : bool)     (* [inf] and [-inf] *)
| FNaN.

Definition zero : float := FNum 0.

Definition pow2 (e : Z) : Q :=
  match e with
  | Z0 => 1
  | Zpos p => inject_Z (Z.pow_pos 2 p)
  | Zneg p => 1 # (Pos.pow 2 p)
  end.

Definition pow10 (e : Z) : Q :=
  match e with
  | Z0 => 1
  | Zpos p => inject_Z (Z.pow_pos 10 p)
  | Zneg p => 1 # (Pos.pow 10 p)
  end.

(** The integer [l] with [2^l <= x < 2^(l+1)], for [0 < x]. *)
Definition qlog2 (x : Q) : Z :=
  let l := Z.log2 (Qnum x) - Z.log2 (Zpos (Qden x)) in
  if Qle_bool (pow2 l) x then l else l - 1.

(** Rounding to the nearest integer, ties to the even one. *)
Definition round_half_even (x : Q) : Z :=
  let f := Qfloor x in
  match (x - inject_Z f ?= 1 # 2)%Q with
  | Lt => f
  | Gt => f + 1
  | Eq => if Z.even f then f else f + 1
  end.

(** Binary64: 53 bits of precision, least exponent of a unit in the last
    place [-1074], overflow at [2^1024]. *)
Definition ulp_exp (a : Q) : Z := Z.max (qlog2 a - 52) (-1074).

Definition round_b64 (x : Q) : float :=
  match Qnum x with
  | Z0 => FNum 0
  | _ =>
      let a := Qabs x in
      let e := ulp_exp a in
      let r := (inject_Z (round_half_even (a / pow2 e)) * pow2 e)%Q in
      if Qle_bool (pow2 1024) r then FInf (Qnum x <? 0)
      else FNum (Qred (if Qnum x <? 0 then - r else r))
  end.

(** [x + y] *)
Definition fadd (x y : float) : float :=
  match x, y with
  | FNaN, _ | _, FNaN => FNaN
  | FInf s, FInf t => if Bool.eqb s t then FInf s else FNaN
  | FInf s, FNum _ | FNum _, FInf s => FInf s
  | FNum a, FNum b => round_b64 (a + b)
  end.

Definition is_neg (q : Q) : bool := Qnum q <? 0.

(** [x / y]; [None] stands for [ZeroDivisionError]. *)
Definition fdiv (x y : float) : option float :=
  match y with
  | FNum b =>
      if Qeq_bool b 0 then None
      else Some match x with
                | FNum a => round_b64 (a / b)
                | FInf s => FInf (xorb s (is_neg b))
                | FNaN => FNaN
                end
  | FInf _ =>
      Some match x with
           | FNum _ => FNum 0
           | _ => FNaN
           end
  | FNaN => Some FNaN
  end.

(** [a / b] on two [int]s is the correctly rounded quotient; [None]
    stands for [ZeroDivisionError]. *)
Definition int_truediv (a b : Z) : option float :=
  if b =? 0 then None else Some (round_b64 (inject_Z a / inject_Z b)).

(** [float(n)] for an [int] *)
Definition of_int (n : Z) : float := round_b64 (inject_Z n).

(** [abs(x)] and [x > y] *)
Definition fabs (x : float) : float :=
  match x with
  | FNum q => FNum (Qabs q)
  | FInf _ => FInf false
  | FNaN => FNaN
  end.

Definition fgt (x y : float) : bool :=
  match x, y with
  | FNaN, _ | _, FNaN => false
  | FInf s, FInf t => negb s && t
  | FInf s, FNum _ => negb s
  | FNum _, FInf t => t
  | FNum a, FNum b => negb (Qle_bool a b)
  end.

(** *** [float(s)] *)

Definition digit_val (c : ascii) : option Z :=
  let n := nat_of_ascii c in
  if ((48 <=? n) && (n <=? 57))%nat then Some (Z.of_nat (n - 48)) else None.

Definition is_digit (c : ascii) : bool :=
  match digit_val c with Some _ => true | None => false end.

(** [digitpart ::= digit (["_"] digit)*]: the value read so far, the
    number of digits read, and what is left. *)
Fixpoint digitpart_go (acc : Z) (n : nat) (s : string)
  : Z * nat * string :=
  match s with
  | "" => (acc, n, s)
  | String c s' =>
      match digit_val c with
      | Some d => digitpart_go (10 * acc + d) (S n) s'
      | None =>
          if Ascii.eqb c "_" then
            match s' with
            | String c' _ =>
                if is_digit c' then digitpart_go acc n s' else (acc, n, s)
            | "" => (acc, n, s)
            end
          else (acc, n, s)
      end
  end.

Definition digitpart (s : string) : option (Z * nat * string) :=
  match s with
  | String c _ => if is_digit c then Some (digitpart_go 0 0 s) else None
  | "" => None
  end.

Definition sign (s : string) : bool * string :=
  match s with
  | String "+" r => (false, r)
  | String "-" r => (true, r)
  | _ => (false, s)
  end.

(** [exponent ::= ("e" | "E") [sign] digitpart], up to the end of the
    text; an absent exponent is [0]. *)
Definition exponent (s : string) : option Z :=
  match s with
  | "" => Some 0
  | String c r =>
      if Ascii.eqb c "e" || Ascii.eqb c "E" then
        let '(neg, r') := sign r in
        match digitpart r' with
        | Some (v, _, "") => Some (if neg then - v else v)
        | _ => None
        end
      else None
  end.

(** [floatnumber ::= number [exponent]] with
    [number ::= [digitpart] "." digitpart | digitpart ["."]]. *)
Definition floatnumber (s : string) : option Q :=
  let '(ip, r1) :=
    match digitpart s with
    | Some (v, _, r) => (Some v, r)
    | None => (None, s)
    end in
  let '(fp, r2) :=
    match r1 with
    | String "." r =>
        match digitpart r with
        | Some (v, n, r') => (Some (v, n), r')
        | None => (None, r)
        end
    | _ => (None, r1)
    end in
  let mant : option (Z * Z) :=
    match ip, fp with
    | None, None => None
    | Some i, None => Some (i, 0)
    | None, Some (f, n) => Some (f, Z.of_nat n)
    | Some i, Some (f, n) => Some (i * 10 ^ Z.of_nat n + f, Z.of_nat n)
    end in
  match mant, exponent r2 with
  | Some (m, n), Some e => Some (inject_Z m * pow10 (e - n))%Q
  | _, _ => None
  end.

(** [float(s)]; [None] stands for [ValueError]. *)
Definition py_float (s : string) : option float :=
  let '(neg, body) := sign (strip s) in
  let lb := lower body in
  if (lb =? "inf")%string || (lb =? "infinity")%string then Some (FInf neg)
  else if (lb =? "nan")%string then Some FNaN
  else match floatnumber body with
       | Some q => Some (round_b64 (if neg then - q else q))
       | None => None
       end.

(** *** ["{:.<d>f}".format(x)] *)

Definition decimal (n : Z) : string :=
  NilZero.string_of_uint (N.to_uint (Z.to_N n)).

Fixpoint zeros (n : nat) : string :=
  match n with
  | O => ""
  | S k => String "0" (zeros k)
  end.

Definition zfill (width : nat) (s : string) : string :=
  zeros (width - len s) +:+ s.

Definition format_f (d : nat) (x : float) : string :=
  match x with
  | FNaN => "nan"
  | FInf false => "inf"
  | FInf true => "-inf"
  | FNum q =>
      let scale := 10 ^ Z.of_nat d in
      let n := round_half_even (Qabs q * inject_Z scale) in
      (if is_neg q then "-" else "") +:+ decimal (n / scale) +:+
      match d with
      | O => ""
      | S _ => "." +:+ zfill d (decimal (n mod scale))
      end
  end.

End PyFloat.

(** ** Exceptions *)

Module PyExn.

Inductive exn : Type :=
| AssertionError (msg : string)
| RuntimeError (msg : string)
| OSError (msg : string)
| ZeroDivisionError
| IndexError
| ValueError (msg : string)
| EOFError (msg : string)
| UnicodeDecodeError (msg : string).

(** [str(e)] *)
Definition str (e : exn) : string :=
  match e with
  | AssertionError m | RuntimeError m | OSError m => m
  | ValueError m | EOFError m | UnicodeDecodeError m => m
  | ZeroDivisionError => "division by zero"
  | IndexError => "list index out of range"
  end.

Inductive result (A : Type) : Type :=
| Ok (a : A)
| Raise (e : exn).
Arguments Ok {A} a.
Arguments Raise {A} e.

Definition bind {A B} (r : result A) (k : A → result B) : result B :=
  match r with
  | Ok a => k a
  | Raise e => Raise e
  end.

Definition or_raise {A} (e : exn) (o : option A) : result A :=
  match o with
  | Some a => Ok a
  | None => Raise e
  end.

End PyExn.

Notation "'let/r' x := r 'in' k" := (PyExn.bind r (fun x => k))
  (at level 10, x name, r at level 100, k at level 200, only parsing).

(** [d.setdefault(k, v)] as far as its effect on [d] goes, and
    [d.get(k, v)]. *)
Definition setdefault (k v : string) (d : gmap string string)
  : gmap string string :=
  match d !! k with
  | Some _ => d
  | None => <[k := v]> d
  end.

Definition get_default (d : gmap string string) (k v : string) : string :=
  match d !! k with
  | Some x => x
  | None => v
  end.

(** ** dssp_batch_summary.py *)

Module dssp_batch_summary.
Import PyStr PyFloat PyExn.

Definition HELIX : list string := ["H"; "G"; "I"].
Definition SHEET : list string := ["E"; "B"].

Definition HEADER : string := "  #  RESIDUE".

(** [clean_pdb]: the lines written to [out_pdb] for the lines read from
    [in_pdb]. *)
Definition clean_pdb (lines : list string) : list string :=
  List.filter
    (λ line, startswith "ATOM" line || startswith "HETATM" line
             || startswith "TER" line || startswith "END" line)
    lines.

(** The local variables of [parse_dssp_counts] that its loop updates. *)
Record counts : Type := Counts {
  in_table : bool;
  n_total : Z;
  n_helix : Z;
  n_sheet : Z;
  n_coil : Z;
  asas : list float
}.

Definition counts0 : counts := Counts false 0 0 0 0 [].

(** The value [asa] takes for the text of the exposure column. *)
Definition asa_of (asa_str : string) : float :=
  if (asa_str =? "")%string then zero
  else match py_float asa_str with
       | Some x => x
       | None => zero          (* except ValueError *)
       end.

(** One turn of the loop over the lines of the table.  Past the length
    test [line[16]] cannot raise, and it is the slice [line[16:17]]. *)
Definition parse_line (st : counts) (line : string) : counts :=
  if startswith HEADER line then
    Counts true (n_total st) (n_helix st) (n_sheet st) (n_coil st) (asas st)
  else if negb (in_table st) then st
  else if (len line <? 50)%nat then st
  else
    let ss := strip (slice 16 17 line) in
    let asa := asa_of (strip (slice 34 38 line)) in
    if mem ss HELIX then
      Counts true (n_total st + 1) (n_helix st + 1) (n_sheet st) (n_coil st)
        (asas st ++ [asa])
    else if mem ss SHEET then
      Counts true (n_total st + 1) (n_helix st) (n_sheet st + 1) (n_coil st)
        (asas st ++ [asa])
    else
      Counts true (n_total st + 1) (n_helix st) (n_sheet st) (n_coil st + 1)
        (asas st ++ [asa]).

Definition scan (lines : list string) : counts :=
  fold_left parse_line lines counts0.

(** [sum(xs)]: the additions are made from left to right. *)
Definition fsum (xs : list float) : float := fold_left fadd xs zero.

Record metrics : Type := Metrics {
  m_n_total : Z;
  m_n_helix : Z;
  m_n_sheet : Z;
  m_n_coil : Z;
  frac_helix : float;
  frac_sheet : float;
  frac_coil : float;
  mean_ASA : float
}.

(** What [parse_dssp_counts] does once the file is read. *)
Definition summarize (dssp_path : string) (st : counts) : result metrics :=
  if n_total st =? 0 then
    Raise (AssertionError ("No residues parsed from " +:+ dssp_path))
  else
    let/r fh := or_raise ZeroDivisionError
                  (int_truediv (n_helix st) (n_total st)) in
    let/r fs := or_raise ZeroDivisionError
                  (int_truediv (n_sheet st) (n_total st)) in
    let/r fc := or_raise ZeroDivisionError
                  (int_truediv (n_coil st) (n_total st)) in
    let/r mean :=
      match asas st with
      | [] => Ok zero
      | _ => or_raise ZeroDivisionError
               (fdiv (fsum (asas st)) (of_int (Z.of_nat (length (asas st)))))
      end in
    Ok (Metrics (n_total st) (n_helix st) (n_sheet st) (n_coil st)
          fh fs fc mean).

(** [open_text path] is what [open(path)] hands to the loop: the lines
    of the file, or [None] when it cannot be opened. *)
Definition parse_dssp_counts (open_text : string → option (list string))
    (dssp_path : string) : result metrics :=
  match open_text dssp_path with
  | None => Raise (OSError ("cannot open " +:+ dssp_path))
  | Some lines => summarize dssp_path (scan lines)
  end.

(** One line of the mapping file in [load_refseq_to_abbr]. *)
Definition map_line (ref2abbr : gmap string string) (line : string)
  : gmap string string :=
  let line := strip line in
  if (line =? "")%string || startswith "#" line then ref2abbr
  else
    let first := split_head TAB line in
    match split_char "|" first with
    | abbr :: refseq :: _ => setdefault refseq abbr ref2abbr
    | _ => ref2abbr
    end.

Definition load_refseq_to_abbr (lines : list string) : gmap string string :=
  fold_left map_line lines ∅.

Definition is_af (p : string) : bool := contains "__AF-" (basename p).

(** [pdb_paths[0]] on an empty list raises [IndexError]. *)
Definition prefer_alphaFold (pdb_paths : list string) : result string :=
  match find is_af pdb_paths with
  | Some p => Ok p
  | None => or_raise IndexError (head pdb_paths)
  end.


(** The rows handed to [pd.DataFrame.from_records]. *)
Record record : Type := Record_ {
  r_metrics : metrics;
  RefSeq : string;
  abbr : string;
  status : string;
  source : string
}.

(** What [main] meets outside of itself: the text files it opens and the
    collaborators it calls.
    - [clean_pdb_exn in out] is the message of the exception [clean_pdb]
      raises, if it does;
    - [path_exists p] is [os.path.exists(p)] when [main] asks;
    - [run_mkdssp in out] is the verdict of the subprocess wrapper and
      the lines it logs, or the exception that leaves it: the wrapper
      catches [CalledProcessError] alone;
    - [open_text p] is the text of [p] when [parse_dssp_counts] opens it;
    - [ensure_dir_exn d] is the exception [ensure_dir(d)] raises, if it
      does;
    - [load_map_exn] is the exception that reading the mapping file
      raises, if it does;
    - [write_table_exn] is the exception that writing the table raises,
      in [ensure_dir] of its directory or in [to_csv], if one does. *)
Record world : Type := World {
  clean_pdb_exn : string → string → option string;
  path_exists : string → bool;
  run_mkdssp : string → string → result (bool * list string);
  open_text : string → option (list string);
  ensure_dir_exn : string → option exn;
  load_map_exn : option exn;
  write_table_exn : option exn
}.

(** [os.path.join(d, f)] for a relative [f] *)
Definition path_join (d f : string) : string :=
  if (d =? "")%string || String.prefix "/" (String.rev d)
  then d +:+ f else d +:+ "/" +:+ f.

(** The grouping loop: [refseq_to_pdbs.setdefault(refseq, []).append(p)]. *)
Definition group_step (g : gmap string (list string)) (p : string)
  : gmap string (list string) :=
  let refseq := split_head "__" (basename p) in
  <[refseq := default [] (g !! refseq) ++ [p]]> g.

Definition group_by_refseq (pdb_files : list string)
  : gmap string (list string) :=
  fold_left group_step pdb_files ∅.

(** [sorted(d.items())]: the keys are distinct, so the order is theirs. *)
Definition sorted_items (g : gmap string (list string))
  : list (string * list string) :=
  merge_sort (λ a b, String.le a.1 b.1) (map_to_list g).

(** The body of the loop over the groups, for one group: the record it
    appends, if any, and the lines it logs.  [clean_pdb] and
    [parse_dssp_counts] are called under [except Exception];
    [prefer_alphaFold] and [run_mkdssp] are not. *)
Definition process_group (w : world) (ref2abbr abbr2status : gmap string string)
    (clean_dir dssp_dir : string) (group : string * list string)
  : result (option record * list string) :=
  let '(refseq, paths) := group in
  let/r chosen_pdb := prefer_alphaFold paths in
  let base := basename chosen_pdb in
  let clean_path := path_join clean_dir (replace ".pdb" ".clean.pdb" base) in
  let dssp_path := path_join dssp_dir (replace ".pdb" ".dssp" base) in
  match clean_pdb_exn w chosen_pdb clean_path with
  | Some e => Ok (None, ["Skipping (clean failed): " +:+ base +:+ " :: " +:+ e])
  | None =>
      let/r made :=
        if path_exists w dssp_path then Ok (true, [])
        else run_mkdssp w clean_path dssp_path in
      let '(ok, mklog) := made in
      if negb ok then
        Ok (None, mklog ++ ["Skipping (mkdssp failed): " +:+ base])
      else
        match parse_dssp_counts (open_text w) dssp_path with
        | Raise e =>
            Ok (None, mklog ++
                  ["Skipping (parse failed): " +:+ base +:+ " :: " +:+ str e])
        | Ok metrics =>
            let abbr := get_default ref2abbr refseq "unknown" in
            let status := get_default abbr2status abbr "unknown" in
            let source := if contains "__AF-" base then "AF" else "SWM" in
            Ok (Some (Record_ metrics refseq abbr status source), mklog)
        end
  end.

Fixpoint main_loop (w : world) (ref2abbr abbr2status : gmap string string)
    (clean_dir dssp_dir : string) (groups : list (string * list string))
    (records : list record) (log : list string)
  : result (list record * list string) :=
  match groups with
  | [] => Ok (records, log)
  | group :: rest =>
      let/r out := process_group w ref2abbr abbr2status clean_dir dssp_dir
                     group in
      main_loop w ref2abbr abbr2status clean_dir dssp_dir rest
        (records ++ option_list out.1) (log ++ out.2)
  end.

(** How a run of [main] ends: [sys.exit(n)], an exception that nothing
    catches, or the table written to [out_csv]. *)
Inductive outcome : Type :=
| Exit (code : Z) (log : list string)
| Crash (e : exn)
| Wrote (table : list record) (log : list string).

(** What [main] does once its tables are loaded and its files listed:
    the loop over the groups, then the table. *)
Definition main_body (w : world) (ref2abbr abbr2status : gmap string string)
    (clean_dir dssp_dir : string) (pdb_files log0 : list string) : outcome :=
  let groups := sorted_items (group_by_refseq pdb_files) in
  match main_loop w ref2abbr abbr2status clean_dir dssp_dir groups [] log0 with
  | Raise e => Crash e
  | Ok ([], log) => Exit 3 (log ++ ["No DSSP summaries produced. Exiting."])
  | Ok (records, log) =>
      match write_table_exn w with
      | Some e => Crash e
      | None => Wrote records log
      end
  end.

(** [main], from the point where the arguments are read, up to the table
    it writes.  [species_key] is the dictionary [abbr2status] read from
    the key table, as far as its keys are strings ([None] when reading
    it raises: the script catches that); [refseq_map] is the text of the
    mapping file ([None] when the file does not exist); [pdb_files] is
    the sorted result of the glob.  What the steps outside of any [try]
    can raise comes from the world.  The lines logged before an exit
    are cut after their fixed part, or after the directory: the path
    and the exception that follow are left out. *)
Definition main (w : world) (species_key : option (gmap string string))
    (refseq_map : option (list string)) (pdb_files : list string)
    (pdb_dir dssp_dir : string) : outcome :=
  let clean_dir := path_join dssp_dir "clean" in
  match ensure_dir_exn w dssp_dir with
  | Some e => Crash e
  | None =>
  match ensure_dir_exn w clean_dir with
  | Some e => Crash e
  | None =>
  match species_key with
  | None => Exit 2 ["ERROR reading species key"]
  | Some abbr2status =>
  match refseq_map with
  | None => Exit 2 ["ERROR: refseq-map file not found"]
  | Some map_lines =>
  match load_map_exn w with
  | Some e => Crash e
  | None =>
      let ref2abbr := load_refseq_to_abbr map_lines in
      let log0 :=
        if decide (ref2abbr = ∅)
        then ["WARNING: Could not parse any RefSeq->abbr mappings"]
        else [] in
      match pdb_files with
      | [] => Exit 1 (log0 ++ ["No .pdb files found in " +:+ pdb_dir +:+ "."])
      | _ => main_body w ref2abbr abbr2status clean_dir dssp_dir pdb_files log0
      end
  end end end end end.

End dssp_batch_summary.

(** ** sum_pqr_chargesv3.py *)

Module sum_pqr_chargesv3.
Import PyStr PyFloat PyExn.

Definition is_pqr_line (s : string) : bool :=
  startswith "ATOM" s || startswith "HETATM" s.

(** How the read of a file ends: at its end, with an [OSError] (on
    opening it, then no line is read, or later), or with another
    exception, such as the [EOFError] of a truncated [.gz]. *)
Inductive ending : Type :=
| Eof
| OsError (msg : string)
| Escapes (e : exn).

(** What reading a file gives: the lines read, then how the read ends. *)
Record read : Type := Read {
  read_lines : list string;
  read_end : ending
}.

(** [iter_pqr_lines]: the lines read, without their line feed, and the
    line written to [stderr] when the read ends with an [OSError], the
    one exception the generator catches. *)
Definition iter_pqr_lines (path : string) (file : read)
  : list string * list string :=
  (map rstrip_lf (read_lines file),
   match read_end file with
   | OsError msg => ["ERROR: cannot open " +:+ path +:+ ": " +:+ msg]
   | _ => []
   end).

(** [parts[-2]] where [parts] has two elements or more *)
Definition second_to_last (parts : list string) : string :=
  nth (length parts - 2) parts "".

(** One turn of the loop of [sum_charge_for_file], on [(atoms, total)]. *)
Definition charge_step (acc : Z * float) (line : string) : Z * float :=
  let '(atoms, total) := acc in
  if negb (is_pqr_line line) then acc
  else
    let parts := split_ws line in
    if (length parts <? 8)%nat then acc
    else match py_float (second_to_last parts) with
         | None => acc                         (* except ValueError *)
         | Some charge => (atoms + 1, fadd total charge)
         end.

Definition sum_charge_lines (lines : list string) : Z * float :=
  fold_left charge_step lines (0, zero).

(** [sum_charge_for_file], with the line of [iter_pqr_lines] on
    [stderr]; an exception that the generator does not catch leaves the
    function. *)
Definition sum_charge_for_file (path : string) (file : read)
  : result ((Z * float) * list string) :=
  let '(lines, err) := iter_pqr_lines path file in
  match read_end file with
  | Escapes e => Raise e
  | _ => Ok (sum_charge_lines lines, err)
  end.

(** What [collect_inputs] asks of the file system. *)
Record fsys : Type := Fsys {
  isdir : string → bool;
  walk : string → list (string * list string);  (* [(root, files)] *)
  listdir : string → list string;
  glob : string → list string;
  isfile : string → bool
}.

(** [s.endswith(suffix)] *)
Definition endswith (suffix s : string) : bool :=
  String.prefix (String.rev suffix) (String.rev s).

Definition is_pqr_name (f : string) : bool :=
  endswith ".pqr" f || endswith ".pqr.gz" f.

(** [os.path.join(d, f)] for a relative [f] *)
Definition path_join (d f : string) : string :=
  if (d =? "")%string || String.prefix "/" (String.rev d)
  then d +:+ f else d +:+ "/" +:+ f.

(** The first loop of [collect_inputs] for one item: the paths it adds
    and the warning it writes. *)
Definition item_inputs (fs : fsys) (recursive : bool) (item : string)
  : list string * list string :=
  if isdir fs item then
    if recursive then
      (flat_map (λ rf, map (path_join rf.1) (List.filter is_pqr_name rf.2))
         (walk fs item), [])
    else
      (map (path_join item) (List.filter is_pqr_name (listdir fs item)), [])
  else
    match glob fs item with
    | (_ :: _) as matched => (List.filter (isfile fs) matched, [])
    | [] =>
        if isfile fs item then ([item], [])
        else ([], ["WARNING: no such file or pattern: " +:+ item])
    end.

(** The second loop: de-duplication that keeps the order. *)
Definition dedup_step (acc : gset string * list string) (p : string)
  : gset string * list string :=
  let '(seen, unique) := acc in
  if decide (p ∈ seen) then acc else ({[ p ]} ∪ seen, unique ++ [p]).

Definition dedup (inputs : list string) : list string :=
  (fold_left dedup_step inputs (∅, [])).2.

Definition collect_inputs (fs : fsys) (recursive : bool) (items : list string)
  : list string * list string :=
  let found := map (item_inputs fs recursive) items in
  (dedup (flat_map fst found), flat_map snd found).

(** The options of the command line that the loop of [main] reads. *)
Record args : Type := Args {
  warn_threshold : float;
  digits : Z;
  no_header : bool
}.

(** [fmt.format(x)] for [fmt = "{:." + str(digits) + "f}"]: the format
    refuses a negative precision, whose sign it does not read, and a
    precision above [INT_MAX]; below that, memory is taken to
    suffice. *)
Definition INT_MAX : Z := 2147483647.
Definition PY_SSIZE_T_MAX : Z := 9223372036854775807.

Definition format_digits (digits : Z) (x : float) : result string :=
  if digits <? 0 then Raise (ValueError "Format specifier missing precision")
  else if PY_SSIZE_T_MAX <? digits
  then Raise (ValueError "Too many decimal digits in format string")
  else if INT_MAX <? digits then Raise (ValueError "precision too big")
  else Ok (format_f (Z.to_nat digits) x).

(** A line of [main] on [stderr].  The warning prints the sum of the
    file as [str] does; it is kept as the number here. *)
Inductive message : Type :=
| Line (text : string)
| Suspicious (total : float) (name : string).

(** What [main] has written when it returns: the rows given to the
    [csv] writer and the lines on [stderr]. *)
Record output : Type := Output {
  rows : list (list string);
  stderr : list message
}.

(** The loop of [main] for one file: its grand totals, rows and log. *)
Definition main_step (a : args)
    (acc : (Z * float) * (list (list string) * list message))
    (input : string * read)
  : result ((Z * float) * (list (list string) * list message)) :=
  let '((grand_atoms, grand_charge), (rs, log)) := acc in
  let '(path, file) := input in
  let/r sums := sum_charge_for_file path file in
  let '((atoms, total), err) := sums in
  let warn :=
    if fgt (fabs total) (warn_threshold a)
    then [Suspicious total (basename path)]
    else [] in
  let/r text := format_digits (digits a) total in
  Ok ((grand_atoms + atoms, fadd grand_charge total),
      (rs ++ [[basename path; text]], log ++ map Line err ++ warn)).

Fixpoint main_loop (a : args) (files : list (string * read))
    (acc : (Z * float) * (list (list string) * list message))
  : result ((Z * float) * (list (list string) * list message)) :=
  match files with
  | [] => Ok acc
  | input :: rest =>
      let/r acc' := main_step a acc input in
      main_loop a rest acc'
  end.

(** [main], from the point where the output is open.  [files] is the
    result of [collect_inputs], each path with what reading it gives.
    [None] stands for [sys.exit(1)]; an exception that leaves the loop
    or the last line ends the run. *)
Definition main (a : args) (files : list (string * read))
  : option (result output) :=
  match files with
  | [] => None
  | _ =>
      let header := if no_header a then [] else [["path"; "net_charge"]] in
      Some (let/r done := main_loop a files ((0, zero), (header, [])) in
            let '((grand_atoms, grand_charge), (rs, log)) := done in
            let/r text := format_digits (digits a) grand_charge in
            Ok (Output rs
                  (log ++ [Line ("TOTAL" +:+ TAB +:+ "atoms="
                                 +:+ decimal grand_atoms +:+ TAB
                                 +:+ "net_charge=" +:+ text)])))
  end.

End sum_pqr_chargesv3.

(** ** sum_pqr_charges.py *)

Module sum_pqr_charges.
Import PyStr PyFloat PyExn.

(** One turn of the loop over the lines of a file, on [total].  The
    charge is the tenth part of the line. *)
Definition charge_step (total : float) (line : string) : float :=
  if startswith "ATOM" line || startswith "HETATM" line then
    let parts := split_ws line in
    if (10 <=? length parts)%nat then
      match py_float (nth 9 parts "") with
      | Some charge => fadd total charge
      | None => total                          (* except ValueError *)
      end
    else total
  else total.

Definition file_total (lines : list string) : float :=
  fold_left charge_step lines zero.

(** The line written for one file. *)
Definition out_line (f : string) (total : float) : string :=
  basename f +:+ TAB +:+ "NetCharge=" +:+ format_f 3 total +:+ LF.

(** The loop over the files: what has been written to [out_tsv], or the
    exception of an [open] that fails. *)
Fixpoint write_table (pqr_files : list (string * option (list string)))
  : result string :=
  match pqr_files with
  | [] => Ok ""
  | (f, file) :: rest =>
      match file with
      | None => Raise (OSError ("cannot open " +:+ f))
      | Some lines =>
          let/r tail := write_table rest in
          Ok (out_line f (file_total lines) +:+ tail)
      end
  end.

(** [pqr_files] is the sorted result of the glob, each path with the
    text behind it; [None] stands for [sys.exit(1)]. *)
Definition main (pqr_files : list (string * option (list string)))
  : option (result string) :=
  match pqr_files with
  | [] => None
  | _ => Some (write_table pqr_files)
  end.

End sum_pqr_charges.

(** ** label_and_plot_net_charges.py *)

Module label_and_plot_net_charges.
Import PyStr PyFloat PyExn.

(** One line of the table of charges: the row it adds, if any. *)
Definition charge_row (line : string) : option (string * float) :=
  let line := strip line in
  if (line =? "")%string then None
  else match split1 TAB line with
       | [fname; ztok] =>
           if negb (startswith "NetCharge=" ztok) then None
           else match split1 "=" ztok with
                | [_; v] =>
                    match py_float v with
                    | Some z => Some (fname, z)
                    | None => None             (* except ValueError *)
                    end
                | _ => None    (* no such case: [ztok] holds an [=] *)
                end
       | _ => None             (* except ValueError: nothing to unpack *)
       end.

Definition read_charges_table (path : string) (lines : list string)
  : result (list (string * float)) :=
  match omap charge_row lines with
  | [] => Raise (RuntimeError ("No valid rows parsed from " +:+ path))
  | rows => Ok rows
  end.

(** One line of the mapping file in [build_refseq_to_abbr]. *)
Definition map_line (ref2abbr : gmap string string) (raw : string)
  : gmap string string :=
  let raw := strip raw in
  if (raw =? "")%string || startswith "#" raw then ref2abbr
  else
    let first_col := split_head TAB raw in
    match split_char "|" first_col with
    | abbr :: refseq :: _ => setdefault refseq abbr ref2abbr
    | _ => ref2abbr
    end.

Definition build_refseq_to_abbr (map_path : string) (lines : list string)
  : result (gmap string string) :=
  let ref2abbr := fold_left map_line lines ∅ in
  if decide (ref2abbr = ∅)
  then Raise (RuntimeError ("No RefSeq->Abbr mappings parsed from " +:+ map_path))
  else Ok ref2abbr.

(** A row of the labelled table.  [Abbr] is [None] where the frame
    holds NaN. *)
Record labelled : Type := Labelled {
  File : string;
  NetCharge : float;
  RefSeq : string;
  Abbr : option string;
  Status : string
}.

(** The dictionary [abbr2status] as the frame meets it: its string
    keys, and the value under the key NaN, which it has when a row of
    the key table has a blank abbreviation.  The cells of the column
    [aquatic] are taken to be strings; a blank one, which is NaN, counts
    as no entry, since [fillna] replaces it like the NaN of a missing
    key. *)
Record status_dict : Type := StatusDict {
  by_abbr : gmap string string;
  nan_status : option string
}.

#[global] Instance status_dict_empty : Empty status_dict := StatusDict ∅ None.

(** [Series.map(d)] for a dictionary with the string keys [d] and the
    value [nan_value] under NaN, if it has that key: a value that is no
    key becomes NaN, and NaN is looked up like any other value. *)
Definition series_map (d : gmap string string) (nan_value : option string)
    (x : option string) : option string :=
  match x with
  | Some k => d !! k
  | None => nan_value
  end.

(** [fillna(v)] on one cell *)
Definition fillna (v : string) (x : option string) : string :=
  match x with
  | Some s => s
  | None => v
  end.

(** Steps 2 to 4 of [main] on one row of the table of charges. *)
Definition label_row (ref2abbr : gmap string string)
    (abbr2status : status_dict) (row : string * float) : labelled :=
  let refseq := split_head "__" row.1 in
  let abbr := series_map ref2abbr None (Some refseq) in
  let status :=
    fillna "unknown"
      (series_map (by_abbr abbr2status) (nan_status abbr2status) abbr) in
  Labelled row.1 row.2 refseq abbr status.

(** [main] up to the table it saves.  [species_key] is what reading the
    key table gives: the exception [read_csv] raises, [None] when the
    table lacks one of the two columns, or the dictionary
    [abbr2status]. *)
Definition main (charges_path refseq_map_path : string)
    (charges_lines map_lines : list string)
    (species_key : result (option status_dict))
  : result (list labelled) :=
  let/r charges := read_charges_table charges_path charges_lines in
  let/r ref2abbr := build_refseq_to_abbr refseq_map_path map_lines in
  let/r sk := species_key in
  let/r abbr2status :=
    or_raise (RuntimeError "species key must contain columns: abbreviation,aquatic")
      sk in
  Ok (map (label_row ref2abbr abbr2status) charges).

End label_and_plot_net_charges.

(** * Properties *)

Import PyStr PyFloat PyExn.

(** ** Vocabulary of the statements *)

(** What the loop of [parse_dssp_counts] keeps true of its counters. *)
Definition counts_ok (st : dssp_batch_summary.counts) : Prop :=
  let n := dssp_batch_summary.n_total st in
  let h := dssp_batch_summary.n_helix st in
  let s := dssp_batch_summary.n_sheet st in
  let c := dssp_batch_summary.n_coil st in
  0 <= h ∧ 0 <= s ∧ 0 <= c ∧ h + s + c = n ∧
  Z.of_nat (length (dssp_batch_summary.asas st)) = n.

(** The tolerance [1e-9] on the sum of the fractions. *)
Definition tolerance : Q := 1 # 1000000000.

(** A small table: two lines of preamble and header, three rows. *)
Definition demo_row (code asa : string) : string :=
  "    1    1 A M  " +:+ code +:+ "                 " +:+ asa
  +:+ "  0, 0.0     2,-0.3     0, 0.0     0, 0.0" +:+ LF.

Definition demo_table : list string :=
  ["==== Secondary Structure Definition" +:+ LF;
   "  #  RESIDUE AA STRUCTURE BP1 BP2  ACC" +:+ LF;
   demo_row "H" " 123"; demo_row "E" "  45"; demo_row " " "  10"].

(** A line of 40 characters, with the code [H] at offset 16 and the
    exposure [ 123] at offsets 34 to 37. *)
Definition line40 : string :=
  "    1    1 A M  H" +:+ "                 " +:+ " 123" +:+ " " +:+ LF.

(** The charge that a line adds in [sum_charge_for_file], if it adds
    one: the guards of the loop, then [float(parts[-2])]. *)
Definition tolerant_charge (line : string) : option float :=
  if sum_pqr_chargesv3.is_pqr_line line
     && (8 <=? length (split_ws line))%nat
  then py_float (sum_pqr_chargesv3.second_to_last (split_ws line))
  else None.

(** The charge that a line adds in the loop of [sum_pqr_charges.py], if
    it adds one: the guards of the loop, then [float(parts[9])]. *)
Definition legacy_charge (line : string) : option float :=
  if (startswith "ATOM" line || startswith "HETATM" line)
     && (10 <=? length (split_ws line))%nat
  then py_float (nth 9 (split_ws line) "")
  else None.

(** The count of atoms in the words of the specification: the lines that
    begin with a record prefix and whose charge token is a number. *)
Definition spec_atom_count (lines : list string) : Z :=
  Z.of_nat (length (List.filter
    (λ l, sum_pqr_chargesv3.is_pqr_line l
          && bool_decide (is_Some
               (py_float (sum_pqr_chargesv3.second_to_last (split_ws l)))))
    lines)).

(** The two example lines of the specification, written out in full:
    one record with its charge before its radius, and the same record
    with the two swapped. *)
Definition legacy_example : string :=
  "ATOM      1  N   MET A   1      26.981  53.977  40.085 -0.415 1.8750".

Definition tolerant_example : string :=
  "ATOM      1  N   MET A   1      26.981  53.977  40.085 1.8750 -0.415".

(** The binary64 number nearest to [-0.415]. *)
Definition minus_0_415 : float :=
  FNum (-7475975381435023 # 18014398509481984).

(** The pair a line of the mapping file contributes, if it contributes
    one: the accession and the abbreviation, as the loop of
    [load_refseq_to_abbr] reads them. *)
Definition map_entry (line : string) : option (string * string) :=
  let line := strip line in
  if (line =? "")%string || startswith "#" line then None
  else match split_char "|" (split_head TAB line) with
       | abbr :: refseq :: _ => Some (refseq, abbr)
       | _ => None
       end.

(** The abbreviation of the first line of the file that names [refseq]. *)
Fixpoint first_abbr (refseq : string) (lines : list string) : option string :=
  match lines with
  | [] => None
  | l :: ls =>
      match map_entry l with
      | Some (k, v) => if decide (k = refseq) then Some v else first_abbr refseq ls
      | None => first_abbr refseq ls
      end
  end.

(** The status [main] of [dssp_batch_summary.py] joins to an accession. *)
Definition dssp_status (ref2abbr abbr2status : gmap string string)
    (refseq : string) : string :=
  get_default abbr2status (get_default ref2abbr refseq "unknown") "unknown".

(** A world in which every step before the parse succeeds and every
    table read is [demo_table]. *)
Definition demo_world : dssp_batch_summary.world :=
  dssp_batch_summary.World (λ _ _, None) (λ _, true) (λ _ _, Ok (true, []))
    (λ _, Some demo_table) (λ _, None) None None.

(** A key table that has a row for the abbreviation [unknown]. *)
Definition key_with_unknown : gmap string string :=
  {[ "unknown" := "aquatic" ]}.

(** The paths [main] derives from the file it has chosen for a group. *)
Definition clean_path_of (clean_dir chosen_pdb : string) : string :=
  dssp_batch_summary.path_join clean_dir
    (replace ".pdb" ".clean.pdb" (basename chosen_pdb)).

Definition dssp_path_of (dssp_dir chosen_pdb : string) : string :=
  dssp_batch_summary.path_join dssp_dir
    (replace ".pdb" ".dssp" (basename chosen_pdb)).

(** Files that open: each path with its lines. *)
Definition readable (files : list (string * list string))
  : list (string * option (list string)) :=
  map (λ f, (f.1, Some f.2)) files.

(** The same files as [sum_pqr_chargesv3.py] reads them, to their end. *)
Definition readable_v3 (files : list (string * list string))
  : list (string * sum_pqr_chargesv3.read) :=
  map (λ f, (f.1, sum_pqr_chargesv3.Read f.2 sum_pqr_chargesv3.Eof)) files.

(** The count and sum of the lines read of a file, as the loop of
    [sum_charge_for_file] leaves them. *)
Definition file_sum (file : sum_pqr_chargesv3.read) : Z * float :=
  sum_pqr_chargesv3.sum_charge_lines
    (map rstrip_lf (sum_pqr_chargesv3.read_lines file)).

(** A read that ends at the end of the file or with an [OSError]. *)
Definition caught (file : sum_pqr_chargesv3.read) : Prop :=
  ∀ e, sum_pqr_chargesv3.read_end file ≠ sum_pqr_chargesv3.Escapes e.

(** The text of [0.0] with [d] decimal places: [0.000] for three. *)
Definition zero_text (d : nat) : string :=
  "0" +:+ match d with O => "" | S _ => "." +:+ zeros d end.

(** A line of the table of charges that adds no charge to the sum of
    [sum_charge_for_file]. *)
Definition no_charge (line : string) : Prop :=
  tolerant_charge (rstrip_lf line) = None.

(** A world in which every step before the parse succeeds and every
    table read has a header and no row. *)
Definition header_only_world : dssp_batch_summary.world :=
  dssp_batch_summary.World (λ _ _, None) (λ _, true) (λ _ _, Ok (true, []))
    (λ _, Some ["  #  RESIDUE AA STRUCTURE BP1 BP2  ACC" +:+ LF])
    (λ _, None) None None.

(** [c in s] for a character *)
Fixpoint has_char (c : ascii) (s : string) : bool :=
  match s with
  | "" => false
  | String a s' => Ascii.eqb a c || has_char c s'
  end.

Fixpoint all_digits (s : string) : bool :=
  match s with
  | "" => true
  | String c s' => is_digit c && all_digits s'
  end.

(** The last character of [s] is there and is no whitespace. *)
Fixpoint ends_nonspace (s : string) : bool :=
  match s with
  | "" => false
  | String c "" => negb (isspace c)
  | String _ s' => ends_nonspace s'
  end.

(** A file name that a line of the table of charges can carry: it is not
    empty, does not begin with whitespace, and holds no tab, line feed or
    carriage return. *)
Definition plain_name (s : string) : bool :=
  match s with
  | "" => false
  | String c _ =>
      negb (isspace c) && negb (has_char "009" s)
      && negb (has_char "010" s) && negb (has_char "013" s)
  end.

(** The status the labelling script joins to an accession. *)
Definition label_status (ref2abbr : gmap string string)
    (abbr2status : label_and_plot_net_charges.status_dict)
    (refseq : string) : string :=
  label_and_plot_net_charges.fillna "unknown"
    (label_and_plot_net_charges.series_map
       (label_and_plot_net_charges.by_abbr abbr2status)
       (label_and_plot_net_charges.nan_status abbr2status)
       (label_and_plot_net_charges.series_map ref2abbr None (Some refseq))).

(** The accession of a file: what precedes the first [__] of its name. *)
Definition entity_key (path : string) : string :=
  split_head "__" (basename path).

(** Where [rest] can begin once a run of digits is read. *)
Definition digit_stop (rest : string) : bool :=
  match rest with
  | "" => true
  | String c _ => negb (is_digit c) && negb (Ascii.eqb c "_")
  end.


(** Two files of charges, the first with a tab in its name. *)
Definition tab_named_files : list (string * list string) :=
  [("pqr/NP_1" +:+ TAB +:+ "x__AF-P1.pqr", [legacy_example +:+ LF]);
   ("pqr/NP_2__AF-P2.pqr", [legacy_example +:+ LF])].

(** Two files of charges with plain names; the second has no record. *)
Definition plain_files : list (string * list string) :=
  [("pqr/NP_1__AF-P1.pqr", [legacy_example +:+ LF]);
   ("pqr/NP_2__SWM.pqr", ["REMARK no atoms" +:+ LF])].

(** ** Vocabulary of the further statements *)

(** The lines that follow the first header line of a table. *)
Fixpoint after_header (lines : list string) : list string :=
  match lines with
  | [] => []
  | l :: ls =>
      if startswith dssp_batch_summary.HEADER l then ls else after_header ls
  end.

(** A line that counts as a row once the header is passed. *)
Definition is_row (line : string) : bool :=
  negb (startswith dssp_batch_summary.HEADER line) && (50 <=? len line)%nat.

Definition rows_of (lines : list string) : list string :=
  List.filter is_row (after_header lines).

(** The code of secondary structure and the exposure of a row. *)
Definition code_of (row : string) : string := strip (slice 16 17 row).

Definition exposure_of (row : string) : float :=
  dssp_batch_summary.asa_of (strip (slice 34 38 row)).

Definition count_rows (f : string → bool) (rows : list string) : Z :=
  Z.of_nat (length (List.filter f rows)).

(** The counters after some rows are added to a state in the table. *)
Definition add_rows (st : dssp_batch_summary.counts) (rows : list string) : dssp_batch_summary.counts :=
  dssp_batch_summary.Counts true
    (dssp_batch_summary.n_total st + count_rows (λ _, true) rows)
    (dssp_batch_summary.n_helix st + count_rows (λ r, mem (code_of r) dssp_batch_summary.HELIX) rows)
    (dssp_batch_summary.n_sheet st + count_rows (λ r, mem (code_of r) dssp_batch_summary.SHEET) rows)
    (dssp_batch_summary.n_coil st + count_rows
       (λ r, negb (mem (code_of r) dssp_batch_summary.HELIX) && negb (mem (code_of r) dssp_batch_summary.SHEET)) rows)
    (dssp_batch_summary.asas st ++ map exposure_of rows).


(** The order of the groups in [sorted(refseq_to_pdbs.items())]. *)
Definition key_le (a b : string * list string) : Prop := String.le a.1 b.1.

#[global] Instance key_le_dec : RelDecision key_le.
Proof. intros a b. unfold key_le. apply _. Defined.

#[global] Instance key_le_total : Total key_le.
Proof. intros a b. unfold key_le. apply (total String.le). Qed.

#[global] Instance key_le_trans : Transitive key_le.
Proof. intros a b c. unfold key_le. apply (transitivity (R:=String.le)). Qed.

(** The paths of a list whose file belongs to the accession [k]. *)
Definition paths_of_key (k : string) (pdb_files : list string) : list string :=
  List.filter (λ p, bool_decide (entity_key p = k)) pdb_files.

(** What every record of [main] satisfies. *)
Definition record_sound (ref2abbr abbr2status : gmap string string)
    (pdb_files : list string) (rec : dssp_batch_summary.record) : Prop :=
  let m := dssp_batch_summary.r_metrics rec in
  0 < dssp_batch_summary.m_n_total m ∧
  dssp_batch_summary.m_n_helix m + dssp_batch_summary.m_n_sheet m
    + dssp_batch_summary.m_n_coil m = dssp_batch_summary.m_n_total m ∧
  paths_of_key (dssp_batch_summary.RefSeq rec) pdb_files ≠ [] ∧
  dssp_batch_summary.abbr rec
    = get_default ref2abbr (dssp_batch_summary.RefSeq rec) "unknown" ∧
  dssp_batch_summary.status rec
    = dssp_status ref2abbr abbr2status (dssp_batch_summary.RefSeq rec) ∧
  dssp_batch_summary.source rec
    = (if existsb dssp_batch_summary.is_af
            (paths_of_key (dssp_batch_summary.RefSeq rec) pdb_files)
       then "AF" else "SWM").

(** What the record of a group holds. *)
Definition record_of_group (ref2abbr abbr2status : gmap string string)
    (group : string * list string) (rec : dssp_batch_summary.record) : Prop :=
  let m := dssp_batch_summary.r_metrics rec in
  dssp_batch_summary.RefSeq rec = group.1 ∧
  0 < dssp_batch_summary.m_n_total m ∧
  dssp_batch_summary.m_n_helix m + dssp_batch_summary.m_n_sheet m
    + dssp_batch_summary.m_n_coil m = dssp_batch_summary.m_n_total m ∧
  dssp_batch_summary.abbr rec = get_default ref2abbr group.1 "unknown" ∧
  dssp_batch_summary.status rec = dssp_status ref2abbr abbr2status group.1 ∧
  dssp_batch_summary.source rec
    = (if existsb dssp_batch_summary.is_af group.2 then "AF" else "SWM").

(** The records of a run: at most one for each group, in the order of
    the groups. *)
Definition loop_sound (ref2abbr abbr2status : gmap string string)
    (groups : list (string * list string))
    (new : list dssp_batch_summary.record) : Prop :=
  map dssp_batch_summary.RefSeq new `sublist_of` map fst groups ∧
  Forall (λ rec, ∃ g, g ∈ groups ∧ record_of_group ref2abbr abbr2status g rec)
    new.

(** A run on three files of two accessions, with one line of mapping
    and a key table of one row. *)
Definition demo_pdb_files : list string :=
  ["pdb/NP_000001__AF-P1.pdb"; "pdb/NP_000001__SWM.pdb"; "pdb/NP_2__SWM.pdb"].

Definition demo_key : gmap string string := {[ "ABC" := "aquatic" ]}.

Definition demo_map_lines : list string := ["ABC|NP_000001|geneX" +:+ LF].


(** The sum of the atom counts of some files. *)
Definition total_atoms (sums : list (Z * float)) : Z :=
  fold_right Z.add 0 (map fst sums).

(** A list without its repetitions: each element stays where it is seen
    first. *)
Fixpoint keep_first (l : list string) : list string :=
  match l with
  | [] => []
  | x :: l' => x :: List.filter (λ y, negb (y =? x)%string) (keep_first l')
  end.

(** A run of [k] line feeds. *)
Fixpoint lfs (k : nat) : string :=
  match k with
  | O => ""
  | S k' => String "010" (lfs k')
  end.

(** The lines [clean_pdb] keeps. *)
Definition kept_by_clean (line : string) : bool :=
  startswith "ATOM" line || startswith "HETATM" line
  || startswith "TER" line || startswith "END" line.

(** A file system with one directory [d] that holds three files. *)
Definition demo_fsys : sum_pqr_chargesv3.fsys :=
  sum_pqr_chargesv3.Fsys
    (λ p, (p =? "d")%string)
    (λ _, [])
    (λ _, ["a.pqr"; "notes.txt"; "b.pqr.gz"])
    (λ p, if (p =? "d/*.pqr")%string then ["d/a.pqr"] else [])
    (λ _, true).
(** ** Rounding to binary64 *)

Section Rounding.
Local Open Scope Q_scope.

Lemma round_half_even_err (y : Q) :
  Qabs (inject_Z (round_half_even y) - y) <= 1 # 2.
Proof.
  unfold round_half_even.
  pose proof (Qfloor_le y) as Hlo. pose proof (Qlt_floor y) as Hhi.
  rewrite inject_Z_plus in Hhi. change (inject_Z 1) with 1 in Hhi.
  set (f := Qfloor y) in *.
  apply Qabs_Qle_condition.
  destruct (Qcompare_spec (y - inject_Z f) (1 # 2)) as [He|Hl|Hg].
  - destruct (Z.even f); [|rewrite inject_Z_plus; change (inject_Z 1) with 1];
      split; lra.
  - split; lra.
  - rewrite inject_Z_plus; change (inject_Z 1) with 1. split; lra.
Qed.

Lemma round_half_even_nonneg (y : Q) : 0 <= y → (0 <= round_half_even y)%Z.
Proof.
  intros Hy. unfold round_half_even.
  assert (0 <= Qfloor y)%Z as Hf.
  { change 0%Z with (Qfloor 0). by apply Qfloor_resp_le. }
  destruct (_ ?= _); [destruct (Z.even _)|..]; lia.
Qed.

Lemma pow2_pos (e : Z) : 0 < pow2 e.
Proof.
  destruct e as [|p|p]; simpl; [reflexivity| |reflexivity].
  rewrite Z.pow_pos_fold. unfold Qlt; simpl.
  pose proof (Z.pow_pos_nonneg 2 (Z.pos p)). lia.
Qed.

Lemma pow2_neg_mono (p q : positive) :
  (p <= q)%positive → pow2 (Z.neg q) <= pow2 (Z.neg p).
Proof.
  intros Hpq. unfold pow2, Qle; simpl.
  rewrite !Pos2Z.inj_pow, !Z.mul_1_l. apply Z.pow_le_mono_r; lia.
Qed.

Lemma pow2_le_m51 (e : Z) : (e <= -51)%Z → pow2 e <= pow2 (-51).
Proof.
  intros He. destruct e as [|p|p]; try lia.
  apply pow2_neg_mono. lia.
Qed.


(** For [n < 4 d] the first guess of [qlog2] is at most 2. *)
Lemma log2_diff_le (n : Z) (d : positive) :
  (0 < n)%Z → (n < 4 * Z.pos d)%Z → (Z.log2 n - Z.log2 (Z.pos d) <= 2)%Z.
Proof.
  intros Hn Hlt.
  assert (Z.log2 n <= Z.log2 (4 * Z.pos d))%Z as H by (apply Z.log2_le_mono; lia).
  replace (4 * Z.pos d)%Z with (Z.pos d * 2 ^ 2)%Z in H by lia.
  rewrite Z.log2_mul_pow2 in H by lia. lia.
Qed.

Lemma qlog2_lt4 (a : Q) : 0 < a → a < 4 → (qlog2 a <= 1)%Z.
Proof.
  intros Hpos Hlt. unfold qlog2.
  assert (Z.log2 (Qnum a) - Z.log2 (Z.pos (Qden a)) <= 2)%Z as Hl.
  { apply log2_diff_le.
    - unfold Qlt in Hpos; simpl in Hpos. lia.
    - unfold Qlt in Hlt; simpl in Hlt. lia. }
  set (l := (Z.log2 (Qnum a) - Z.log2 (Z.pos (Qden a)))%Z) in *.
  destruct (Qle_bool (pow2 l) a) eqn:Hb; [|lia].
  apply Qle_bool_iff in Hb.
  destruct (decide (l = 2%Z)) as [->|]; [|lia].
  change (pow2 2) with 4 in Hb. lra.
Qed.

(** Rounding a value of [[0, 4)]: the result is finite, not negative, and
    within [2^-52] of the value. *)
Lemma round_b64_small (x : Q) :
  0 <= x → x < 4 →
  ∃ r, round_b64 x = FNum r ∧ 0 <= r ∧ Qabs (r - x) <= pow2 (-52).
Proof.
  intros Hx0 Hx4. unfold round_b64.
  destruct (Qnum x) eqn:Hn.
  - exists 0. split; [done|]. split; [lra|].
    assert (x == 0) as -> by (unfold Qeq; simpl; lia).
    vm_compute; discriminate.
  - assert (0 < x) as Hpos by (unfold Qlt; simpl; lia).
    assert (Qabs x = x) as Habs.
    { destruct x as [n d]; simpl in Hn; subst n; reflexivity. }
    rewrite Habs.
    assert ((Z.pos p <? 0)%Z = false) as -> by lia.
    set (e := ulp_exp x).
    assert (e <= -51)%Z as He.
    { unfold e, ulp_exp. pose proof (qlog2_lt4 x Hpos Hx4). lia. }
    pose proof (pow2_pos e) as Hp. pose proof (pow2_le_m51 e He) as Hle.
    set (y := x / pow2 e).
    pose proof (round_half_even_err y) as Herr.
    assert (0 <= y) as Hy.
    { unfold y. apply Qle_shift_div_l; [done|lra]. }
    pose proof (round_half_even_nonneg y Hy) as Hm.
    set (m := round_half_even y) in *.
    assert (y * pow2 e == x) as Hyx.
    { unfold y. field. lra. }
    assert (inject_Z m * pow2 e - x == (inject_Z m - y) * pow2 e) as Hd
      by (rewrite <- Hyx; ring).
    assert (Qabs (inject_Z m * pow2 e - x) <= pow2 (-52)) as Hb.
    { rewrite Hd, Qabs_Qmult, (Qabs_pos (pow2 e)) by lra.
      change (pow2 (-52)) with ((1 # 2) * pow2 (-51)).
      apply Qmult_le_compat_nonneg; split;
        [apply Qabs_nonneg|done|lra|done]. }
    assert (0 <= inject_Z m * pow2 e) as Hr0.
    { apply Qmult_le_0_compat; [|lra]. change 0 with (inject_Z 0).
      by rewrite <- Zle_Qle. }
    destruct (Qle_bool (pow2 1024) (inject_Z m * pow2 e)) eqn:Hov.
    + exfalso. apply Qle_bool_iff in Hov.
      apply Qabs_Qle_condition in Hb as [_ Hb].
      assert (pow2 1024 <= 5) as H5.
      { eapply Qle_trans; [exact Hov|].
        assert (pow2 (-52) <= 1) by (vm_compute; discriminate). lra. }
      revert H5. vm_compute. intros H5. by apply H5.
    + eexists. split; [done|]. rewrite Qred_correct. done.
  - exfalso. unfold Qle in Hx0; simpl in Hx0. lia.
Qed.


Lemma round_half_even_ge1 (y : Q) : 1 <= y → (1 <= round_half_even y)%Z.
Proof.
  intros Hy. unfold round_half_even.
  assert (1 <= Qfloor y)%Z as Hf.
  { change 1%Z with (Qfloor 1). by apply Qfloor_resp_le. }
  destruct (_ ?= _); [destruct (Z.even _)|..]; lia.
Qed.

Lemma pow2_le_int (n e : Z) :
  (1 <= n)%Z → (e <= Z.log2 n)%Z → pow2 e <= inject_Z n.
Proof.
  intros Hn He. destruct e as [|p|p].
  - change (pow2 0) with (inject_Z 1). rewrite <- Zle_Qle. lia.
  - unfold pow2. rewrite <- Zle_Qle, Z.pow_pos_fold.
    etrans; [apply (Z.pow_le_mono_r 2 (Z.pos p) (Z.log2 n)); lia|].
    apply Z.log2_spec. lia.
  - apply Qle_trans with 1.
    + unfold pow2, Qle; simpl. lia.
    + change 1 with (inject_Z 1). rewrite <- Zle_Qle. lia.
Qed.

(** [float(n)] is not zero for an integer [n >= 1]. *)
Lemma of_int_nonzero (n : Z) :
  (1 <= n)%Z →
  (∃ r, of_int n = FNum r ∧ 0 < r) ∨ of_int n = FInf false.
Proof.
  intros Hn. unfold of_int, round_b64.
  change (Qnum (inject_Z n)) with n.
  destruct n as [|p|p]; try lia.
  change (Qabs (inject_Z (Z.pos p))) with (inject_Z (Z.pos p)).
  assert ((Z.pos p <? 0)%Z = false) as -> by lia.
  set (x := inject_Z (Z.pos p)).
  assert (qlog2 x = Z.log2 (Z.pos p)) as Hq.
  { unfold qlog2, x. change (Qnum (inject_Z (Z.pos p))) with (Z.pos p).
    change (Z.log2 (Z.pos (Qden (inject_Z (Z.pos p))))) with 0%Z.
    rewrite Z.sub_0_r.
    assert (Qle_bool (pow2 (Z.log2 (Z.pos p))) (inject_Z (Z.pos p)) = true)
      as -> by (apply Qle_bool_iff, pow2_le_int; lia).
    done. }
  set (e := ulp_exp x).
  assert (e <= Z.log2 (Z.pos p))%Z as He.
  { unfold e, ulp_exp. rewrite Hq. pose proof (Z.log2_nonneg (Z.pos p)). lia. }
  pose proof (pow2_pos e) as Hp.
  pose proof (pow2_le_int (Z.pos p) e Hn He) as Hle. fold x in Hle.
  assert (1 <= x / pow2 e) as Hy by (apply Qle_shift_div_l; [done|lra]).
  pose proof (round_half_even_ge1 _ Hy) as Hm.
  set (m := round_half_even (x / pow2 e)) in *.
  assert (0 < inject_Z m * pow2 e) as Hr.
  { apply Qmult_lt_0_compat; [|done]. change 0 with (inject_Z 0).
    rewrite <- Zlt_Qlt. lia. }
  destruct (Qle_bool _ _); [by right|left].
  eexists. split; [done|]. by rewrite Qred_correct.
Qed.

End Rounding.
(** ** The secondary-structure table *)

Section Dssp.
Import dssp_batch_summary.

Lemma counts0_ok : counts_ok counts0.
Proof. repeat split; simpl; lia. Qed.

Lemma parse_line_ok st line : counts_ok st → counts_ok (parse_line st line).
Proof.
  intros (Hh & Hs & Hc & Hsum & Hlen). unfold parse_line.
  repeat case_match; try done; unfold counts_ok; simpl;
    rewrite ?length_app; simpl; repeat split; lia.
Qed.

Lemma fold_parse_line_ok lines st :
  counts_ok st → counts_ok (fold_left parse_line lines st).
Proof.
  revert st. induction lines as [|l ls IH]; intros st Hst; simpl; [done|].
  by apply IH, parse_line_ok.
Qed.

Lemma scan_ok lines : counts_ok (scan lines).
Proof. apply fold_parse_line_ok, counts0_ok. Qed.

End Dssp.

Section Fractions.
Local Open Scope Q_scope.

(** A count out of a positive total divides to a float in [[0, 1]], up
    to the rounding. *)
Lemma int_truediv_fraction (k n : Z) :
  (0 <= k <= n)%Z → (0 < n)%Z →
  ∃ r, int_truediv k n = Some (FNum r) ∧ 0 <= r ∧
       Qabs (r - inject_Z k / inject_Z n) <= pow2 (-52).
Proof.
  intros Hk Hn. unfold int_truediv.
  assert ((n =? 0)%Z = false) as -> by lia.
  assert (0 < inject_Z n) as Hn' by (change 0 with (inject_Z 0); by rewrite <- Zlt_Qlt).
  assert (0 <= inject_Z k / inject_Z n) as H0.
  { apply Qle_shift_div_l; [done|]. rewrite Qmult_0_l.
    change 0 with (inject_Z 0). rewrite <- Zle_Qle. lia. }
  assert (inject_Z k / inject_Z n <= 1) as H1.
  { apply Qle_shift_div_r; [done|]. rewrite Qmult_1_l, <- Zle_Qle. lia. }
  destruct (round_b64_small _ H0) as (r & Hr & Hr0 & Herr); [lra|].
  exists r. by rewrite Hr.
Qed.

Lemma fractions_sum (h s c n : Z) :
  (0 <= h)%Z → (0 <= s)%Z → (0 <= c)%Z → (h + s + c = n)%Z → (0 < n)%Z →
  ∃ fh fs fc sum,
    int_truediv h n = Some (FNum fh) ∧
    int_truediv s n = Some (FNum fs) ∧
    int_truediv c n = Some (FNum fc) ∧
    fadd (fadd (FNum fh) (FNum fs)) (FNum fc) = FNum sum ∧
    Qabs (sum - 1) <= tolerance ∧
    Qabs (fh + fs + fc - 1) <= tolerance.
Proof.
  intros Hh Hs Hc Hsum Hn.
  destruct (int_truediv_fraction h n) as (fh & Eh & Hh0 & Herrh); [lia..|].
  destruct (int_truediv_fraction s n) as (fs & Es & Hs0 & Herrs); [lia..|].
  destruct (int_truediv_fraction c n) as (fc & Ec & Hc0 & Herrc); [lia..|].
  assert (0 < inject_Z n) as Hn' by (change 0 with (inject_Z 0); by rewrite <- Zlt_Qlt).
  assert (inject_Z h / inject_Z n + inject_Z s / inject_Z n
          + inject_Z c / inject_Z n == 1) as Hone.
  { rewrite <- Hsum, !inject_Z_plus. field. rewrite <- !inject_Z_plus, Hsum. lra. }
  set (qh := inject_Z h / inject_Z n) in *.
  set (qs := inject_Z s / inject_Z n) in *.
  set (qc := inject_Z c / inject_Z n) in *.
  assert (0 <= qh ∧ 0 <= qs ∧ 0 <= qc) as (Hqh & Hqs & Hqc).
  { unfold qh, qs, qc. repeat split; (apply Qle_shift_div_l; [done|]);
      rewrite Qmult_0_l; change 0 with (inject_Z 0); rewrite <- Zle_Qle; lia. }
  assert (pow2 (-52) <= 1 # 1000000000000000) as Hu by (vm_compute; discriminate).
  apply Qabs_Qle_condition in Herrh, Herrs, Herrc.
  destruct (round_b64_small (fh + fs)) as (s1 & E1 & H10 & Herr1); [lra..|].
  apply Qabs_Qle_condition in Herr1.
  destruct (round_b64_small (s1 + fc)) as (s2 & E2 & H20 & Herr2); [lra..|].
  apply Qabs_Qle_condition in Herr2.
  exists fh, fs, fc, s2. unfold fadd at 2. rewrite E1. unfold fadd. rewrite E2.
  do 4 (split; [done|]).
  split; apply Qabs_Qle_condition; unfold tolerance; split; lra.
Qed.

End Fractions.

Section DsspRecord.
Import dssp_batch_summary.

Lemma mean_defined (xs : list float) :
  xs ≠ [] → is_Some (fdiv (fsum xs) (of_int (Z.of_nat (length xs)))).
Proof.
  intros Hxs.
  assert (1 <= Z.of_nat (length xs)) as Hlen by (destruct xs; [done|simpl; lia]).
  unfold fdiv.
  destruct (of_int_nonzero _ Hlen) as [(r & -> & Hr)| ->]; [|done].
  destruct (Qeq_bool r 0) eqn:E; [|done].
  apply Qeq_bool_iff in E. rewrite E in Hr. by apply Qlt_irrefl in Hr.
Qed.

(** C1.  A table with at least one data row is accepted; the three bucket
    counts of the returned record add up to [n_total], and the three
    fractions, added as floats or exactly, are within [1e-9] of [1.0]. *)
Theorem parse_dssp_counts_partition
    (open_text : string → option (list string)) (dssp_path : string)
    (lines : list string) :
  open_text dssp_path = Some lines →
  n_total (scan lines) ≠ 0 →
  ∃ m, parse_dssp_counts open_text dssp_path = Ok m ∧
       m_n_total m = n_total (scan lines) ∧
       m_n_helix m + m_n_sheet m + m_n_coil m = m_n_total m ∧
       ∃ fh fs fc sum,
         frac_helix m = FNum fh ∧ frac_sheet m = FNum fs ∧
         frac_coil m = FNum fc ∧
         fadd (fadd (frac_helix m) (frac_sheet m)) (frac_coil m) = FNum sum ∧
         (Qabs (sum - 1) <= tolerance)%Q ∧
         (Qabs (fh + fs + fc - 1) <= tolerance)%Q.
Proof.
  intros Hopen Hn. unfold parse_dssp_counts. rewrite Hopen.
  destruct (scan_ok lines) as (Hh & Hs & Hc & Hsum & Hlen).
  set (st := scan lines) in *.
  assert (0 < n_total st) as Hpos by lia.
  destruct (fractions_sum _ _ _ _ Hh Hs Hc Hsum Hpos)
    as (fh & fs & fc & sum & Eh & Es & Ec & Eadd & Hb1 & Hb2).
  assert (asas st ≠ []) as Hne by (intros E; rewrite E in Hlen; simpl in Hlen; lia).
  destruct (mean_defined _ Hne) as [mean Hmean].
  unfold summarize.
  assert ((n_total st =? 0) = false) as -> by lia.
  rewrite Eh, Es, Ec. simpl.
  destruct (asas st) as [|a l] eqn:Ea; [done|].
  rewrite Hmean. simpl.
  eexists. split; [done|]. simpl. split; [done|]. split; [done|].
  exists fh, fs, fc, sum. done.
Qed.

Lemma parse_dssp_counts_partition_witness :
  n_total (scan demo_table) ≠ 0 ∧
  ∃ m, parse_dssp_counts (λ _, Some demo_table) "x.dssp" = Ok m ∧
       m_n_total m = n_total (scan demo_table) ∧
       m_n_helix m + m_n_sheet m + m_n_coil m = m_n_total m ∧
       ∃ fh fs fc sum,
         frac_helix m = FNum fh ∧ frac_sheet m = FNum fs ∧
         frac_coil m = FNum fc ∧
         fadd (fadd (frac_helix m) (frac_sheet m)) (frac_coil m) = FNum sum ∧
         (Qabs (sum - 1) <= tolerance)%Q ∧
         (Qabs (fh + fs + fc - 1) <= tolerance)%Q.
Proof.
  split; [vm_compute; discriminate|].
  apply (parse_dssp_counts_partition (λ _, Some demo_table) "x.dssp" demo_table);
    [reflexivity|vm_compute; discriminate].
Defined.

End DsspRecord.
(** ** Rows of the table: length test and exposure column *)

Section DsspRows.
Import dssp_batch_summary.

Lemma parse_line_skip st line :
  startswith HEADER line = false →
  in_table st = false ∨ (len line < 50)%nat →
  parse_line st line = st.
Proof.
  intros Hh Hs. unfold parse_line. rewrite Hh.
  destruct (in_table st) eqn:Ein; simpl; [|done].
  destruct Hs as [|Hlen]; [done|].
  by apply Nat.ltb_lt in Hlen as ->.
Qed.

Lemma scan_app l1 l2 : scan (l1 ++ l2) = fold_left parse_line l2 (scan l1).
Proof. unfold scan. by rewrite fold_left_app. Qed.

(** A row of the table is counted once, in one bucket, with one value of
    exposure. *)
Lemma parse_line_row st line :
  in_table st = true → startswith HEADER line = false → (50 <= len line)%nat →
  let st' := parse_line st line in
  in_table st' = true ∧
  n_total st' = n_total st + 1 ∧
  n_helix st' + n_sheet st' + n_coil st'
    = n_helix st + n_sheet st + n_coil st + 1 ∧
  asas st' = asas st ++ [asa_of (strip (slice 34 38 line))].
Proof.
  intros Hin Hh Hlen. unfold parse_line. rewrite Hh, Hin. simpl.
  assert ((len line <? 50)%nat = false) as -> by by apply Nat.ltb_ge.
  repeat case_match; simpl; repeat split; lia.
Qed.

(** C9, as the code has it.  Past the header, a line of fewer than 50
    characters (its terminator counted) leaves every counter and the list
    of exposures as they were, wherever it stands in the file; a line of
    50 characters or more that is not a header line is one data row. *)
Theorem fixed_width_length_gate (st : counts) (line : string)
    (before after : list string) :
  in_table st = true →
  startswith HEADER line = false →
  ((len line < 50)%nat →
     parse_line st line = st ∧
     scan (before ++ line :: after) = scan (before ++ after)) ∧
  ((50 <= len line)%nat →
     n_total (parse_line st line) = n_total st + 1 ∧
     n_helix (parse_line st line) + n_sheet (parse_line st line)
       + n_coil (parse_line st line)
       = n_helix st + n_sheet st + n_coil st + 1 ∧
     length (asas (parse_line st line)) = S (length (asas st))).
Proof.
  intros Hin Hh. split; intros Hlen.
  - split; [apply parse_line_skip; auto|].
    rewrite !scan_app. simpl. rewrite parse_line_skip; auto.
  - destruct (parse_line_row st line Hin Hh Hlen) as (_ & Hn & Hb & Ha).
    rewrite Ha, length_app. simpl. repeat split; [done|done|lia].
Qed.

Lemma fixed_width_length_gate_witness :
  let st := Counts true 3 1 1 1 [zero; zero; zero] in
  let line := demo_row "H" " 123" in
  in_table st = true ∧ startswith HEADER line = false ∧
  ((len line < 50)%nat →
     parse_line st line = st ∧
     scan ([] ++ line :: []) = scan ([] ++ [])) ∧
  ((50 <= len line)%nat →
     n_total (parse_line st line) = n_total st + 1 ∧
     n_helix (parse_line st line) + n_sheet (parse_line st line)
       + n_coil (parse_line st line)
       = n_helix st + n_sheet st + n_coil st + 1 ∧
     length (asas (parse_line st line)) = S (length (asas st))).
Proof.
  split; [reflexivity|]. split; [reflexivity|].
  apply (fixed_width_length_gate (Counts true 3 1 1 1 [zero; zero; zero])
           (demo_row "H" " 123") [] []); reflexivity.
Defined.

(** C9, as stated, fails: a line of 40 characters holds the code at
    offset 16 and the exposure column at offsets 34 to 38, and is
    rejected all the same. *)
Lemma length_gate_counterexample :
  let st := Counts true 0 0 0 0 [] in
  (38 < len line40)%nat ∧
  index 16 line40 = Some "H" ∧
  slice 34 39 line40 = " 123 " ∧
  startswith HEADER line40 = false ∧
  in_table st = true ∧
  parse_line st line40 = st ∧
  n_total (parse_line st line40) ≠ n_total st + 1.
Proof. vm_compute. repeat split; (done || lia || discriminate). Qed.

Lemma mean_ASA_spec (dssp_path : string) (lines : list string) (m : metrics) :
  summarize dssp_path (scan lines) = Ok m →
  m_n_total m = n_total (scan lines) ∧
  fdiv (fsum (asas (scan lines)))
    (of_int (Z.of_nat (length (asas (scan lines))))) = Some (mean_ASA m).
Proof.
  unfold summarize.
  destruct (scan_ok lines) as (_ & _ & _ & _ & Hlen).
  set (st := scan lines) in *.
  destruct (n_total st =? 0) eqn:En; [done|].
  destruct (int_truediv (n_helix st) _); [|done].
  destruct (int_truediv (n_sheet st) _); [|done].
  destruct (int_truediv (n_coil st) _); [|done]. simpl.
  destruct (asas st) as [|a l] eqn:Ea; [simpl in Hlen; lia|].
  destruct (fdiv _ _); simpl; [|done].
  intros [= <-]. done.
Qed.

End DsspRows.
(** ** Charge tables *)

Section Charges.
Import sum_pqr_chargesv3.

Lemma charge_step_tolerant (acc : Z * float) (line : string) :
  charge_step acc line =
  match tolerant_charge line with
  | Some c => (acc.1 + 1, fadd acc.2 c)
  | None => acc
  end.
Proof.
  destruct acc as [atoms total]. unfold charge_step, tolerant_charge.
  destruct (is_pqr_line line); cbn [negb andb]; [|done].
  destruct (Nat.ltb_spec (length (split_ws line)) 8) as [E|E].
  - by assert ((8 <=? length (split_ws line))%nat = false) as ->
      by by apply Nat.leb_gt.
  - assert ((8 <=? length (split_ws line))%nat = true) as ->
      by by apply Nat.leb_le.
    by destruct (py_float _).
Qed.

Lemma fold_charge_step (lines : list string) (atoms : Z) (total : float) :
  fold_left charge_step lines (atoms, total) =
  (atoms + Z.of_nat (length (omap tolerant_charge lines)),
   fold_left fadd (omap tolerant_charge lines) total).
Proof.
  revert atoms total. induction lines as [|l ls IH]; intros atoms total.
  - simpl. f_equal. lia.
  - cbn [fold_left omap list_omap]. rewrite charge_step_tolerant.
    destruct (tolerant_charge l) as [c|]; cbn [fst snd fold_left length];
      rewrite IH; f_equal; lia.
Qed.

(** C5, as the code has it.  Where the read of the file ends at its end
    or with an [OSError], the function returns: the count of atoms is
    the number of lines read that begin with [ATOM] or [HETATM], have
    eight parts or more, and whose second-to-last part [float] accepts;
    the net charge is the sum, in the order of the file, of the charges
    of those lines and of no other.  Where the read ends with another
    exception, that exception leaves the function. *)
Theorem sum_charge_for_file_counts (path : string) (file : read) :
  let charges := omap tolerant_charge (map rstrip_lf (read_lines file)) in
  let sums := (Z.of_nat (length charges), fold_left fadd charges zero) in
  sum_charge_for_file path file =
  match read_end file with
  | Eof => Ok (sums, [])
  | OsError msg =>
      Ok (sums, ["ERROR: cannot open " +:+ path +:+ ": " +:+ msg])
  | Escapes e => Raise e
  end.
Proof.
  unfold sum_charge_for_file, iter_pqr_lines, sum_charge_lines.
  rewrite fold_charge_step. by destruct (read_end file).
Qed.

(** C5, as stated, fails: a record line of five parts whose
    second-to-last part is a number is not counted. *)
Lemma atom_count_counterexample :
  let lines := ["ATOM 1 N -0.5 1.0"] in
  spec_atom_count lines = 1 ∧
  sum_charge_for_file "x.pqr" (Read lines Eof) = Ok ((0, zero), []) ∧
  0 ≠ spec_atom_count lines.
Proof. vm_compute. repeat split; discriminate. Qed.

Lemma charge_step_legacy (total : float) (line : string) :
  sum_pqr_charges.charge_step total line =
  match legacy_charge line with
  | Some c => fadd total c
  | None => total
  end.
Proof.
  unfold sum_pqr_charges.charge_step, legacy_charge.
  destruct (_ || _); cbn [andb]; [|done].
  by destruct (10 <=? _)%nat.
Qed.

(** C3, as the code has it.  On a record line of eleven parts the tenth
    part is the second-to-last one, so both programs read the same
    charge; where that part is [-0.415], as in the legacy example, both
    read the float nearest to -0.415. *)
Theorem charge_parsers_agree (line : string) :
  is_pqr_line line = true →
  length (split_ws line) = 11%nat →
  legacy_charge line = tolerant_charge line ∧
  (nth 9 (split_ws line) "" = "-0.415" →
   legacy_charge line = Some minus_0_415 ∧
   tolerant_charge line = Some minus_0_415 ∧
   sum_pqr_charges.file_total [line] = minus_0_415 ∧
   sum_charge_lines [line] = (1, minus_0_415)).
Proof.
  intros Hp Hlen.
  assert (legacy_charge line = py_float (nth 9 (split_ws line) "")) as Hl.
  { unfold legacy_charge. unfold is_pqr_line in Hp. rewrite Hp, Hlen.
    reflexivity. }
  assert (tolerant_charge line = py_float (nth 9 (split_ws line) "")) as Ht.
  { unfold tolerant_charge, second_to_last. rewrite Hp, Hlen. reflexivity. }
  split; [by rewrite Hl, Ht|]. intros H9.
  assert (py_float "-0.415" = Some minus_0_415) as Hv by (vm_compute; reflexivity).
  assert (fadd zero minus_0_415 = minus_0_415) as Ha by (vm_compute; reflexivity).
  rewrite H9, Hv in Hl, Ht.
  unfold sum_pqr_charges.file_total, sum_charge_lines. cbn [fold_left].
  rewrite charge_step_legacy, charge_step_tolerant, Hl, Ht.
  cbn [fst snd]. rewrite Ha. repeat split; reflexivity.
Qed.

Lemma charge_parsers_agree_witness :
  is_pqr_line legacy_example = true ∧
  length (split_ws legacy_example) = 11%nat ∧
  legacy_charge legacy_example = tolerant_charge legacy_example ∧
  (nth 9 (split_ws legacy_example) "" = "-0.415" →
   legacy_charge legacy_example = Some minus_0_415 ∧
   tolerant_charge legacy_example = Some minus_0_415 ∧
   sum_pqr_charges.file_total [legacy_example] = minus_0_415 ∧
   sum_charge_lines [legacy_example] = (1, minus_0_415)).
Proof.
  split; [vm_compute; reflexivity|]. split; [vm_compute; reflexivity|].
  apply (charge_parsers_agree legacy_example); vm_compute; reflexivity.
Defined.

(** C3, as stated, fails: on the example line that ends with the radius
    and then the charge, the second-to-last part is the radius, and the
    tolerant program reads [1.875]. *)
Lemma tolerant_example_counterexample :
  nth 9 (split_ws tolerant_example) "" = "1.8750" ∧
  nth 10 (split_ws tolerant_example) "" = "-0.415" ∧
  tolerant_charge tolerant_example = Some (FNum (15 # 8)) ∧
  sum_charge_lines [tolerant_example] = (1, FNum (15 # 8)) ∧
  tolerant_charge tolerant_example ≠ py_float "-0.415".
Proof. vm_compute. repeat split; discriminate. Qed.

End Charges.
(** ** The resolver *)

Section Resolver.
Import dssp_batch_summary.

Lemma find_head_filter {A} (f : A → bool) (l : list A) :
  find f l = head (List.filter f l).
Proof. induction l as [|x l IH]; simpl; [done|]. by destruct (f x). Qed.

Lemma filter_Permutation_bool {A} (f : A → bool) (l l' : list A) :
  Permutation l l' → Permutation (List.filter f l) (List.filter f l').
Proof.
  induction 1 as [|x l l' _ IH|x y l|l l' l'' _ IH1 _ IH2]; simpl.
  - done.
  - destruct (f x); [by constructor|done].
  - destruct (f x), (f y); try done. apply perm_swap.
  - by etrans.
Qed.

(** C6.  Where exactly one path of a group has [__AF-] in its file name,
    [prefer_alphaFold] returns that path, in whatever order the group is
    listed. *)
Theorem prefer_alphaFold_marked (paths paths' : list string) (p : string) :
  List.filter is_af paths = [p] →
  Permutation paths paths' →
  prefer_alphaFold paths' = Ok p ∧ is_af p = true ∧ p ∈ paths'.
Proof.
  intros Hone Hperm.
  pose proof (filter_Permutation_bool is_af _ _ Hperm) as Hf.
  rewrite Hone in Hf. apply Permutation_length_1_inv in Hf.
  assert (In p (List.filter is_af paths')) as Hin by (rewrite Hf; by left).
  apply filter_In in Hin as [Hin Haf].
  unfold prefer_alphaFold. rewrite find_head_filter, Hf. simpl.
  split; [done|]. split; [done|]. by apply list_elem_of_In.
Qed.

Lemma prefer_alphaFold_marked_witness :
  let paths := ["d/NP_1__SWM-a.pdb"; "d/NP_1__AF-P02144.pdb"; "d/NP_1__x.pdb"] in
  let paths' := ["d/NP_1__x.pdb"; "d/NP_1__SWM-a.pdb"; "d/NP_1__AF-P02144.pdb"] in
  let p := "d/NP_1__AF-P02144.pdb" in
  List.filter is_af paths = [p] ∧ Permutation paths paths' ∧
  prefer_alphaFold paths' = Ok p ∧ is_af p = true ∧ p ∈ paths'.
Proof.
  assert (Permutation
            ["d/NP_1__SWM-a.pdb"; "d/NP_1__AF-P02144.pdb"; "d/NP_1__x.pdb"]
            ["d/NP_1__x.pdb"; "d/NP_1__SWM-a.pdb"; "d/NP_1__AF-P02144.pdb"])
    as Hperm.
  { apply Permutation_sym. apply (Permutation_cons_app [_; _] []). simpl.
    apply Permutation_refl. }
  split; [reflexivity|]. split; [exact Hperm|].
  apply (prefer_alphaFold_marked
           ["d/NP_1__SWM-a.pdb"; "d/NP_1__AF-P02144.pdb"; "d/NP_1__x.pdb"]);
    [reflexivity|exact Hperm].
Defined.

End Resolver.

(** ** The mapping file *)

Section Mapping.
Import dssp_batch_summary.

Lemma map_line_entry (m : gmap string string) (line : string) :
  map_line m line =
  match map_entry line with
  | Some (k, v) => setdefault k v m
  | None => m
  end.
Proof.
  unfold map_line, map_entry.
  destruct (_ || _); [done|].
  destruct (split_char _ _) as [|a [|b l]]; done.
Qed.

Lemma label_map_line_eq (m : gmap string string) (line : string) :
  label_and_plot_net_charges.map_line m line = map_line m line.
Proof. reflexivity. Qed.

Lemma setdefault_lookup (k v k' : string) (m : gmap string string) :
  setdefault k v m !! k' =
  match m !! k' with
  | Some x => Some x
  | None => if decide (k = k') then Some v else None
  end.
Proof.
  unfold setdefault. destruct (m !! k) as [x|] eqn:E.
  - destruct (m !! k') eqn:E'; [done|]. case_decide; [congruence|done].
  - rewrite lookup_insert. case_decide as Hk.
    + subst. by rewrite E.
    + by destruct (m !! k').
Qed.

Lemma fold_map_line_lookup (lines : list string) (m : gmap string string)
    (k : string) :
  fold_left map_line lines m !! k =
  match m !! k with
  | Some x => Some x
  | None => first_abbr k lines
  end.
Proof.
  revert m. induction lines as [|l ls IH]; intros m; simpl.
  - by destruct (m !! k).
  - rewrite IH, map_line_entry.
    destruct (map_entry l) as [[k' v]|]; [|done].
    rewrite setdefault_lookup.
    destruct (m !! k); [done|]. by case_decide.
Qed.

Lemma load_lookup (lines : list string) (k : string) :
  load_refseq_to_abbr lines !! k = first_abbr k lines.
Proof. unfold load_refseq_to_abbr. by rewrite fold_map_line_lookup, lookup_empty. Qed.

Lemma first_abbr_app (k : string) (l1 l2 : list string) :
  first_abbr k (l1 ++ l2) =
  match first_abbr k l1 with
  | Some v => Some v
  | None => first_abbr k l2
  end.
Proof.
  induction l1 as [|l ls IH]; simpl; [done|].
  destruct (map_entry l) as [[k' v]|]; [|done]. by case_decide.
Qed.

Lemma build_is_load (map_path : string) (lines : list string) :
  label_and_plot_net_charges.build_refseq_to_abbr map_path lines =
  if decide (load_refseq_to_abbr lines = ∅)
  then Raise (RuntimeError ("No RefSeq->Abbr mappings parsed from " +:+ map_path))
  else Ok (load_refseq_to_abbr lines).
Proof. reflexivity. Qed.

(** C8.  Where a line of the mapping file gives [abbr] for [refseq] and
    no line before it names [refseq], both loaders map [refseq] to [abbr],
    whatever lines come after; neither raises. *)
Theorem first_seen_wins (map_path : string) (before after : list string)
    (line refseq abbr : string) :
  load_refseq_to_abbr [line] = {[ refseq := abbr ]} →
  Forall (λ l, load_refseq_to_abbr [l] !! refseq = None) before →
  load_refseq_to_abbr (before ++ line :: after) !! refseq = Some abbr ∧
  load_refseq_to_abbr (before ++ [line]) !! refseq = Some abbr ∧
  ∃ m, label_and_plot_net_charges.build_refseq_to_abbr map_path
         (before ++ line :: after) = Ok m ∧
       m !! refseq = Some abbr.
Proof.
  intros Hline Hbefore.
  assert (first_abbr refseq [line] = Some abbr) as H1.
  { rewrite <- load_lookup, Hline. apply lookup_singleton_eq. }
  assert (first_abbr refseq before = None) as H0.
  { induction Hbefore as [|l ls Hl _ IH]; simpl; [done|].
    rewrite load_lookup in Hl. simpl in Hl.
    destruct (map_entry l) as [[k v]|]; [|done].
    by case_decide. }
  assert (∀ rest, first_abbr refseq (before ++ line :: rest) = Some abbr) as H.
  { intros rest. rewrite first_abbr_app, H0. simpl in *.
    destruct (map_entry line) as [[k v]|]; [|done]. by case_decide. }
  split; [by rewrite load_lookup|]. split; [by rewrite load_lookup|].
  rewrite build_is_load. case_decide as He.
  - exfalso. pose proof (H after) as H'. rewrite <- load_lookup, He in H'.
    by rewrite lookup_empty in H'.
  - eexists. split; [done|]. by rewrite load_lookup.
Qed.

Lemma first_seen_wins_witness :
  let before := ["# species list"; "XYZ|NP_000002|geneY"; ""] in
  let after := ["DEF|NP_000001|geneX"; "ABC|NP_000003"] in
  let line := "ABC|NP_000001|geneX" in
  load_refseq_to_abbr [line] = {[ "NP_000001" := "ABC" ]} ∧
  Forall (λ l, load_refseq_to_abbr [l] !! "NP_000001" = None) before ∧
  load_refseq_to_abbr (before ++ line :: after) !! "NP_000001" = Some "ABC" ∧
  load_refseq_to_abbr (before ++ [line]) !! "NP_000001" = Some "ABC" ∧
  ∃ m, label_and_plot_net_charges.build_refseq_to_abbr "map.out"
         (before ++ line :: after) = Ok m ∧
       m !! "NP_000001" = Some "ABC".
Proof.
  assert (load_refseq_to_abbr ["ABC|NP_000001|geneX"] = {[ "NP_000001" := "ABC" ]})
    as H1 by (vm_compute; reflexivity).
  assert (Forall (λ l, load_refseq_to_abbr [l] !! "NP_000001" = None)
            ["# species list"; "XYZ|NP_000002|geneY"; ""]) as H2
    by (repeat constructor).
  split; [exact H1|]. split; [exact H2|].
  apply (first_seen_wins "map.out" _ _ "ABC|NP_000001|geneX" "NP_000001" "ABC" H1 H2).
Defined.

End Mapping.
(** ** The label join *)

Section Join.
Import dssp_batch_summary.

(** What a group that reaches the end of the loop body is recorded as. *)
Lemma process_group_record (w : world) (ref2abbr abbr2status : gmap string string)
    (clean_dir dssp_dir refseq : string) (paths : list string)
    (rec : record) (log : list string) :
  process_group w ref2abbr abbr2status clean_dir dssp_dir (refseq, paths)
    = Ok (Some rec, log) →
  ∃ chosen,
    prefer_alphaFold paths = Ok chosen ∧
    parse_dssp_counts (open_text w) (dssp_path_of dssp_dir chosen)
      = Ok (r_metrics rec) ∧
    RefSeq rec = refseq ∧
    abbr rec = get_default ref2abbr refseq "unknown" ∧
    status rec = dssp_status ref2abbr abbr2status refseq ∧
    source rec = (if is_af chosen then "AF" else "SWM").
Proof.
  unfold process_group. destruct (prefer_alphaFold paths) as [chosen|e]; [|done].
  cbn [bind]. fold (dssp_path_of dssp_dir chosen).
  fold (clean_path_of clean_dir chosen).
  destruct (clean_pdb_exn w chosen _); [done|].
  destruct (if path_exists w _ then _ else _) as [[ok mklog]|e]; [|done].
  cbn [bind]. destruct ok; cbn [negb]; [|done].
  destruct (parse_dssp_counts _ _) as [m|e] eqn:Hm; [|done].
  intros [= <- <-]. exists chosen. done.
Qed.

Lemma get_default_cases (d : gmap string string) (k v : string) :
  (d !! k = None ∧ get_default d k v = v) ∨
  (∃ x, d !! k = Some x ∧ get_default d k v = x).
Proof. unfold get_default. destruct (d !! k); eauto. Qed.

(** The join of [dssp_batch_summary.py].  The status is
    [unknown] where the accession is mapped to an abbreviation that the
    key table lacks, and where the accession is not mapped and the key
    table has no row for the abbreviation [unknown]; it is always a
    status of the key table or [unknown]. *)
Lemma dssp_status_cases (ref2abbr abbr2status : gmap string string)
    (refseq : string) :
  (∀ a, ref2abbr !! refseq = Some a → abbr2status !! a = None →
        dssp_status ref2abbr abbr2status refseq = "unknown") ∧
  (ref2abbr !! refseq = None → abbr2status !! "unknown" = None →
        dssp_status ref2abbr abbr2status refseq = "unknown") ∧
  (ref2abbr !! refseq = None →
        dssp_status ref2abbr abbr2status refseq
        = get_default abbr2status "unknown" "unknown") ∧
  (dssp_status ref2abbr abbr2status refseq = "unknown" ∨
   ∃ a, abbr2status !! a = Some (dssp_status ref2abbr abbr2status refseq)).
Proof.
  unfold dssp_status, get_default. repeat split.
  - intros a -> Ha. by rewrite Ha.
  - intros -> Hu. by rewrite Hu.
  - by intros ->.
  - destruct (ref2abbr !! refseq) as [a|].
    + destruct (abbr2status !! a) eqn:E; eauto.
    + destruct (abbr2status !! "unknown") eqn:E; eauto.
Qed.

(** The join of [label_and_plot_net_charges.py].  An accession that
    is not mapped has the abbreviation NaN, and its status is the value
    of the dictionary under the key NaN, which the dictionary has when a
    row of the key table has a blank abbreviation, and [unknown]
    otherwise; an accession mapped to an abbreviation that the key table
    lacks has the status [unknown]; the status is always a value of the
    dictionary or [unknown]. *)
Lemma label_status_cases (ref2abbr : gmap string string)
    (abbr2status : label_and_plot_net_charges.status_dict)
    (row : string * float) :
  let r := label_and_plot_net_charges.label_row ref2abbr abbr2status row in
  let refseq := split_head "__" row.1 in
  let by_abbr := label_and_plot_net_charges.by_abbr abbr2status in
  let nan_status := label_and_plot_net_charges.nan_status abbr2status in
  (ref2abbr !! refseq = None →
     label_and_plot_net_charges.Abbr r = None ∧
     label_and_plot_net_charges.Status r = default "unknown" nan_status) ∧
  (ref2abbr !! refseq = None → nan_status = None →
     label_and_plot_net_charges.Status r = "unknown") ∧
  (∀ a, ref2abbr !! refseq = Some a →
     label_and_plot_net_charges.Status r
     = default "unknown" (by_abbr !! a)) ∧
  (∀ a, ref2abbr !! refseq = Some a → by_abbr !! a = None →
     label_and_plot_net_charges.Status r = "unknown") ∧
  (label_and_plot_net_charges.Status r = "unknown" ∨
   nan_status = Some (label_and_plot_net_charges.Status r) ∨
   ∃ a, by_abbr !! a = Some (label_and_plot_net_charges.Status r)).
Proof.
  destruct abbr2status as [d nan].
  cbv zeta. unfold label_and_plot_net_charges.label_row.
  cbn [label_and_plot_net_charges.Status label_and_plot_net_charges.Abbr
       label_and_plot_net_charges.by_abbr label_and_plot_net_charges.nan_status
       label_and_plot_net_charges.series_map fst].
  split; [|split; [|split; [|split]]].
  - intros ->. by destruct nan.
  - intros -> ->. reflexivity.
  - intros a ->. cbn [label_and_plot_net_charges.series_map].
    by destruct (d !! a).
  - intros a -> Ha. cbn [label_and_plot_net_charges.series_map].
    by rewrite Ha.
  - destruct (ref2abbr !! _) as [a|];
      cbn [label_and_plot_net_charges.series_map].
    + destruct (d !! a) eqn:E; cbn; eauto.
    + destruct nan; cbn; eauto.
Qed.

(** C7, where the code departs from it.  The accession [NP_1] is in no
    line of the mapping file, and the key table has a row for the
    abbreviation [unknown]: [main] of [dssp_batch_summary.py] records the
    status of that row, while the labelling script records [unknown]. *)
Theorem unmapped_key_takes_status_of_unknown_row :
  load_refseq_to_abbr ["ABC|NP_000001|geneX"] !! "NP_1" = None ∧
  (∃ rec log,
     process_group demo_world (load_refseq_to_abbr ["ABC|NP_000001|geneX"])
       key_with_unknown "out/clean" "out" ("NP_1", ["pdb/NP_1__AF-P1.pdb"])
       = Ok (Some rec, log) ∧
     RefSeq rec = "NP_1" ∧ abbr rec = "unknown" ∧ status rec = "aquatic") ∧
  label_and_plot_net_charges.Status
    (label_and_plot_net_charges.label_row
       (load_refseq_to_abbr ["ABC|NP_000001|geneX"])
       (label_and_plot_net_charges.StatusDict key_with_unknown None)
       ("NP_1__AF-P1.pqr", zero)) = "unknown".
Proof.
  split; [vm_compute; reflexivity|]. split.
  - eexists _, _. split; [vm_compute; reflexivity|]. by vm_compute.
  - vm_compute. reflexivity.
Qed.

End Join.

(** ** Files without a row *)

Section ZeroRows.
Import dssp_batch_summary.

Lemma summarize_zero (dssp_path : string) (st : counts) :
  n_total st = 0 →
  summarize dssp_path st
  = Raise (AssertionError ("No residues parsed from " +:+ dssp_path)).
Proof. intros H. unfold summarize. by rewrite H. Qed.

Lemma summarize_positive (dssp_path : string) (st : counts) (m : metrics) :
  summarize dssp_path st = Ok m → m_n_total m = n_total st ∧ n_total st ≠ 0.
Proof.
  unfold summarize. destruct (n_total st =? 0) eqn:E; [done|].
  destruct (int_truediv (n_helix st) _); [|done].
  destruct (int_truediv (n_sheet st) _); [|done].
  destruct (int_truediv (n_coil st) _); [|done]. cbn [bind or_raise].
  destruct (match asas st with [] => _ | _ => _ end); [|done].
  cbn [bind]. intros [= <-]. simpl. split; [done|lia].
Qed.

Lemma write_table_readable (files : list (string * list string)) :
  sum_pqr_charges.write_table (readable files) =
  Ok (fold_right (λ f rest,
        sum_pqr_charges.out_line f.1 (sum_pqr_charges.file_total f.2) +:+ rest)
        "" files).
Proof.
  induction files as [|[f lines] fs IH]; [done|].
  unfold readable in *. cbn [map sum_pqr_charges.write_table fst snd].
  by rewrite IH.
Qed.

Lemma legacy_total_no_charge (lines : list string) :
  Forall (λ l, legacy_charge l = None) lines →
  sum_pqr_charges.file_total lines = zero.
Proof.
  unfold sum_pqr_charges.file_total. generalize zero.
  induction 1 as [|l ls Hl _ IH]; [done|].
  cbn [fold_left]. by rewrite charge_step_legacy, Hl.
Qed.

Lemma sum_charge_for_file_caught (path : string)
    (file : sum_pqr_chargesv3.read) :
  caught file →
  sum_pqr_chargesv3.sum_charge_for_file path file
  = Ok (file_sum file, (sum_pqr_chargesv3.iter_pqr_lines path file).2).
Proof.
  intros Hc. unfold sum_pqr_chargesv3.sum_charge_for_file, file_sum.
  cbn [sum_pqr_chargesv3.iter_pqr_lines snd].
  destruct (sum_pqr_chargesv3.read_end file) eqn:E; try done.
  by destruct (Hc e).
Qed.

Lemma format_digits_ok (d : Z) (x : float) :
  0 <= d <= sum_pqr_chargesv3.INT_MAX →
  sum_pqr_chargesv3.format_digits d x = Ok (format_f (Z.to_nat d) x).
Proof.
  intros [H0 H1]. unfold sum_pqr_chargesv3.format_digits.
  unfold sum_pqr_chargesv3.INT_MAX, sum_pqr_chargesv3.PY_SSIZE_T_MAX in *.
  assert ((d <? 0) = false) as -> by lia.
  assert ((9223372036854775807 <? d) = false) as -> by lia.
  assert ((2147483647 <? d) = false) as -> by lia. done.
Qed.

Lemma format_digits_inv (d : Z) (x : float) (text : string) :
  sum_pqr_chargesv3.format_digits d x = Ok text →
  0 <= d <= sum_pqr_chargesv3.INT_MAX ∧ text = format_f (Z.to_nat d) x.
Proof.
  unfold sum_pqr_chargesv3.format_digits, sum_pqr_chargesv3.INT_MAX.
  destruct (Z.ltb_spec d 0); [done|].
  destruct (_ <? d); [done|].
  destruct (Z.ltb_spec 2147483647 d); [done|].
  intros [= <-]. split; [lia|done].
Qed.

(** The loop of [main] where no read escapes and the precision is one
    the format accepts. *)
Lemma main_loop_ok (a : sum_pqr_chargesv3.args)
    (files : list (string * sum_pqr_chargesv3.read))
    (acc : (Z * float) * (list (list string) * list sum_pqr_chargesv3.message)) :
  0 <= sum_pqr_chargesv3.digits a <= sum_pqr_chargesv3.INT_MAX →
  Forall (λ f, caught f.2) files →
  ∃ log,
    sum_pqr_chargesv3.main_loop a files acc =
    Ok ((acc.1.1 + total_atoms (map (λ f, file_sum f.2) files),
         fold_left fadd (map (λ f, (file_sum f.2).2) files) acc.1.2),
        (acc.2.1 ++
           map (λ f, [basename f.1;
                      format_f (Z.to_nat (sum_pqr_chargesv3.digits a))
                        (file_sum f.2).2]) files,
         acc.2.2 ++ log)).
Proof.
  intros Hd Hall. revert acc.
  induction Hall as [|[p file] fs Hc _ IH]; intros [[ga gc] [rs log]].
  - exists []. cbn. rewrite !app_nil_r. do 3 f_equal. unfold total_atoms.
    cbn. lia.
  - cbn [sum_pqr_chargesv3.main_loop sum_pqr_chargesv3.main_step].
    cbn [snd] in Hc. rewrite (sum_charge_for_file_caught p file Hc).
    cbn [bind]. destruct (file_sum file) as [atoms total] eqn:Es.
    rewrite format_digits_ok by done. cbn [bind].
    edestruct IH as [log' ->]. eexists.
    cbn [fst snd map fold_left]. rewrite Es. cbn [fst snd].
    unfold total_atoms. cbn [map fold_right fst].
    rewrite <- !app_assoc. cbn [app].
    f_equal. f_equal. f_equal. lia.
Qed.

(** What the loop has met when it ends without an exception. *)
Lemma main_loop_inv (a : sum_pqr_chargesv3.args)
    (files : list (string * sum_pqr_chargesv3.read))
    (acc acc' : (Z * float) * (list (list string) * list sum_pqr_chargesv3.message)) :
  sum_pqr_chargesv3.main_loop a files acc = Ok acc' →
  Forall (λ f, caught f.2) files ∧
  (files ≠ [] →
   0 <= sum_pqr_chargesv3.digits a <= sum_pqr_chargesv3.INT_MAX).
Proof.
  revert acc. induction files as [|[p file] fs IH]; intros [[ga gc] [rs log]].
  - intros _. split; [constructor|done].
  - cbn [sum_pqr_chargesv3.main_loop sum_pqr_chargesv3.main_step].
    unfold sum_pqr_chargesv3.sum_charge_for_file.
    cbn [sum_pqr_chargesv3.iter_pqr_lines].
    destruct (sum_pqr_chargesv3.read_end file) eqn:E; [| |done];
      cbn [bind];
      (destruct (sum_pqr_chargesv3.sum_charge_lines _) as [atoms total];
       destruct (sum_pqr_chargesv3.format_digits _ total) as [text|] eqn:Ef;
         [|done]; cbn [bind]; intros H;
       destruct (format_digits_inv _ _ _ Ef) as [Hd _];
       destruct (IH _ H) as [Hall _]; split; [|done];
       constructor; [|done]; intros x; cbn [snd]; by rewrite E).
Qed.

Lemma zeros_snoc (k : nat) : zeros k +:+ "0" = String "0" (zeros k).
Proof.
  induction k as [|k IH]; [done|]. cbn [zeros].
  change (String "0" (zeros k) +:+ "0") with (String "0" (zeros k +:+ "0")).
  by rewrite IH.
Qed.

Lemma format_f_zero (d : nat) : format_f d zero = zero_text d.
Proof.
  unfold format_f, zero, zero_text.
  assert (round_half_even (Qabs 0 * inject_Z (10 ^ Z.of_nat d)) = 0) as ->
    by reflexivity.
  destruct d as [|k]; [reflexivity|].
  change (is_neg 0) with false. rewrite Z.div_0_l, Z.mod_0_l by lia.
  change (decimal 0) with "0". unfold zfill. change (len "0") with 1%nat.
  replace (S k - 1)%nat with k by lia. by rewrite zeros_snoc.
Qed.

Lemma file_sum_no_charge (lines : list string)
    (e : sum_pqr_chargesv3.ending) :
  Forall no_charge lines →
  file_sum (sum_pqr_chargesv3.Read lines e) = (0, zero).
Proof.
  intros Hall. unfold file_sum, sum_pqr_chargesv3.sum_charge_lines.
  cbn [sum_pqr_chargesv3.read_lines]. generalize (0, zero).
  induction Hall as [|l ls Hl _ IH]; intros acc; [done|].
  cbn [map fold_left]. rewrite charge_step_tolerant, Hl. apply IH.
Qed.

(** C2, as the code has it.  For a table of secondary structure without
    a parsed row, [main] records nothing and logs that the parse failed.
    For tables of charges, both scripts write one row per file, be the
    files without a parsed line; the row of such a file holds the sum
    [0.0]: the text [NetCharge=0.000] in the table of
    [sum_pqr_charges.py], and, in that of [sum_pqr_chargesv3.py], whose
    function returns the count 0 and the sum [0.0], the text of zero
    with the decimal places asked for, [0.000] for the three of the
    default. *)
Theorem zero_rows_policy (w : world) (ref2abbr abbr2status : gmap string string)
    (clean_dir dssp_dir refseq chosen : string) (paths lines mklog : list string)
    (pqr : list (string * list string)) (a : sum_pqr_chargesv3.args) :
  prefer_alphaFold paths = Ok chosen →
  clean_pdb_exn w chosen (clean_path_of clean_dir chosen) = None →
  (if path_exists w (dssp_path_of dssp_dir chosen) then Ok (true, [])
   else run_mkdssp w (clean_path_of clean_dir chosen)
          (dssp_path_of dssp_dir chosen)) = Ok (true, mklog) →
  open_text w (dssp_path_of dssp_dir chosen) = Some lines →
  n_total (scan lines) = 0 →
  process_group w ref2abbr abbr2status clean_dir dssp_dir (refseq, paths)
    = Ok (None,
          mklog ++ ["Skipping (parse failed): " +:+ basename chosen +:+ " :: "
                    +:+ "No residues parsed from "
                    +:+ dssp_path_of dssp_dir chosen]) ∧
  sum_pqr_charges.write_table (readable pqr)
    = Ok (fold_right (λ f rest,
            sum_pqr_charges.out_line f.1 (sum_pqr_charges.file_total f.2)
            +:+ rest) "" pqr) ∧
  (∀ f, Forall (λ l, legacy_charge l = None) f.2 →
        sum_pqr_charges.out_line f.1 (sum_pqr_charges.file_total f.2)
        = basename f.1 +:+ TAB +:+ "NetCharge=0.000" +:+ LF) ∧
  (pqr ≠ [] →
   0 <= sum_pqr_chargesv3.digits a <= sum_pqr_chargesv3.INT_MAX →
   ∃ out,
     sum_pqr_chargesv3.main a (readable_v3 pqr) = Some (Ok out) ∧
     sum_pqr_chargesv3.rows out =
     (if sum_pqr_chargesv3.no_header a then [] else [["path"; "net_charge"]])
     ++ map (λ f, [basename f.1;
                   format_f (Z.to_nat (sum_pqr_chargesv3.digits a))
                     (sum_pqr_chargesv3.sum_charge_lines
                        (map rstrip_lf f.2)).2]) pqr) ∧
  (∀ f, Forall no_charge f.2 →
     sum_pqr_chargesv3.sum_charge_for_file f.1
       (sum_pqr_chargesv3.Read f.2 sum_pqr_chargesv3.Eof)
     = Ok ((0, zero), []) ∧
     [basename f.1;
      format_f (Z.to_nat (sum_pqr_chargesv3.digits a))
        (sum_pqr_chargesv3.sum_charge_lines (map rstrip_lf f.2)).2]
     = [basename f.1; zero_text (Z.to_nat (sum_pqr_chargesv3.digits a))]) ∧
  zero_text 3 = "0.000".
Proof.
  intros Hch Hclean Hmk Hopen Hzero.
  split; [|split; [|split; [|split; [|split]]]].
  - unfold process_group. rewrite Hch. cbn [bind].
    fold (dssp_path_of dssp_dir chosen). fold (clean_path_of clean_dir chosen).
    rewrite Hclean, Hmk. cbn [bind negb].
    unfold parse_dssp_counts. rewrite Hopen, summarize_zero by done.
    reflexivity.
  - apply write_table_readable.
  - intros f Hf. unfold sum_pqr_charges.out_line.
    rewrite legacy_total_no_charge by done. reflexivity.
  - intros Hne Hd. unfold sum_pqr_chargesv3.main.
    assert (Forall (λ f, caught f.2) (readable_v3 pqr)) as Hall.
    { unfold readable_v3. apply Forall_map, Forall_forall. by intros f _ e. }
    destruct (main_loop_ok a (readable_v3 pqr)
      (0, zero, (if sum_pqr_chargesv3.no_header a then []
                 else [["path"; "net_charge"]], [])) Hd Hall) as [log Hloop].
    destruct (readable_v3 pqr) eqn:Er.
    { destruct pqr; [done|discriminate]. }
    rewrite <- Er in *. rewrite Hloop. cbn [bind fst snd].
    rewrite format_digits_ok by done. cbn [bind]. eexists. split; [done|].
    cbn [sum_pqr_chargesv3.rows]. f_equal. unfold readable_v3.
    rewrite map_map. reflexivity.
  - intros f Hf.
    pose proof (file_sum_no_charge f.2 sum_pqr_chargesv3.Eof Hf) as Hs.
    unfold file_sum in Hs. cbn [sum_pqr_chargesv3.read_lines] in Hs.
    unfold sum_pqr_chargesv3.sum_charge_for_file.
    cbn [sum_pqr_chargesv3.iter_pqr_lines sum_pqr_chargesv3.read_lines
         sum_pqr_chargesv3.read_end].
    rewrite Hs. cbn [snd]. by rewrite format_f_zero.
  - reflexivity.
Qed.

End ZeroRows.
(** ** Strings: lines, stripping, splitting *)

Section Strings.

Lemma append_assoc (a b c : string) : (a +:+ b) +:+ c = a +:+ (b +:+ c).
Proof. induction a as [|x a IH]; [done|]. cbv [String.append] in *. by f_equal. Qed.

Lemma append_nil_r (a : string) : a +:+ "" = a.
Proof. induction a as [|x a IH]; [done|]. cbv [String.append] in *. by f_equal. Qed.

Lemma append_cons (x : ascii) (a b : string) :
  String x a +:+ b = String x (a +:+ b).
Proof. reflexivity. Qed.

Lemma has_char_app (c : ascii) (a b : string) :
  has_char c (a +:+ b) = has_char c a || has_char c b.
Proof.
  induction a as [|x a IH]; [done|].
  rewrite append_cons. cbn [has_char]. rewrite IH. by destruct (Ascii.eqb x c).
Qed.

Lemma universal_newlines_id (s : string) :
  has_char "013" s = false → universal_newlines s = s.
Proof.
  induction s as [|x s IH]; [done|]. cbn [has_char universal_newlines].
  destruct (Ascii.eqb x "013"); [done|]. cbn [orb]. intros H. by rewrite IH.
Qed.

Lemma lines_lf_line (body rest : string) :
  has_char "010" body = false →
  lines_lf (body +:+ LF +:+ rest) = (body +:+ LF) :: lines_lf rest.
Proof.
  induction body as [|x body IH]; [done|].
  cbn [has_char]. destruct (Ascii.eqb x "010") eqn:E; [done|]. cbn [orb].
  intros H. rewrite !append_cons. cbn [lines_lf]. rewrite E, IH by done.
  done.
Qed.

Lemma lstrip_id (c : ascii) (s : string) :
  isspace c = false → lstrip (String c s) = String c s.
Proof. intros H. cbn [lstrip]. by rewrite H. Qed.

Lemma rstrip_id (s : string) : ends_nonspace s = true → rstrip s = s.
Proof.
  induction s as [|x s IH]; [done|]. cbn [ends_nonspace rstrip].
  destruct s as [|y s].
  - cbn [rstrip]. by destruct (isspace x).
  - intros H. by rewrite IH.
Qed.

Lemma rstrip_app_lf (s : string) : rstrip (s +:+ LF) = rstrip s.
Proof.
  induction s as [|x s IH]; [done|].
  rewrite append_cons. cbn [rstrip]. by rewrite IH.
Qed.

Lemma ends_nonspace_app (a v : string) :
  ends_nonspace v = true → ends_nonspace (a +:+ v) = true.
Proof.
  intros Hv. induction a as [|x a IH]; [done|].
  rewrite append_cons. cbn [ends_nonspace].
  destruct (a +:+ v) eqn:E; [|done]. by destruct a, v.
Qed.

Lemma partition_char (c : ascii) (a b : string) :
  has_char c a = false →
  partition (String c "") (a +:+ String c b) = Some (a, b).
Proof.
  induction a as [|x a IH].
  - intros _. change ("" +:+ String c b) with (String c b).
    cbn [partition String.prefix]. destruct (ascii_dec c c); [|done].
    assert (String.prefix "" b = true) as -> by by destruct b. done.
  - cbn [has_char]. intros [Hx Ha]%orb_false_elim.
    rewrite append_cons. cbn [partition String.prefix].
    destruct (ascii_dec c x) as [->|Hne]; [by rewrite Ascii.eqb_refl in Hx|].
    rewrite IH by done. done.
Qed.

End Strings.
(** ** The text of a float *)

Section FloatText.

Lemma digit_facts (c : ascii) :
  is_digit c = true →
  isspace c = false ∧ (∃ d, digit_val c = Some d) ∧
  Ascii.eqb c "_" = false ∧ Ascii.eqb c "i" = false ∧
  Ascii.eqb c "n" = false ∧ Ascii.eqb c "009" = false ∧
  Ascii.eqb c "010" = false ∧ Ascii.eqb c "013" = false ∧
  sign (String c "") = (false, String c "").
Proof.
  destruct c as [[] [] [] [] [] [] [] []]; intros H;
    try (vm_compute in H; discriminate H);
    vm_compute; repeat split; eauto.
Qed.

Lemma sign_digit (c : ascii) (s : string) :
  is_digit c = true → sign (String c s) = (false, String c s).
Proof.
  destruct c as [[] [] [] [] [] [] [] []]; intros H;
    try (vm_compute in H; discriminate H); reflexivity.
Qed.

Lemma all_digits_app (a b : string) :
  all_digits (a +:+ b) = all_digits a && all_digits b.
Proof.
  induction a as [|x a IH]; [done|].
  rewrite append_cons. cbn [all_digits]. rewrite IH. by destruct (is_digit x).
Qed.

Lemma all_digits_has_char (c : ascii) (d : string) :
  is_digit c = false → all_digits d = true → has_char c d = false.
Proof.
  intros Hc. induction d as [|x d IH]; [done|]. cbn [all_digits has_char].
  intros [Hx Hd]%andb_prop. rewrite IH by done.
  destruct (Ascii.eqb_spec x c) as [->|]; [congruence|done].
Qed.

Lemma all_digits_ends (d : string) :
  all_digits d = true → d ≠ "" → ends_nonspace d = true.
Proof.
  induction d as [|x d IH]; [done|]. cbn [all_digits ends_nonspace].
  intros [Hx Hd]%andb_prop _. destruct d as [|y d].
  - destruct (digit_facts x Hx) as (-> & _). done.
  - by apply IH.
Qed.

Lemma digitpart_go_digits (d rest : string) (acc : Z) (n : nat) :
  all_digits d = true → digit_stop rest = true →
  ∃ acc' n', digitpart_go acc n (d +:+ rest) = (acc', n', rest).
Proof.
  intros Hd Hrest. revert acc n Hd.
  induction d as [|x d IH]; intros acc n Hd.
  - change ("" +:+ rest) with rest. destruct rest as [|c r]; [by eexists _, _|].
    cbn [digit_stop] in Hrest. apply andb_prop in Hrest as [Hc Hu].
    cbn [digitpart_go]. unfold is_digit in Hc.
    destruct (digit_val c); [done|].
    destruct (Ascii.eqb c "_"); [done|]. by eexists _, _.
  - cbn [all_digits] in Hd. apply andb_prop in Hd as [Hx Hd].
    rewrite append_cons. cbn [digitpart_go].
    destruct (digit_facts x Hx) as (_ & [v ->] & _). by apply IH.
Qed.

Lemma digitpart_digits (d rest : string) :
  all_digits d = true → d ≠ "" → digit_stop rest = true →
  ∃ v n, digitpart (d +:+ rest) = Some (v, n, rest).
Proof.
  intros Hd Hne Hrest. destruct d as [|x d]; [done|].
  destruct (digitpart_go_digits (String x d) rest 0 0 Hd Hrest) as (v & n & E).
  exists v, n. rewrite append_cons in *. cbn [digitpart].
  cbn [all_digits] in Hd. apply andb_prop in Hd as [-> _]. by rewrite E.
Qed.

Lemma floatnumber_fixed (d1 d2 : string) :
  all_digits d1 = true → d1 ≠ "" → all_digits d2 = true → d2 ≠ "" →
  is_Some (floatnumber (d1 +:+ "." +:+ d2)).
Proof.
  intros H1 N1 H2 N2. unfold floatnumber.
  destruct (digitpart_digits d1 ("." +:+ d2) H1 N1 eq_refl) as (v1 & n1 & ->).
  change ("." +:+ d2) with (String "." d2). cbv iota beta.
  destruct (digitpart_digits d2 "" H2 N2 eq_refl) as (v2 & n2 & E2).
  rewrite append_nil_r in E2. rewrite E2. cbn [exponent]. done.
Qed.

Lemma lower_digit_not_word (c : ascii) (s : string) :
  is_digit c = true →
  (lower (String c s) =? "inf")%string = false ∧
  (lower (String c s) =? "infinity")%string = false ∧
  (lower (String c s) =? "nan")%string = false.
Proof.
  destruct c as [[] [] [] [] [] [] [] []]; intros H;
    try (vm_compute in H; discriminate H); done.
Qed.

(** [float] accepts an optional minus sign, digits, a point and digits. *)
Lemma py_float_fixed (neg : bool) (d1 d2 : string) :
  all_digits d1 = true → d1 ≠ "" → all_digits d2 = true → d2 ≠ "" →
  is_Some (py_float ((if neg then "-" else "") +:+ d1 +:+ "." +:+ d2)).
Proof.
  intros H1 N1 H2 N2.
  pose proof (floatnumber_fixed d1 d2 H1 N1 H2 N2) as [q Hq].
  pose proof (all_digits_ends d2 H2 N2) as He.
  destruct d1 as [|x d1]; [done|].
  pose proof H1 as H1'. cbn [all_digits] in H1'.
  apply andb_prop in H1' as [Hx _].
  destruct (digit_facts x Hx) as (Hsp & _).
  destruct (lower_digit_not_word x (d1 +:+ "." +:+ d2) Hx) as (L1 & L2 & L3).
  assert (ends_nonspace (String x d1 +:+ "." +:+ d2) = true) as Hend.
  { rewrite <- append_assoc. by apply ends_nonspace_app. }
  unfold py_float, strip. destruct neg.
  - change ("-" +:+ String x d1 +:+ "." +:+ d2)
      with (String "-" (String x d1 +:+ "." +:+ d2)).
    rewrite lstrip_id by done.
    rewrite rstrip_id by (by apply (ends_nonspace_app "-")).
    cbn [sign]. rewrite append_cons, L1, L2, L3. cbn [orb].
    rewrite append_cons in Hq. by rewrite Hq.
  - change ("" +:+ String x d1 +:+ "." +:+ d2)
      with (String x (d1 +:+ "." +:+ d2)).
    rewrite append_cons in Hend, Hq.
    rewrite lstrip_id, rstrip_id, sign_digit by done.
    rewrite L1, L2, L3. cbn [orb]. by rewrite Hq.
Qed.

Lemma uint_digits (u : Decimal.uint) :
  all_digits (NilEmpty.string_of_uint u) = true.
Proof. induction u; cbn [NilEmpty.string_of_uint all_digits]; [done|by rewrite IHu..]. Qed.

Lemma decimal_digits (n : Z) : all_digits (decimal n) = true ∧ decimal n ≠ "".
Proof.
  unfold decimal, NilZero.string_of_uint.
  destruct (N.to_uint (Z.to_N n)) as [|u|u|u|u|u|u|u|u|u|u] eqn:E;
    try done; (split; [|done]);
    cbn [NilEmpty.string_of_uint all_digits]; by rewrite uint_digits.
Qed.

Lemma zeros_digits (k : nat) : all_digits (zeros k) = true.
Proof. induction k; [done|]. cbn [zeros all_digits]. by rewrite IHk. Qed.

Lemma zfill_digits (w : nat) (s : string) :
  all_digits s = true → s ≠ "" →
  all_digits (zfill w s) = true ∧ zfill w s ≠ "".
Proof.
  intros Hs Hne. unfold zfill. split.
  - by rewrite all_digits_app, zeros_digits, Hs.
  - destruct (zeros _); [done|]. by rewrite append_cons.
Qed.

(** The text of a float with three decimals: [float] reads it back, and
    it holds no whitespace at its end, no tab and no line break. *)
Lemma format_f_3_text (x : float) :
  let v := format_f 3 x in
  is_Some (py_float v) ∧ ends_nonspace v = true ∧
  has_char "009" v = false ∧ has_char "010" v = false ∧
  has_char "013" v = false.
Proof.
  destruct x as [q|[]|]; [|vm_compute; repeat split; eauto..].
  cbv zeta. unfold format_f.
  set (n := round_half_even _).
  destruct (decimal_digits (n / 10 ^ Z.of_nat 3)) as [H1 N1].
  destruct (decimal_digits (n mod 10 ^ Z.of_nat 3)) as [H2' N2'].
  destruct (zfill_digits 3 _ H2' N2') as [H2 N2].
  set (d1 := decimal _) in *. set (d2 := zfill 3 _) in *.
  split; [by apply py_float_fixed|].
  split.
  { rewrite <- !append_assoc. apply ends_nonspace_app.
    by apply all_digits_ends. }
  assert (∀ c, is_digit c = false → Ascii.eqb "-" c = false →
               Ascii.eqb "." c = false →
               has_char c ((if is_neg q then "-" else "") +:+ d1 +:+ "." +:+ d2)
               = false) as Hc.
  { intros c Hd Hm Hp. rewrite !has_char_app.
    rewrite (all_digits_has_char c d1), (all_digits_has_char c d2) by done.
    destruct (is_neg q); cbn [has_char]; by rewrite ?Hm, ?Hp. }
  repeat split; by apply Hc.
Qed.

End FloatText.
(** ** Writing the table of charges and reading it back *)

Section RoundTrip.
Import label_and_plot_net_charges.

Lemma plain_name_inv (s : string) :
  plain_name s = true →
  ∃ c s', s = String c s' ∧ isspace c = false ∧
          has_char "009" s = false ∧ has_char "010" s = false ∧
          has_char "013" s = false.
Proof.
  destruct s as [|c s']; [done|]. unfold plain_name.
  intros H. repeat (apply andb_prop in H as [H ?]).
  exists c, s'. repeat split; by apply negb_true_iff.
Qed.

(** The line written for a file, seen from the reader. *)
Lemma out_line_read (f : string) (total : float) :
  plain_name (basename f) = true →
  ∃ body z,
    sum_pqr_charges.out_line f total = body +:+ LF ∧
    has_char "010" body = false ∧ has_char "013" body = false ∧
    py_float (format_f 3 total) = Some z ∧
    charge_row (body +:+ LF) = Some (basename f, z).
Proof.
  intros Hp. unfold sum_pqr_charges.out_line.
  destruct (plain_name_inv _ Hp) as (c & name' & Ename & Hc & Ht & Hl & Hr).
  destruct (format_f_3_text total) as ([z Hz] & Hend & Vt & Vl & Vr).
  cbv zeta in *. revert Hz Hend Vt Vl Vr.
  generalize (format_f 3 total). intros v Hz Hend Vt Vl Vr.
  set (name := basename f) in *.
  exists (name +:+ TAB +:+ "NetCharge=" +:+ v), z.
  split; [by rewrite !append_assoc|].
  split; [by rewrite !has_char_app, Hl, Vl|].
  split; [by rewrite !has_char_app, Hr, Vr|].
  split; [done|].
  unfold charge_row, strip.
  assert (ends_nonspace (name +:+ TAB +:+ "NetCharge=" +:+ v) = true) as He.
  { rewrite <- !append_assoc. by apply ends_nonspace_app. }
  rewrite Ename, !append_cons, lstrip_id by done.
  rewrite <- !append_cons, <- Ename.
  rewrite rstrip_app_lf, rstrip_id by done.
  rewrite Ename at 1. rewrite append_cons. cbn [String.eqb].
  unfold split1.
  change (name +:+ TAB +:+ "NetCharge=" +:+ v)
    with (name +:+ String "009" ("NetCharge=" +:+ v)).
  change TAB with (String "009" "").
  rewrite partition_char by done.
  assert (startswith "NetCharge=" ("NetCharge=" +:+ v) = true) as ->
    by (destruct v; reflexivity).
  assert (partition "=" ("NetCharge=" +:+ v) = Some ("NetCharge", v)) as ->.
  { destruct v; reflexivity. }
  cbn [negb]. by rewrite Hz.
Qed.

Lemma table_lines (files : list (string * list string)) :
  Forall (λ f, plain_name (basename f.1) = true) files →
  let content :=
    fold_right (λ f rest,
      sum_pqr_charges.out_line f.1 (sum_pqr_charges.file_total f.2) +:+ rest)
      "" files in
  has_char "013" content = false ∧
  lines_lf content =
    map (λ f, sum_pqr_charges.out_line f.1 (sum_pqr_charges.file_total f.2))
      files.
Proof.
  induction 1 as [|f fs Hf _ [IHr IHl]]; [done|]. cbn [fold_right map].
  destruct (out_line_read f.1 (sum_pqr_charges.file_total f.2) Hf)
    as (body & z & -> & Hl & Hr & _).
  split.
  - by rewrite !has_char_app, Hr, IHr.
  - rewrite append_assoc, lines_lf_line by done. by rewrite IHl.
Qed.

Lemma omap_charge_row (files : list (string * list string)) :
  Forall (λ f, plain_name (basename f.1) = true) files →
  ∃ rows,
    omap charge_row
      (map (λ f, sum_pqr_charges.out_line f.1 (sum_pqr_charges.file_total f.2))
         files) = rows ∧
    map fst rows = map (λ f, basename f.1) files ∧
    Forall2 (λ f row,
      py_float (format_f 3 (sum_pqr_charges.file_total f.2)) = Some row.2)
      files rows.
Proof.
  induction 1 as [|f fs Hf _ (rows & E & Hn & Hv)].
  - exists []. by repeat split; try constructor.
  - destruct (out_line_read f.1 (sum_pqr_charges.file_total f.2) Hf)
      as (body & z & Eb & _ & _ & Hz & Hrow).
    exists ((basename f.1, z) :: rows). cbn [map omap list_omap].
    rewrite Eb, Hrow, E. cbn [map fst]. rewrite Hn.
    split; [done|]. split; [done|]. by constructor.
Qed.

(** C10, as the code has it.  Let every file name be plain: not empty,
    not beginning with whitespace, without tab, line feed or carriage
    return.  Then the table that [sum_pqr_charges.py] writes is read back
    by [read_charges_table] with one row per file, in order, under the
    same file names; the accessions of the rows are those of the files,
    and so are the statuses joined to them; each charge is the written
    text read by [float]. *)
Theorem charge_table_round_trip (files : list (string * list string))
    (charges_path : string) (ref2abbr : gmap string string)
    (abbr2status : status_dict) :
  files ≠ [] →
  Forall (λ f, plain_name (basename f.1) = true) files →
  ∃ content rows,
    sum_pqr_charges.main (readable files) = Some (Ok content) ∧
    read_charges_table charges_path (readlines content) = Ok rows ∧
    map fst rows = map (λ f, basename f.1) files ∧
    map (λ row, RefSeq (label_row ref2abbr abbr2status row)) rows
      = map (λ f, entity_key f.1) files ∧
    map (λ row, Status (label_row ref2abbr abbr2status row)) rows
      = map (λ f, label_status ref2abbr abbr2status (entity_key f.1)) files ∧
    Forall2 (λ f row,
      py_float (format_f 3 (sum_pqr_charges.file_total f.2)) = Some row.2)
      files rows.
Proof.
  intros Hne Hplain.
  destruct (table_lines files Hplain) as [Hcr Hlines]. cbv zeta in *.
  destruct (omap_charge_row files Hplain) as (rows & Erows & Hnames & Hvals).
  eexists _, rows. split.
  { unfold sum_pqr_charges.main. rewrite write_table_readable.
    destruct files; [done|]. reflexivity. }
  split.
  { unfold read_charges_table, readlines.
    rewrite universal_newlines_id, Hlines, Erows by done.
    destruct rows as [|r rs]; [|done].
    destruct files; [done|]. done. }
  split; [done|].
  assert (∀ (g : string → string),
            map (λ row : string * float, g (split_head "__" row.1)) rows
            = map (λ f : string * list string, g (entity_key f.1)) files) as Hg.
  { intros g.
    trans (map (λ n, g (split_head "__" n)) (map fst rows));
      [by rewrite map_map|].
    rewrite Hnames. by rewrite map_map. }
  split; [apply (Hg (λ k, k))|]. split; [|done].
  apply (Hg (label_status ref2abbr abbr2status)).
Qed.

End RoundTrip.
(** ** Instances *)

Section Instances.
Import dssp_batch_summary.

Lemma zero_rows_policy_witness :
  let chosen := "pdb/NP_1__AF-P1.pdb" in
  let a := sum_pqr_chargesv3.Args (FNum 1000) 3 false in
  (prefer_alphaFold [chosen] = Ok chosen ∧
   clean_pdb_exn header_only_world chosen (clean_path_of "out/clean" chosen)
     = None ∧
   n_total (scan ["  #  RESIDUE AA STRUCTURE BP1 BP2  ACC" +:+ LF]) = 0) ∧
  process_group header_only_world ∅ ∅ "out/clean" "out" ("NP_1", [chosen])
    = Ok (None,
          [] ++ ["Skipping (parse failed): " +:+ basename chosen +:+ " :: "
                 +:+ "No residues parsed from " +:+ dssp_path_of "out" chosen]) ∧
  sum_pqr_charges.write_table (readable plain_files)
    = Ok (fold_right (λ f rest,
            sum_pqr_charges.out_line f.1 (sum_pqr_charges.file_total f.2)
            +:+ rest) "" plain_files) ∧
  (∀ f, Forall (λ l, legacy_charge l = None) f.2 →
        sum_pqr_charges.out_line f.1 (sum_pqr_charges.file_total f.2)
        = basename f.1 +:+ TAB +:+ "NetCharge=0.000" +:+ LF) ∧
  (plain_files ≠ [] →
   0 <= sum_pqr_chargesv3.digits a <= sum_pqr_chargesv3.INT_MAX →
   ∃ out,
     sum_pqr_chargesv3.main a (readable_v3 plain_files) = Some (Ok out) ∧
     sum_pqr_chargesv3.rows out =
     (if sum_pqr_chargesv3.no_header a then [] else [["path"; "net_charge"]])
     ++ map (λ f, [basename f.1;
                   format_f (Z.to_nat (sum_pqr_chargesv3.digits a))
                     (sum_pqr_chargesv3.sum_charge_lines
                        (map rstrip_lf f.2)).2]) plain_files) ∧
  (∀ f, Forall no_charge f.2 →
     sum_pqr_chargesv3.sum_charge_for_file f.1
       (sum_pqr_chargesv3.Read f.2 sum_pqr_chargesv3.Eof)
     = Ok ((0, zero), []) ∧
     [basename f.1;
      format_f (Z.to_nat (sum_pqr_chargesv3.digits a))
        (sum_pqr_chargesv3.sum_charge_lines (map rstrip_lf f.2)).2]
     = [basename f.1; zero_text (Z.to_nat (sum_pqr_chargesv3.digits a))]) ∧
  zero_text 3 = "0.000".
Proof.
  split; [repeat split; reflexivity|].
  apply (zero_rows_policy header_only_world ∅ ∅ "out/clean" "out" "NP_1"
           "pdb/NP_1__AF-P1.pdb" ["pdb/NP_1__AF-P1.pdb"]
           ["  #  RESIDUE AA STRUCTURE BP1 BP2  ACC" +:+ LF] []
           plain_files (sum_pqr_chargesv3.Args (FNum 1000) 3 false));
    reflexivity.
Defined.

(** C2, as stated, fails on tables of charges: for a file without a
    single record line both scripts write a row, and the charge in it is
    zero. *)
Lemma zero_valued_charge_row_counterexample :
  let lines := ["REMARK no atoms" +:+ LF] in
  sum_pqr_chargesv3.sum_charge_for_file "pqr/NP_2__SWM.pqr"
    (sum_pqr_chargesv3.Read lines sum_pqr_chargesv3.Eof)
    = Ok ((0, zero), []) ∧
  sum_pqr_charges.main [("pqr/NP_2__SWM.pqr", Some lines)]
    = Some (Ok ("NP_2__SWM.pqr" +:+ TAB +:+ "NetCharge=0.000" +:+ LF)) ∧
  ∃ out,
    sum_pqr_chargesv3.main (sum_pqr_chargesv3.Args (FNum 1000) 3 false)
      [("pqr/NP_2__SWM.pqr",
        sum_pqr_chargesv3.Read lines sum_pqr_chargesv3.Eof)]
      = Some (Ok out) ∧
    sum_pqr_chargesv3.rows out
      = [["path"; "net_charge"]; ["NP_2__SWM.pqr"; "0.000"]].
Proof.
  split; [vm_compute; reflexivity|]. split; [vm_compute; reflexivity|].
  eexists. split; vm_compute; reflexivity.
Qed.

Lemma charge_table_round_trip_witness :
  plain_files ≠ [] ∧
  Forall (λ f, plain_name (basename f.1) = true) plain_files ∧
  ∃ content rows,
    sum_pqr_charges.main (readable plain_files) = Some (Ok content) ∧
    label_and_plot_net_charges.read_charges_table "net_charges.tsv"
      (readlines content) = Ok rows ∧
    map fst rows = map (λ f, basename f.1) plain_files ∧
    map (λ row, label_and_plot_net_charges.RefSeq
                  (label_and_plot_net_charges.label_row ∅ ∅ row)) rows
      = map (λ f, entity_key f.1) plain_files ∧
    map (λ row, label_and_plot_net_charges.Status
                  (label_and_plot_net_charges.label_row ∅ ∅ row)) rows
      = map (λ f, label_status ∅ ∅ (entity_key f.1)) plain_files ∧
    Forall2 (λ f row,
      py_float (format_f 3 (sum_pqr_charges.file_total f.2)) = Some row.2)
      plain_files rows.
Proof.
  assert (plain_files ≠ []) as H1 by discriminate.
  assert (Forall (λ f, plain_name (basename f.1) = true) plain_files) as H2
    by (repeat constructor).
  split; [exact H1|]. split; [exact H2|].
  apply (charge_table_round_trip plain_files "net_charges.tsv" ∅ ∅ H1 H2).
Defined.

(** C10, as stated, fails: the row of a file with a tab in its name is
    dropped by the reader, and its accession is lost. *)
Lemma round_trip_counterexample :
  ∃ content rows,
    sum_pqr_charges.main (readable tab_named_files) = Some (Ok content) ∧
    label_and_plot_net_charges.read_charges_table "net_charges.tsv"
      (readlines content) = Ok rows ∧
    map (λ f, entity_key f.1) tab_named_files
      = ["NP_1" +:+ TAB +:+ "x"; "NP_2"] ∧
    map (λ row, label_and_plot_net_charges.RefSeq
                  (label_and_plot_net_charges.label_row ∅ ∅ row)) rows
      = ["NP_2"].
Proof.
  eexists _, _. split; [vm_compute; reflexivity|].
  split; [vm_compute; reflexivity|]. split; vm_compute; reflexivity.
Qed.

End Instances.
(** ** The table as a whole *)

Section TableRows.
Import dssp_batch_summary.

Lemma helix_not_sheet (ss : string) :
  mem ss HELIX = true → mem ss SHEET = false.
Proof.
  unfold mem, HELIX, SHEET. cbn [existsb].
  destruct (String.eqb_spec ss "H") as [->|]; [done|].
  destruct (String.eqb_spec ss "G") as [->|]; [done|].
  destruct (String.eqb_spec ss "I") as [->|]; [done|]. done.
Qed.

Lemma fold_in_table (ls : list string) (st : counts) :
  in_table st = true →
  fold_left parse_line ls st = add_rows st (List.filter is_row ls).
Proof.
  revert st. induction ls as [|l ls IH]; intros st Hin.
  - destruct st as [t n h s c xs]. simpl in Hin. subst t.
    unfold add_rows, count_rows. simpl.
    by rewrite !Z.add_0_r, app_nil_r.
  - cbn [fold_left List.filter]. unfold is_row at 1.
    unfold parse_line at 2. rewrite Hin. cbn [negb].
    destruct (startswith HEADER l) eqn:Eh; cbn [negb andb].
    + rewrite IH by done. by destruct st.
    + destruct (Nat.ltb_spec (len l) 50) as [Hlt|Hge].
      * assert ((50 <=? len l)%nat = false) as -> by by apply Nat.leb_gt.
        by apply IH.
      * assert ((50 <=? len l)%nat = true) as -> by by apply Nat.leb_le.
        fold (code_of l). fold (exposure_of l).
        destruct (mem (code_of l) HELIX) eqn:EH;
          [pose proof (helix_not_sheet _ EH) as ES
          |destruct (mem (code_of l) SHEET) eqn:ES];
          rewrite IH by done; unfold add_rows, count_rows;
          cbn [n_total n_helix n_sheet n_coil asas List.filter map length];
          rewrite ?EH, ?ES; cbn [negb andb length];
          rewrite <- ?app_assoc; cbn [app]; f_equal; lia.
Qed.

Lemma fold_before_header (ls : list string) (st : counts) :
  in_table st = false →
  fold_left parse_line ls st =
  if existsb (startswith HEADER) ls
  then add_rows st (List.filter is_row (after_header ls))
  else st.
Proof.
  revert st. induction ls as [|l ls IH]; intros st Hin; [done|].
  cbn [fold_left existsb after_header]. unfold parse_line at 2.
  destruct (startswith HEADER l) eqn:Eh; cbn [orb].
  - rewrite fold_in_table by done. by destruct st.
  - rewrite Hin. cbn [negb]. by apply IH.
Qed.

Lemma filter_all_true {A} (l : list A) : List.filter (λ _, true) l = l.
Proof. induction l as [|x l IH]; [done|]. cbn [List.filter]. by rewrite IH. Qed.

Lemma no_header_after (ls : list string) :
  existsb (startswith HEADER) ls = false → after_header ls = [].
Proof.
  induction ls as [|l ls IH]; [done|]. cbn [existsb after_header].
  destruct (startswith HEADER l); [done|]. exact IH.
Qed.

Lemma scan_as_rows (lines : list string) :
  scan lines =
  if existsb (startswith HEADER) lines
  then add_rows counts0 (rows_of lines) else counts0.
Proof. unfold scan, rows_of. by rewrite fold_before_header. Qed.

Lemma scan_total_rows (lines : list string) :
  n_total (scan lines) = Z.of_nat (length (rows_of lines)).
Proof.
  rewrite scan_as_rows. destruct (existsb (startswith HEADER) lines) eqn:E.
  - unfold add_rows, count_rows. cbn [n_total counts0].
    by rewrite filter_all_true.
  - unfold rows_of. by rewrite no_header_after.
Qed.

(** The counters of a table are counts over its rows: the lines after
    the first header line that have 50 characters or more and are no
    header lines themselves.  Helix rows are those with code H, G or I,
    sheet rows those with code E or B, coil rows all the others; the
    exposures are those of the rows, in order. *)
Theorem scan_counts_rows (lines : list string) :
  let rows := rows_of lines in
  n_total (scan lines) = Z.of_nat (length rows) ∧
  n_helix (scan lines) = count_rows (λ r, mem (code_of r) HELIX) rows ∧
  n_sheet (scan lines) = count_rows (λ r, mem (code_of r) SHEET) rows ∧
  n_coil (scan lines) = count_rows
    (λ r, negb (mem (code_of r) HELIX) && negb (mem (code_of r) SHEET)) rows ∧
  asas (scan lines) = map exposure_of rows ∧
  in_table (scan lines) = existsb (startswith HEADER) lines.
Proof.
  cbv zeta. split; [apply scan_total_rows|]. rewrite scan_as_rows.
  destruct (existsb (startswith HEADER) lines) eqn:E.
  - unfold add_rows, count_rows.
    cbn [n_total n_helix n_sheet n_coil asas counts0 in_table].
    repeat split; done.
  - unfold rows_of. by rewrite no_header_after.
Qed.

Lemma summarize_ok (dssp_path : string) (st : counts) :
  counts_ok st → n_total st ≠ 0 → ∃ m, summarize dssp_path st = Ok m.
Proof.
  intros (Hh & Hs & Hc & Hsum & Hlen) Hn.
  assert (0 < n_total st) as Hpos by lia.
  destruct (fractions_sum _ _ _ _ Hh Hs Hc Hsum Hpos)
    as (fh & fs & fc & sum & Eh & Es & Ec & _).
  assert (asas st ≠ []) as Hne by (intros E; rewrite E in Hlen; simpl in Hlen; lia).
  destruct (mean_defined _ Hne) as [mean Hmean].
  unfold summarize.
  assert ((n_total st =? 0) = false) as -> by lia.
  rewrite Eh, Es, Ec. cbn [or_raise bind].
  destruct (asas st) as [|a l] eqn:Ea; [done|].
  rewrite Hmean. cbn [or_raise bind]. by eexists.
Qed.

(** A table is refused exactly when it has no row: without a header
    line, or without a line of 50 characters after it, the parser raises
    its assertion error; with one row or more it returns a record whose
    [n_total] is the number of rows.  A file that cannot be opened
    raises too. *)
Theorem parse_dssp_counts_refuses_iff_no_row
    (open_text : string → option (list string)) (dssp_path : string)
    (lines : list string) :
  open_text dssp_path = Some lines →
  (rows_of lines = [] →
     parse_dssp_counts open_text dssp_path
     = Raise (AssertionError ("No residues parsed from " +:+ dssp_path))) ∧
  (rows_of lines ≠ [] →
     ∃ m, parse_dssp_counts open_text dssp_path = Ok m ∧
          m_n_total m = Z.of_nat (length (rows_of lines))) ∧
  (Forall (λ l, startswith HEADER l = false) lines → rows_of lines = []).
Proof.
  intros Hopen. unfold parse_dssp_counts. rewrite Hopen.
  pose proof (scan_total_rows lines) as Hn.
  split; [|split].
  - intros E. apply summarize_zero. rewrite Hn, E. reflexivity.
  - intros Hne.
    assert (n_total (scan lines) ≠ 0) as Hn0.
    { rewrite Hn. destruct (rows_of lines); [done|]. simpl. lia. }
    destruct (summarize_ok dssp_path _ (scan_ok lines) Hn0) as [m Hm].
    exists m. split; [done|].
    destruct (summarize_positive _ _ _ Hm) as [-> _]. done.
  - intros Hall. unfold rows_of. rewrite no_header_after; [done|].
    clear Hopen Hn. induction Hall as [|l ls Hl _ IH]; [done|]. cbn [existsb]. rewrite Hl.
    exact IH.
Qed.

Lemma parse_dssp_counts_refuses_iff_no_row_witness :
  let open_text := λ _ : string, Some demo_table in
  open_text "x.dssp" = Some demo_table ∧
  (rows_of demo_table ≠ [] →
     ∃ m, parse_dssp_counts open_text "x.dssp" = Ok m ∧
          m_n_total m = Z.of_nat (length (rows_of demo_table))).
Proof.
  split; [reflexivity|].
  apply (parse_dssp_counts_refuses_iff_no_row (λ _, Some demo_table) "x.dssp"
           demo_table).
  reflexivity.
Defined.

End TableRows.
(** ** Fields that are no numbers *)

Section Unparsable.
Import dssp_batch_summary.

Lemma scan_past_header (before : list string) :
  existsb (startswith HEADER) before = true → in_table (scan before) = true.
Proof. intros H. rewrite scan_as_rows, H. reflexivity. Qed.

(** C4.  A table holds a row after its header whose exposure column
    [float] refuses: the parser returns a record, the row is counted in
    its [n_total], which is one more than that of the table without the
    row, the exposures are those of the table without the row with
    [0.0] at the place of the row, and [mean_ASA] is their sum over
    [n_total].  A table of charges holds a record line whose charge
    [float] refuses: [sum_charge_for_file] returns what it returns for
    the file without the line. *)
Theorem unparsable_field_asymmetry
    (open_text : string → option (list string)) (dssp_path : string)
    (before after : list string) (row : string)
    (path : string) (pre post : list string) (rec : string)
    (e : sum_pqr_chargesv3.ending) :
  open_text dssp_path = Some (before ++ row :: after) →
  existsb (startswith HEADER) before = true →
  startswith HEADER row = false →
  (50 <= len row)%nat →
  py_float (strip (slice 34 38 row)) = None →
  sum_pqr_chargesv3.is_pqr_line (rstrip_lf rec) = true →
  py_float (sum_pqr_chargesv3.second_to_last (split_ws (rstrip_lf rec))) = None →
  (∃ m ys,
     parse_dssp_counts open_text dssp_path = Ok m ∧
     m_n_total m = n_total (scan (before ++ after)) + 1 ∧
     asas (scan (before ++ after)) = asas (scan before) ++ ys ∧
     asas (scan (before ++ row :: after))
       = asas (scan before) ++ FNum 0 :: ys ∧
     fdiv (fsum (asas (scan before) ++ FNum 0 :: ys)) (of_int (m_n_total m))
       = Some (mean_ASA m)) ∧
  sum_pqr_chargesv3.sum_charge_for_file path
    (sum_pqr_chargesv3.Read (pre ++ rec :: post) e)
  = sum_pqr_chargesv3.sum_charge_for_file path
      (sum_pqr_chargesv3.Read (pre ++ post) e).
Proof.
  intros Hopen Hhead Hh Hlen Hf Hp Hc. split.
  - pose proof (scan_past_header before Hhead) as Hin.
    destruct (parse_line_row (scan before) row Hin Hh Hlen)
      as (Hin' & Hn' & _ & Ha').
    assert (asa_of (strip (slice 34 38 row)) = FNum 0) as E0.
    { unfold asa_of. rewrite Hf. by destruct (_ =? _)%string. }
    rewrite E0 in Ha'.
    set (ys := map exposure_of (List.filter is_row after)).
    assert (scan (before ++ after)
            = add_rows (scan before) (List.filter is_row after)) as Ewithout.
    { rewrite scan_app. by apply fold_in_table. }
    assert (scan (before ++ row :: after)
            = add_rows (parse_line (scan before) row)
                (List.filter is_row after)) as Ewith.
    { rewrite scan_app. cbn [fold_left]. by apply fold_in_table. }
    assert (n_total (scan (before ++ row :: after))
            = n_total (scan (before ++ after)) + 1) as Hn.
    { rewrite Ewith, Ewithout. unfold add_rows. cbn [n_total]. lia. }
    assert (asas (scan (before ++ row :: after))
            = asas (scan before) ++ FNum 0 :: ys) as Ha.
    { rewrite Ewith. unfold add_rows. cbn [asas]. rewrite Ha'.
      by rewrite <- app_assoc. }
    pose proof (scan_ok (before ++ after)) as (H1 & H2 & H3 & H4 & _).
    assert (n_total (scan (before ++ row :: after)) ≠ 0) as Hn0 by lia.
    destruct (summarize_ok dssp_path _ (scan_ok (before ++ row :: after)) Hn0)
      as [m Hm].
    destruct (mean_ASA_spec _ _ _ Hm) as [Hmn Hmean].
    pose proof (scan_ok (before ++ row :: after)) as (_ & _ & _ & _ & Hl).
    exists m, ys. unfold parse_dssp_counts. rewrite Hopen.
    split; [done|]. split; [lia|]. split.
    { rewrite Ewithout. reflexivity. }
    split; [done|]. rewrite <- Ha, Hmn, <- Hl. exact Hmean.
  - unfold sum_pqr_chargesv3.sum_charge_for_file,
      sum_pqr_chargesv3.iter_pqr_lines, sum_pqr_chargesv3.sum_charge_lines.
    cbn [sum_pqr_chargesv3.read_lines sum_pqr_chargesv3.read_end].
    rewrite !map_app, !fold_left_app. cbn [map fold_left].
    rewrite (charge_step_tolerant _ (rstrip_lf rec)).
    unfold tolerant_charge. rewrite Hp, Hc. by destruct (_ <=? _)%nat.
Qed.

Lemma unparsable_field_asymmetry_witness :
  let before :=
    ["  #  RESIDUE AA STRUCTURE BP1 BP2  ACC" +:+ LF; demo_row "H" " 123"] in
  let after := [demo_row " " "  10"] in
  let row := demo_row "E" " x.y" in
  let pre := [legacy_example +:+ LF] in
  let rec := "ATOM 1 N MET A 1 1.0 2.0 3.0 n/a 1.8750" +:+ LF in
  let open_text := λ _ : string, Some (before ++ row :: after) in
  (existsb (startswith HEADER) before = true ∧
   startswith HEADER row = false ∧
   (50 <= len row)%nat ∧
   py_float (strip (slice 34 38 row)) = None ∧
   sum_pqr_chargesv3.is_pqr_line (rstrip_lf rec) = true ∧
   py_float (sum_pqr_chargesv3.second_to_last (split_ws (rstrip_lf rec)))
     = None) ∧
  (∃ m ys,
     parse_dssp_counts open_text "x.dssp" = Ok m ∧
     m_n_total m = n_total (scan (before ++ after)) + 1 ∧
     asas (scan (before ++ after)) = asas (scan before) ++ ys ∧
     asas (scan (before ++ row :: after))
       = asas (scan before) ++ FNum 0 :: ys ∧
     fdiv (fsum (asas (scan before) ++ FNum 0 :: ys)) (of_int (m_n_total m))
       = Some (mean_ASA m)) ∧
  sum_pqr_chargesv3.sum_charge_for_file "x.pqr"
    (sum_pqr_chargesv3.Read (pre ++ rec :: []) sum_pqr_chargesv3.Eof)
  = sum_pqr_chargesv3.sum_charge_for_file "x.pqr"
      (sum_pqr_chargesv3.Read (pre ++ []) sum_pqr_chargesv3.Eof).
Proof.
  split; [repeat split; vm_compute; (reflexivity || lia)|].
  apply (unparsable_field_asymmetry
           (λ _, Some (["  #  RESIDUE AA STRUCTURE BP1 BP2  ACC" +:+ LF;
                         demo_row "H" " 123"]
                       ++ demo_row "E" " x.y" :: [demo_row " " "  10"]))
           "x.dssp"
           ["  #  RESIDUE AA STRUCTURE BP1 BP2  ACC" +:+ LF; demo_row "H" " 123"]
           [demo_row " " "  10"] (demo_row "E" " x.y")
           "x.pqr" [legacy_example +:+ LF] []
           ("ATOM 1 N MET A 1 1.0 2.0 3.0 n/a 1.8750" +:+ LF)
           sum_pqr_chargesv3.Eof);
    vm_compute; (reflexivity || lia).
Defined.

End Unparsable.
(** ** The choice of a file *)

Section Choice.
Import dssp_batch_summary.

Lemma find_none_forall {A} (f : A → bool) (l : list A) :
  find f l = None ↔ Forall (λ x, f x = false) l.
Proof.
  induction l as [|x l IH]; simpl.
  - split; [constructor|done].
  - destruct (f x) eqn:E.
    + split; [done|]. intros H. inversion H; congruence.
    + rewrite IH. split; [by constructor|]. by inversion 1.
Qed.

Lemma find_first {A} (f : A → bool) (before after : list A) (x : A) :
  Forall (λ y, f y = false) before → f x = true →
  find f (before ++ x :: after) = Some x.
Proof.
  induction 1 as [|y l Hy _ IH]; intros Hx; simpl.
  - by rewrite Hx.
  - rewrite Hy. by apply IH.
Qed.

(** [prefer_alphaFold] returns the first marked path of the list, and
    the first path where none is marked; it raises [IndexError] on the
    empty list only. *)
Theorem prefer_alphaFold_first (before after : list string) (p : string) :
  Forall (λ q, is_af q = false) before →
  (is_af p = true → prefer_alphaFold (before ++ p :: after) = Ok p) ∧
  (before = [] → Forall (λ q, is_af q = false) after →
     prefer_alphaFold (p :: after) = Ok p) ∧
  prefer_alphaFold [] = Raise IndexError.
Proof.
  intros Hb. split; [|split].
  - intros Hp. unfold prefer_alphaFold. by rewrite find_first.
  - intros _ Ha. unfold prefer_alphaFold. cbn [find].
    destruct (is_af p) eqn:E; [done|].
    by apply find_none_forall in Ha as ->.
  - done.
Qed.

Lemma prefer_alphaFold_first_witness :
  let before := ["d/NP_1__SWM-1.pdb"; "d/NP_1__x.pdb"] in
  let after := ["d/NP_1__AF-Q2.pdb"] in
  let p := "d/NP_1__AF-Q1.pdb" in
  Forall (λ q, is_af q = false) before ∧ is_af p = true ∧
  prefer_alphaFold (before ++ p :: after) = Ok p.
Proof.
  assert (Forall (λ q, is_af q = false) ["d/NP_1__SWM-1.pdb"; "d/NP_1__x.pdb"])
    as H by (repeat constructor).
  split; [exact H|]. split; [reflexivity|].
  apply (proj1 (prefer_alphaFold_first ["d/NP_1__SWM-1.pdb"; "d/NP_1__x.pdb"]
                  ["d/NP_1__AF-Q2.pdb"] "d/NP_1__AF-Q1.pdb" H)).
  reflexivity.
Defined.

Lemma prefer_alphaFold_nonempty (paths : list string) :
  paths ≠ [] →
  ∃ p, prefer_alphaFold paths = Ok p ∧ p ∈ paths ∧
       is_af p = existsb is_af paths.
Proof.
  intros Hne. unfold prefer_alphaFold.
  destruct (find is_af paths) as [p|] eqn:E.
  - apply find_some in E as [Hin Hp]. exists p. split; [done|].
    split; [by apply list_elem_of_In|].
    rewrite Hp. symmetry. apply existsb_exists. eauto.
  - destruct paths as [|p rest]; [done|]. exists p. cbn [head or_raise].
    split; [done|]. split; [by left|].
    apply find_none_forall in E.
    assert (existsb is_af (p :: rest) = false) as ->.
    { clear Hne. induction E as [|x l Hx _ IH]; [done|].
      cbn [existsb]. by rewrite Hx. }
    by inversion E.
Qed.

End Choice.

(** ** The groups *)

Section Groups.
Import dssp_batch_summary.

Lemma group_step_key (g : gmap string (list string)) (p : string) :
  group_step g p = <[entity_key p := default [] (g !! entity_key p) ++ [p]]> g.
Proof. reflexivity. Qed.

Lemma fold_group_lookup (pdb_files : list string)
    (g : gmap string (list string)) (k : string) :
  fold_left group_step pdb_files g !! k =
  match paths_of_key k pdb_files with
  | [] => g !! k
  | l => Some (default [] (g !! k) ++ l)
  end.
Proof.
  revert g. induction pdb_files as [|p ps IH]; intros g; [done|].
  cbn [fold_left]. rewrite IH, group_step_key.
  unfold paths_of_key. cbn [List.filter].
  case_bool_decide as Hk.
  - subst k. rewrite lookup_insert_eq.
    destruct (List.filter _ ps) as [|q qs]; [done|].
    simpl. by rewrite <- app_assoc.
  - rewrite lookup_insert_ne by done. done.
Qed.

(** The groups of [main]: the group of an accession holds the paths of
    its files, in the order of the list, and an accession without a file
    has no group. *)
Theorem group_by_refseq_lookup (pdb_files : list string) (k : string) :
  group_by_refseq pdb_files !! k =
  match paths_of_key k pdb_files with
  | [] => None
  | l => Some l
  end.
Proof.
  unfold group_by_refseq. rewrite fold_group_lookup, lookup_empty.
  by destruct (paths_of_key k pdb_files).
Qed.

Lemma group_nonempty (pdb_files : list string) (k : string) (l : list string) :
  group_by_refseq pdb_files !! k = Some l →
  l = paths_of_key k pdb_files ∧ l ≠ [].
Proof.
  unfold group_by_refseq. rewrite fold_group_lookup, lookup_empty.
  destruct (paths_of_key k pdb_files); [done|]. by intros [= <-].
Qed.

Lemma sorted_items_elem (g : gmap string (list string)) (k : string)
    (l : list string) :
  (k, l) ∈ sorted_items g ↔ g !! k = Some l.
Proof.
  unfold sorted_items. rewrite merge_sort_Permutation.
  apply elem_of_map_to_list.
Qed.

Lemma sorted_items_keys (g : gmap string (list string)) :
  StronglySorted String.le (map fst (sorted_items g)) ∧
  NoDup (map fst (sorted_items g)).
Proof.
  split.
  - apply (StronglySorted_fmap fst key_le String.le); [done|].
    apply (StronglySorted_merge_sort key_le).
  - unfold sorted_items.
    rewrite (merge_sort_Permutation (λ a b, String.le a.1 b.1) (map_to_list g)).
    apply NoDup_fst_map_to_list.
Qed.

End Groups.
(** ** The loop of [main] over the groups *)

Section MainLoop.
Import dssp_batch_summary.

Lemma summarize_counts (dssp_path : string) (st : counts) (m : metrics) :
  summarize dssp_path st = Ok m →
  m_n_total m = n_total st ∧ m_n_helix m = n_helix st ∧
  m_n_sheet m = n_sheet st ∧ m_n_coil m = n_coil st ∧ n_total st ≠ 0.
Proof.
  unfold summarize. destruct (n_total st =? 0) eqn:E; [done|].
  destruct (int_truediv (n_helix st) _); [|done].
  destruct (int_truediv (n_sheet st) _); [|done].
  destruct (int_truediv (n_coil st) _); [|done]. cbn [bind or_raise].
  destruct (match asas st with [] => _ | _ => _ end); [|done].
  cbn [bind]. intros [= <-]. simpl. repeat split; lia.
Qed.

Lemma parse_dssp_counts_sound (open_text : string → option (list string))
    (dssp_path : string) (m : metrics) :
  parse_dssp_counts open_text dssp_path = Ok m →
  0 < m_n_total m ∧ m_n_helix m + m_n_sheet m + m_n_coil m = m_n_total m.
Proof.
  unfold parse_dssp_counts. destruct (open_text dssp_path) as [lines|]; [|done].
  intros (-> & -> & -> & -> & Hn)%summarize_counts.
  destruct (scan_ok lines) as (Hh & Hs & Hc & Hsum & _). lia.
Qed.

(** What one turn of the loop yields for a group that has a path. *)
Lemma process_group_cases (w : world) (ref2abbr abbr2status : gmap string string)
    (clean_dir dssp_dir refseq : string) (paths : list string) :
  paths ≠ [] →
  match process_group w ref2abbr abbr2status clean_dir dssp_dir
          (refseq, paths) with
  | Ok (Some rec, _) => record_of_group ref2abbr abbr2status (refseq, paths) rec
  | Ok (None, log) =>
      ∃ msg, last log = Some msg ∧ startswith "Skipping (" msg = true
  | Raise e =>
      ∃ chosen,
        prefer_alphaFold paths = Ok chosen ∧
        clean_pdb_exn w chosen (clean_path_of clean_dir chosen) = None ∧
        path_exists w (dssp_path_of dssp_dir chosen) = false ∧
        run_mkdssp w (clean_path_of clean_dir chosen)
          (dssp_path_of dssp_dir chosen) = Raise e
  end.
Proof.
  intros Hne.
  destruct (prefer_alphaFold_nonempty paths Hne) as (chosen & Hch & _ & Haf).
  unfold process_group. rewrite Hch. cbn [bind].
  fold (dssp_path_of dssp_dir chosen). fold (clean_path_of clean_dir chosen).
  destruct (clean_pdb_exn w chosen _) as [e|] eqn:Hclean.
  { eexists. split; [done|]. reflexivity. }
  destruct (path_exists w _) eqn:Hex.
  2: destruct (run_mkdssp w _ _) as [[[] mklog]|e] eqn:Hmk.
  all: cbn [bind negb].
  4: by exists chosen.
  3: { eexists. rewrite last_snoc. split; [done|]. reflexivity. }
  all: destruct (parse_dssp_counts _ _) as [m|e] eqn:Hm.
  all: try (eexists; rewrite last_snoc; split; [done|]; reflexivity).
  all: unfold record_of_group;
    cbn [RefSeq r_metrics abbr status source fst snd];
    destruct (parse_dssp_counts_sound _ _ _ Hm) as [Hpos Hpart];
    repeat split; try done; fold (is_af chosen); by rewrite Haf.
Qed.

(** One turn of the loop, for a group that has a path: it yields a
    record, or it yields none and the last line it logs says why the
    group is skipped, or it raises, and then with the exception that
    left [run_mkdssp], called after the cleaning for a table that does
    not exist yet.  Neither the choice of the file, nor the cleaning,
    nor the parse makes it raise. *)
Theorem process_group_never_silent (w : world)
    (ref2abbr abbr2status : gmap string string)
    (clean_dir dssp_dir refseq : string) (paths : list string) :
  paths ≠ [] →
  (∃ rec log,
     process_group w ref2abbr abbr2status clean_dir dssp_dir (refseq, paths)
       = Ok (Some rec, log)) ∨
  (∃ log msg,
     process_group w ref2abbr abbr2status clean_dir dssp_dir (refseq, paths)
       = Ok (None, log) ∧
     last log = Some msg ∧ startswith "Skipping (" msg = true) ∨
  (∃ e chosen,
     process_group w ref2abbr abbr2status clean_dir dssp_dir (refseq, paths)
       = Raise e ∧
     prefer_alphaFold paths = Ok chosen ∧
     clean_pdb_exn w chosen (clean_path_of clean_dir chosen) = None ∧
     path_exists w (dssp_path_of dssp_dir chosen) = false ∧
     run_mkdssp w (clean_path_of clean_dir chosen)
       (dssp_path_of dssp_dir chosen) = Raise e).
Proof.
  intros Hne.
  pose proof (process_group_cases w ref2abbr abbr2status clean_dir dssp_dir
                refseq paths Hne) as H.
  destruct (process_group _ _ _ _ _ _) as [[[rec|] log]|e].
  - left. eauto.
  - right. left. destruct H as (msg & H1 & H2). eauto.
  - right. right. destruct H as (chosen & H). eauto.
Qed.

Lemma process_group_never_silent_witness :
  ["pdb/NP_1__SWM.pdb"] ≠ [] ∧
  ((∃ rec log,
     process_group header_only_world ∅ ∅ "out/clean" "out"
       ("NP_1", ["pdb/NP_1__SWM.pdb"]) = Ok (Some rec, log)) ∨
   (∃ log msg,
     process_group header_only_world ∅ ∅ "out/clean" "out"
       ("NP_1", ["pdb/NP_1__SWM.pdb"]) = Ok (None, log) ∧
     last log = Some msg ∧ startswith "Skipping (" msg = true) ∨
   (∃ e chosen,
     process_group header_only_world ∅ ∅ "out/clean" "out"
       ("NP_1", ["pdb/NP_1__SWM.pdb"]) = Raise e ∧
     prefer_alphaFold ["pdb/NP_1__SWM.pdb"] = Ok chosen ∧
     clean_pdb_exn header_only_world chosen (clean_path_of "out/clean" chosen)
       = None ∧
     path_exists header_only_world (dssp_path_of "out" chosen) = false ∧
     run_mkdssp header_only_world (clean_path_of "out/clean" chosen)
       (dssp_path_of "out" chosen) = Raise e)).
Proof.
  assert (["pdb/NP_1__SWM.pdb"] ≠ []) as H by discriminate.
  split; [exact H|].
  apply (process_group_never_silent header_only_world ∅ ∅ "out/clean" "out"
           "NP_1" ["pdb/NP_1__SWM.pdb"] H).
Defined.

(** The loop over groups that have a path each: it ends with records
    for some of the groups, in their order, or with an exception that
    left [run_mkdssp]. *)
Lemma main_loop_sound (w : world) (ref2abbr abbr2status : gmap string string)
    (clean_dir dssp_dir : string) (groups : list (string * list string))
    (records : list record) (log : list string) :
  Forall (λ g, g.2 ≠ []) groups →
  match main_loop w ref2abbr abbr2status clean_dir dssp_dir groups
          records log with
  | Ok (table, lg) =>
      ∃ new log',
        table = records ++ new ∧ lg = log ++ log' ∧
        loop_sound ref2abbr abbr2status groups new
  | Raise e => ∃ cin cout, run_mkdssp w cin cout = Raise e
  end.
Proof.
  intros Hne. revert records log.
  induction Hne as [|[refseq paths] gs Hg _ IH]; intros records log.
  - exists [], []. rewrite !app_nil_r. split; [done|]. split; [done|].
    split; [constructor|constructor].
  - cbn [snd] in Hg.
    pose proof (process_group_cases w ref2abbr abbr2status clean_dir dssp_dir
                  refseq paths Hg) as H.
    cbn [main_loop].
    destruct (process_group _ _ _ _ _ _) as [[out lg]|e]; cbn [bind fst snd].
    2: { destruct H as (chosen & _ & _ & _ & H). eauto. }
    specialize (IH (records ++ option_list out) (log ++ lg)).
    destruct (main_loop _ _ _ _ _ _ _ _) as [[table lg']|e]; [|exact IH].
    destruct IH as (new & log' & -> & -> & Hsub & Hall).
    exists (option_list out ++ new), (lg ++ log').
    rewrite !app_assoc. split; [done|]. split; [done|].
    assert (Forall (λ rec, ∃ g, g ∈ (refseq, paths) :: gs
                            ∧ record_of_group ref2abbr abbr2status g rec) new)
      as Hall'.
    { eapply Forall_impl; [exact Hall|]. intros rec (g & Hin & Hrest).
      exists g. split; [by right|exact Hrest]. }
    destruct out as [rec|]; cbn [option_list app map fst].
    + split.
      * destruct H as (Hk & _). cbn [fst] in Hk. simpl. rewrite Hk.
        by apply sublist_skip.
      * constructor; [|exact Hall']. exists (refseq, paths).
        split; [by left|exact H].
    + split; [simpl; by apply sublist_cons|exact Hall'].
Qed.

End MainLoop.
(** ** A run of [main] *)

Section MainRun.
Import dssp_batch_summary.

Lemma sublist_StronglySorted {A} (R : relation A) (l1 l2 : list A) :
  l1 `sublist_of` l2 → StronglySorted R l2 → StronglySorted R l1.
Proof.
  induction 1 as [|x l1 l2 Hsub IH|x l1 l2 Hsub IH]; intros Hs.
  - constructor.
  - apply StronglySorted_inv in Hs as [Hs Hall]. constructor; [by apply IH|].
    apply Forall_forall. intros y Hy. rewrite Forall_forall in Hall.
    apply Hall. by eapply sublist_subseteq.
  - apply StronglySorted_inv in Hs as [Hs _]. by apply IH.
Qed.

Lemma groups_nonempty (pdb_files : list string) :
  Forall (λ g, g.2 ≠ []) (sorted_items (group_by_refseq pdb_files)).
Proof.
  apply Forall_forall. intros [k l] Hin.
  apply sorted_items_elem, group_nonempty in Hin as [_ Hne]. exact Hne.
Qed.

Lemma main_loop_of_files (w : world) (ref2abbr abbr2status : gmap string string)
    (clean_dir dssp_dir : string) (pdb_files : list string) (log0 : list string) :
  match main_loop w ref2abbr abbr2status clean_dir dssp_dir
          (sorted_items (group_by_refseq pdb_files)) [] log0 with
  | Ok (table, log) =>
      Forall (record_sound ref2abbr abbr2status pdb_files) table ∧
      StronglySorted String.le (map RefSeq table) ∧
      NoDup (map RefSeq table)
  | Raise e => ∃ cin cout, run_mkdssp w cin cout = Raise e
  end.
Proof.
  pose proof (main_loop_sound w ref2abbr abbr2status clean_dir dssp_dir _ []
                log0 (groups_nonempty pdb_files)) as H.
  destruct (main_loop _ _ _ _ _ _ _ _) as [[table log]|e]; [|exact H].
  destruct H as (new & log' & -> & _ & Hsub & Hall). cbn [app].
  destruct (sorted_items_keys (group_by_refseq pdb_files)) as [Hsorted Hnodup].
  split; [|split].
  - eapply Forall_impl; [exact Hall|]. intros rec ([k l] & Hin & Hrec).
    apply sorted_items_elem, group_nonempty in Hin as [-> Hne].
    destruct Hrec as (Hk & Hpos & Hpart & Ha & Hs & Hsrc). cbn [fst snd] in *.
    unfold record_sound. rewrite Hk. done.
  - by eapply sublist_StronglySorted.
  - by eapply sublist_NoDup.
Qed.

(** The loop and the table, from the files. *)
Lemma main_body_cases (w : world) (ref2abbr abbr2status : gmap string string)
    (clean_dir dssp_dir : string) (pdb_files log0 : list string) :
  match main_body w ref2abbr abbr2status clean_dir dssp_dir pdb_files log0 with
  | Exit code _ => code = 3
  | Wrote table _ =>
      write_table_exn w = None ∧
      table ≠ [] ∧
      Forall (record_sound ref2abbr abbr2status pdb_files) table ∧
      StronglySorted String.le (map RefSeq table) ∧
      NoDup (map RefSeq table)
  | Crash e =>
      (∃ cin cout, run_mkdssp w cin cout = Raise e) ∨ write_table_exn w = Some e
  end.
Proof.
  unfold main_body.
  pose proof (main_loop_of_files w ref2abbr abbr2status clean_dir dssp_dir
                pdb_files log0) as H.
  destruct (main_loop _ _ _ _ _ _ _ _) as [[[|r rs] log]|e];
    [done| |by left].
  destruct (write_table_exn w) as [e|] eqn:Hw; [by right|]. done.
Qed.

(** A run of [main] that writes a table writes at least one record; every
    record has a positive [n_total] split into its three buckets, belongs
    to an accession that has a file, carries the abbreviation and status
    joined to that accession, and the source [AF] exactly when a file of
    the accession is marked; the accessions of the table increase, none
    twice. *)
Theorem main_table_sound (w : world) (abbr2status : gmap string string)
    (map_lines pdb_files : list string) (pdb_dir dssp_dir : string)
    (table : list record) (log : list string) :
  main w (Some abbr2status) (Some map_lines) pdb_files pdb_dir dssp_dir
    = Wrote table log →
  table ≠ [] ∧
  Forall (record_sound (load_refseq_to_abbr map_lines) abbr2status pdb_files)
    table ∧
  StronglySorted String.le (map RefSeq table) ∧
  NoDup (map RefSeq table).
Proof.
  unfold main.
  destruct (ensure_dir_exn w dssp_dir); [done|].
  destruct (ensure_dir_exn w (path_join dssp_dir "clean")); [done|].
  destruct (load_map_exn w); [done|].
  destruct pdb_files as [|p ps]; [done|].
  set (log0 := if decide _ then _ else _).
  pose proof (main_body_cases w (load_refseq_to_abbr map_lines) abbr2status
                (path_join dssp_dir "clean") dssp_dir (p :: ps) log0) as H.
  destruct (main_body _ _ _ _ _ _ _) as [| |tb lg]; [done..|].
  intros [= <- <-]. by destruct H as (_ & ? & ? & ? & ?).
Qed.

Lemma main_table_sound_witness :
  ∃ table log,
    main demo_world (Some demo_key) (Some demo_map_lines) demo_pdb_files
      "pdb" "out" = Wrote table log ∧
    table ≠ [] ∧
    Forall (record_sound (load_refseq_to_abbr demo_map_lines) demo_key
              demo_pdb_files) table ∧
    StronglySorted String.le (map RefSeq table) ∧
    NoDup (map RefSeq table).
Proof.
  eexists _, _. split; [vm_compute; reflexivity|].
  eapply (main_table_sound demo_world demo_key demo_map_lines demo_pdb_files
            "pdb" "out").
  vm_compute. reflexivity.
Defined.

(** How a run of [main] ends: with the exit status 1, 2 or 3, with a
    table of one record or more, or with an exception.  An exception
    that ends the run has left [ensure_dir] for the directory of the
    tables or its subdirectory [clean], the read of the mapping file,
    [run_mkdssp], or the writing of the table; the choice among the
    files of a group, the cleaning and the parse end no run.  Where
    those four steps raise nothing, the run ends with an exit status or
    a table. *)
Theorem main_outcomes (w : world) (species_key : option (gmap string string))
    (refseq_map : option (list string)) (pdb_files : list string)
    (pdb_dir dssp_dir : string) :
  match main w species_key refseq_map pdb_files pdb_dir dssp_dir with
  | Exit code _ => code = 1 ∨ code = 2 ∨ code = 3
  | Wrote table _ => table ≠ []
  | Crash e =>
      ensure_dir_exn w dssp_dir = Some e ∨
      ensure_dir_exn w (path_join dssp_dir "clean") = Some e ∨
      load_map_exn w = Some e ∨
      (∃ cin cout, run_mkdssp w cin cout = Raise e) ∨
      write_table_exn w = Some e
  end ∧
  ((∀ d, ensure_dir_exn w d = None) → load_map_exn w = None →
   (∀ cin cout, ∃ r, run_mkdssp w cin cout = Ok r) →
   write_table_exn w = None →
   ∀ e, main w species_key refseq_map pdb_files pdb_dir dssp_dir ≠ Crash e).
Proof.
  assert (match main w species_key refseq_map pdb_files pdb_dir dssp_dir with
          | Exit code _ => code = 1 ∨ code = 2 ∨ code = 3
          | Wrote table _ => table ≠ []
          | Crash e =>
              ensure_dir_exn w dssp_dir = Some e ∨
              ensure_dir_exn w (path_join dssp_dir "clean") = Some e ∨
              load_map_exn w = Some e ∨
              (∃ cin cout, run_mkdssp w cin cout = Raise e) ∨
              write_table_exn w = Some e
          end) as H.
  { unfold main.
    destruct (ensure_dir_exn w dssp_dir) eqn:E1; [by left|].
    destruct (ensure_dir_exn w (path_join dssp_dir "clean")) eqn:E2;
      [by right; left|].
    destruct species_key as [abbr2status|]; [|by right; left].
    destruct refseq_map as [map_lines|]; [|by right; left].
    destruct (load_map_exn w) eqn:E3; [by right; right; left|].
    destruct pdb_files as [|p ps]; [by left|].
    set (log0 := if decide _ then _ else _).
    pose proof (main_body_cases w (load_refseq_to_abbr map_lines) abbr2status
                  (path_join dssp_dir "clean") dssp_dir (p :: ps) log0) as H.
    destruct (main_body _ _ _ _ _ _ _) as [code lg|e|tb lg].
    - by right; right.
    - destruct H as [H|H]; [right; right; right; by left|by do 4 right].
    - by destruct H as (_ & ? & _). }
  split; [exact H|]. intros Hdir Hmap Hrun Hwrite e E. rewrite E in H.
  destruct H as [H|[H|[H|[(cin & cout & H)|H]]]].
  - by rewrite Hdir in H.
  - by rewrite Hdir in H.
  - by rewrite Hmap in H.
  - destruct (Hrun cin cout) as [r Hr]. by rewrite Hr in H.
  - by rewrite Hwrite in H.
Qed.

Lemma main_outcomes_witness :
  ((∀ d, ensure_dir_exn demo_world d = None) ∧
   load_map_exn demo_world = None ∧
   (∀ cin cout, ∃ r, run_mkdssp demo_world cin cout = Ok r) ∧
   write_table_exn demo_world = None) ∧
  ∀ e, main demo_world (Some demo_key) (Some demo_map_lines) demo_pdb_files
         "pdb" "out" ≠ Crash e.
Proof.
  assert (∀ d, ensure_dir_exn demo_world d = None) as H1 by reflexivity.
  assert (load_map_exn demo_world = None) as H2 by reflexivity.
  assert (∀ cin cout, ∃ r, run_mkdssp demo_world cin cout = Ok r) as H3
    by (intros; eexists; reflexivity).
  assert (write_table_exn demo_world = None) as H4 by reflexivity.
  split; [done|].
  pose proof (main_outcomes demo_world (Some demo_key)
                (Some demo_map_lines) demo_pdb_files "pdb" "out") as H.
  destruct H as [_ H]. exact (H H1 H2 H3 H4).
Defined.

End MainRun.
(** ** Keys and lines *)

Section KeysAndLines.

Lemma prefix_inv (p s : string) :
  String.prefix p s = true → ∃ v, s = p +:+ v.
Proof.
  revert s. induction p as [|c p IH]; intros s H.
  - by exists s.
  - destruct s as [|d s]; [done|]. cbn [String.prefix] in H.
    destruct (ascii_dec c d) as [->|]; [|done].
    destruct (IH s H) as [v ->]. by exists v.
Qed.

Lemma prefix_app (p v : string) : String.prefix p (p +:+ v) = true.
Proof.
  induction p as [|c p IH]; [by destruct v|].
  rewrite append_cons. cbn [String.prefix]. by destruct (ascii_dec c c).
Qed.

Lemma prefix_app_r (p x y : string) :
  String.prefix p x = true → String.prefix p (x +:+ y) = true.
Proof.
  intros [v ->]%prefix_inv. rewrite append_assoc. apply prefix_app.
Qed.

Lemma partition_before (sep s a b : string) :
  partition sep s = Some (a, b) → ∃ rest, s = a +:+ rest.
Proof.
  revert a b. induction s as [|c s IH]; intros a b; cbn [partition].
  - destruct (String.prefix sep ""); [|done]. intros [= <- _]. by exists "".
  - destruct (String.prefix sep (String c s)).
    + intros [= <- _]. by eexists.
    + destruct (partition sep s) as [[a' b']|]; [|done].
      intros [= <- <-]. destruct (IH a' b' eq_refl) as [rest ->].
      by exists rest.
Qed.

Lemma partition_none (sep s : string) :
  partition sep s = None → contains sep s = false.
Proof.
  induction s as [|c s IH]; cbn [partition contains].
  - by destruct (String.prefix sep "").
  - destruct (String.prefix sep (String c s)); [done|].
    destruct (partition sep s) as [[a b]|]; [done|]. intros _. by rewrite IH.
Qed.

Lemma partition_before_clean (sep s a b : string) :
  sep ≠ "" → partition sep s = Some (a, b) → contains sep a = false.
Proof.
  intros Hsep. revert a b. induction s as [|c s IH]; intros a b; cbn [partition].
  - destruct sep; [done|]. done.
  - destruct (String.prefix sep (String c s)) eqn:Ep.
    + intros [= <- _]. by destruct sep.
    + destruct (partition sep s) as [[a' b']|] eqn:E; [|done].
      intros [= <- <-]. cbn [contains]. rewrite (IH a' b' eq_refl).
      destruct (partition_before _ _ _ _ E) as [rest ->].
      destruct (String.prefix sep (String c a')) eqn:Ea; [|done].
      apply (prefix_app_r _ _ rest) in Ea. rewrite append_cons in Ea. congruence.
Qed.

(** The accession of a file holds no [__]; it begins the file name, and
    is the whole name where the name holds no [__]. *)
Theorem entity_key_no_delimiter (path : string) :
  contains "__" (entity_key path) = false ∧
  String.prefix (entity_key path) (basename path) = true ∧
  (contains "__" (basename path) = false → entity_key path = basename path).
Proof.
  unfold entity_key, split_head.
  destruct (partition "__" (basename path)) as [[a b]|] eqn:E.
  - split; [by eapply partition_before_clean|].
    destruct (partition_before _ _ _ _ E) as [rest Hr]. split.
    + rewrite Hr. apply prefix_app.
    + intros Hc. exfalso. clear Hr. revert a b E.
      induction (basename path) as [|c s IH]; intros a b;
        cbn [partition contains] in *.
      * done.
      * apply orb_false_elim in Hc as [-> Hc].
        destruct (partition "__" s) as [[a' b']|]; [|done].
        intros _. by eapply IH.
  - split; [by apply partition_none|]. split; [|done].
    rewrite <- (append_nil_r (basename path)) at 2. apply prefix_app.
Qed.



End KeysAndLines.
(** ** The mapping grows; the labelled table *)

Section Labels.
Import label_and_plot_net_charges.

(** Lines added to the end of the mapping file change no abbreviation
    that the lines before them give: both loaders keep it. *)
Theorem mapping_append_keeps (map_path : string) (l1 l2 : list string)
    (refseq abbr : string) :
  dssp_batch_summary.load_refseq_to_abbr l1 !! refseq = Some abbr →
  dssp_batch_summary.load_refseq_to_abbr (l1 ++ l2) !! refseq = Some abbr ∧
  ∃ m, build_refseq_to_abbr map_path (l1 ++ l2) = Ok m ∧
       m !! refseq = Some abbr.
Proof.
  rewrite !load_lookup. intros H1.
  assert (dssp_batch_summary.load_refseq_to_abbr (l1 ++ l2) !! refseq
          = Some abbr) as H by by rewrite load_lookup, first_abbr_app, H1.
  split; [by rewrite <- load_lookup|].
  rewrite build_is_load. case_decide as He.
  - exfalso. by rewrite He, lookup_empty in H.
  - by eexists.
Qed.

Lemma mapping_append_keeps_witness :
  dssp_batch_summary.load_refseq_to_abbr demo_map_lines !! "NP_000001"
    = Some "ABC" ∧
  dssp_batch_summary.load_refseq_to_abbr
    (demo_map_lines ++ ["XYZ|NP_000001|geneX"]) !! "NP_000001" = Some "ABC".
Proof.
  assert (dssp_batch_summary.load_refseq_to_abbr demo_map_lines !! "NP_000001"
          = Some "ABC") as H by (vm_compute; reflexivity).
  split; [exact H|].
  apply (mapping_append_keeps "map.out" demo_map_lines ["XYZ|NP_000001|geneX"]
           "NP_000001" "ABC" H).
Defined.

(** [build_refseq_to_abbr] raises exactly when no line of the file gives
    a pair: every line is blank, a comment, or without a second field. *)
Theorem build_refseq_to_abbr_raises_iff (map_path : string)
    (lines : list string) :
  build_refseq_to_abbr map_path lines
    = Raise (RuntimeError ("No RefSeq->Abbr mappings parsed from " +:+ map_path))
  ↔ Forall (λ l, map_entry l = None) lines.
Proof.
  rewrite build_is_load. split.
  - case_decide as He; [|done]. intros _.
    assert (∀ k, first_abbr k lines = None) as Hk.
    { intros k. by rewrite <- load_lookup, He, lookup_empty. }
    clear He. induction lines as [|l ls IH]; [constructor|].
    destruct (map_entry l) as [[k v]|] eqn:E.
    + specialize (Hk k). cbn [first_abbr] in Hk. rewrite E in Hk.
      by rewrite decide_True in Hk.
    + constructor; [done|]. apply IH. intros k. specialize (Hk k).
      cbn [first_abbr] in Hk. by rewrite E in Hk.
  - intros Hall.
    assert (dssp_batch_summary.load_refseq_to_abbr lines = ∅) as ->.
    { apply map_eq. intros k. rewrite load_lookup, lookup_empty.
      induction Hall as [|l ls Hl _ IH]; [done|]. cbn [first_abbr].
      by rewrite Hl. }
    by rewrite decide_True.
Qed.




End Labels.
(** ** Sums of charges *)

Section Sums.
Import sum_pqr_chargesv3.

Lemma length_omap_le {A B} (f : A → option B) (l : list A) :
  (length (omap f l) <= length l)%nat.
Proof.
  induction l as [|x l IH]; [done|]. cbn [omap list_omap].
  destruct (f x); simpl; lia.
Qed.

Lemma sum_charge_lines_omap (lines : list string) :
  sum_charge_lines lines =
  (Z.of_nat (length (omap tolerant_charge lines)),
   fold_left fadd (omap tolerant_charge lines) zero).
Proof. unfold sum_charge_lines. by rewrite fold_charge_step. Qed.

(** The count of atoms adds up over the parts of a file, lies between
    zero and the number of lines, and the sum of a file continues from
    the sum of its first part; a text without a record line counts no
    atom and sums to [0.0]. *)
Theorem sum_charge_lines_app (l1 l2 : list string) :
  (sum_charge_lines (l1 ++ l2)).1
    = (sum_charge_lines l1).1 + (sum_charge_lines l2).1 ∧
  (sum_charge_lines (l1 ++ l2)).2
    = fold_left fadd (omap tolerant_charge l2) (sum_charge_lines l1).2 ∧
  0 <= (sum_charge_lines l1).1 <= Z.of_nat (length l1) ∧
  (Forall (λ l, is_pqr_line l = false) l1 → sum_charge_lines l1 = (0, zero)).
Proof.
  rewrite !sum_charge_lines_omap, omap_app, length_app, fold_left_app.
  cbn [fst snd]. split; [lia|]. split; [done|]. split.
  - pose proof (length_omap_le tolerant_charge l1). lia.
  - intros Hall. assert (omap tolerant_charge l1 = []) as ->; [|done].
    induction Hall as [|l ls Hl _ IH]; [done|]. cbn [omap list_omap].
    unfold tolerant_charge at 1. by rewrite Hl.
Qed.

Lemma sum_charge_lines_app_witness :
  Forall (λ l, is_pqr_line l = false) ["REMARK  1"; "TER"] ∧
  sum_charge_lines ["REMARK  1"; "TER"] = (0, zero).
Proof.
  assert (Forall (λ l, is_pqr_line l = false) ["REMARK  1"; "TER"]) as H
    by (repeat constructor).
  split; [exact H|].
  apply (proj2 (proj2 (proj2 (sum_charge_lines_app ["REMARK  1"; "TER"] []))) H).
Defined.

Lemma main_step_escape (a : args) (p : string) (lines : list string)
    (e : exn) (acc : (Z * float) * (list (list string) * list message)) :
  main_step a acc (p, Read lines (Escapes e)) = Raise e.
Proof. by destruct acc as [[ga gc] [rs log]]. Qed.

Lemma main_loop_escape (a : args) (pre post : list (string * read))
    (p : string) (lines : list string) (e : exn)
    (acc : (Z * float) * (list (list string) * list message)) :
  pre = [] ∨ 0 <= digits a <= INT_MAX →
  Forall (λ f, caught f.2) pre →
  main_loop a (pre ++ (p, Read lines (Escapes e)) :: post) acc = Raise e.
Proof.
  intros Hd Hall. revert acc.
  induction Hall as [|[q file] fs Hc _ IH]; intros acc.
  - cbn [app main_loop]. by rewrite main_step_escape.
  - destruct Hd as [|Hd]; [done|].
    destruct (main_loop_ok a [(q, file)] acc Hd) as [log E].
    { by constructor. }
    cbn [main_loop bind] in E. cbn [app main_loop].
    destruct (main_step a acc (q, file)) as [acc'|]; [|done].
    cbn [bind]. apply IH. by right.
Qed.

Lemma main_loop_negative (a : args) (f : string * read)
    (fs : list (string * read))
    (acc : (Z * float) * (list (list string) * list message)) :
  digits a < 0 → caught f.2 →
  main_loop a (f :: fs) acc
  = Raise (ValueError "Format specifier missing precision").
Proof.
  intros Hd Hc. destruct f as [p file], acc as [[ga gc] [rs log]].
  cbn [main_loop main_step]. rewrite (sum_charge_for_file_caught p file Hc).
  cbn [bind]. destruct (file_sum file) as [atoms total].
  unfold format_digits. by assert ((digits a <? 0) = true) as -> by lia.
Qed.

(** A run of [sum_pqr_chargesv3.py] stops at once exactly when it has no
    input file.  It runs to its end exactly when, besides, the number of
    decimal places is one the format accepts and no read ends with an
    exception other than [OSError]: then it has written one row per file
    after the header, the name of the file and its formatted sum, and
    its last line on [stderr] gives the atoms of all files together and
    the float sum of their net charges, file after file.  With a
    negative number of decimal places the run ends with the
    [ValueError] of the format at the first file; with a read that ends
    with another exception, it ends with that exception. *)
Theorem v3_main_totals (a : args) (files : list (string * read)) :
  (main a files = None ↔ files = []) ∧
  (∀ out, main a files = Some (Ok out) →
     0 <= digits a <= INT_MAX ∧
     Forall (λ f, caught f.2) files ∧
     rows out
       = (if no_header a then [] else [["path"; "net_charge"]])
         ++ map (λ f, [basename f.1;
                       format_f (Z.to_nat (digits a)) (file_sum f.2).2])
              files ∧
     last (stderr out)
       = Some (Line ("TOTAL" +:+ TAB +:+ "atoms="
                     +:+ decimal (total_atoms (map (λ f, file_sum f.2) files))
                     +:+ TAB +:+ "net_charge="
                     +:+ format_f (Z.to_nat (digits a))
                           (fold_left fadd
                              (map (λ f, (file_sum f.2).2) files) zero)))) ∧
  (files ≠ [] → 0 <= digits a <= INT_MAX →
   Forall (λ f, caught f.2) files →
   ∃ out, main a files = Some (Ok out)) ∧
  (∀ f fs, files = f :: fs → digits a < 0 → caught f.2 →
   main a files
   = Some (Raise (ValueError "Format specifier missing precision"))) ∧
  (∀ pre p lines e post,
     files = pre ++ (p, Read lines (Escapes e)) :: post →
     pre = [] ∨ 0 <= digits a <= INT_MAX →
     Forall (λ f, caught f.2) pre →
     main a files = Some (Raise e)).
Proof.
  set (hdr := if no_header a then [] else [["path"; "net_charge"]]).
  assert (∀ r, files ≠ [] →
            main_loop a files ((0, zero), (hdr, [])) = Raise r →
            main a files = Some (Raise r)) as Hraise.
  { intros r Hne E. unfold main. fold hdr. rewrite E.
    by destruct files. }
  split; [|split; [|split; [|split]]].
  - unfold main. by destruct files.
  - intros out. unfold main. destruct files as [|f fs] eqn:Ef; [done|].
    rewrite <- Ef. fold hdr.
    destruct (main_loop a files _) as [[[ga gc] [rs log]]|] eqn:Eloop; [|done].
    destruct (main_loop_inv _ _ _ _ Eloop) as [Hall Hd].
    assert (files ≠ []) as Hne by by rewrite Ef.
    specialize (Hd Hne).
    destruct (main_loop_ok a files ((0, zero), (hdr, [])) Hd Hall) as [lg E].
    rewrite Eloop in E. cbn [fst snd] in E. injection E as -> -> -> ->.
    cbn [bind]. rewrite format_digits_ok by done. cbn [bind].
    intros [= <-]. cbn [rows stderr]. rewrite last_snoc, Z.add_0_l. done.
  - intros Hne Hd Hall. unfold main. fold hdr.
    destruct (main_loop_ok a files ((0, zero), (hdr, [])) Hd Hall) as [lg E].
    rewrite E. cbn [bind fst snd]. rewrite format_digits_ok by done.
    cbn [bind]. destruct files; [done|]. by eexists.
  - intros f fs -> Hd Hc. apply Hraise; [done|].
    by apply main_loop_negative.
  - intros pre p lines e post -> Hd Hall. apply Hraise.
    + by destruct pre.
    + by apply main_loop_escape.
Qed.

Lemma v3_main_totals_witness :
  let a := Args (FNum 1000) 3 false in
  (readable_v3 plain_files ≠ [] ∧ 0 <= digits a <= INT_MAX ∧
   Forall (λ f, caught f.2) (readable_v3 plain_files)) ∧
  ∃ out, main a (readable_v3 plain_files) = Some (Ok out).
Proof.
  assert (readable_v3 plain_files ≠ []) as H1 by discriminate.
  assert (0 <= digits (Args (FNum 1000) 3 false) <= INT_MAX) as H2
    by (vm_compute; split; discriminate).
  assert (Forall (λ f, caught f.2) (readable_v3 plain_files)) as H3
    by (repeat constructor; intros e; discriminate).
  split; [done|].
  pose proof (v3_main_totals (Args (FNum 1000) 3 false)
                (readable_v3 plain_files)) as H.
  destruct H as (_ & _ & H & _). exact (H H1 H2 H3).
Defined.

End Sums.
(** ** Fractions lie in the unit interval *)

Section UnitInterval.
Local Open Scope Q_scope.

Lemma round_half_even_le_int (y : Q) (N : Z) :
  y <= inject_Z N → (round_half_even y <= N)%Z.
Proof.
  intros Hy. unfold round_half_even.
  pose proof (Qfloor_le y) as Hlo.
  assert (Qfloor y <= N)%Z as Hf.
  { rewrite <- (Qfloor_Z N). by apply Qfloor_resp_le. }
  destruct (decide (Qfloor y = N)) as [E|Hne].
  - assert (y - inject_Z (Qfloor y) < 1 # 2) as Hlt by (rewrite E; lra).
    destruct (Qcompare_spec (y - inject_Z (Qfloor y)) (1 # 2)); [lra|lia|lra].
  - destruct (_ ?= _); [destruct (Z.even _)|..]; lia.
Qed.

Lemma round_b64_unit (x : Q) :
  0 <= x → x <= 1 → ∃ r, round_b64 x = FNum r ∧ 0 <= r ∧ r <= 1.
Proof.
  intros Hx0 Hx1. unfold round_b64.
  destruct (Qnum x) eqn:Hn.
  - exists 0. split; [done|]. split; lra.
  - assert (0 < x) as Hpos by (unfold Qlt; simpl; lia).
    assert (Qabs x = x) as Habs.
    { destruct x as [n d]; simpl in Hn; subst n; reflexivity. }
    rewrite Habs.
    assert ((Z.pos p <? 0)%Z = false) as -> by lia.
    set (e := ulp_exp x).
    assert (e <= -51)%Z as He.
    { unfold e, ulp_exp. assert (x < 4) as H4 by lra.
      pose proof (qlog2_lt4 x Hpos H4). lia. }
    destruct e as [|q|q] eqn:Ee; try lia.
    pose proof (pow2_pos (Z.neg q)) as Hp.
    set (y := x / pow2 (Z.neg q)).
    assert (0 <= y) as Hy by (unfold y; apply Qle_shift_div_l; [done|lra]).
    assert (y <= inject_Z (Z.pos (2 ^ q))) as HyN.
    { unfold y. apply Qle_shift_div_r; [done|].
      assert (inject_Z (Z.pos (2 ^ q)) * pow2 (Z.neg q) == 1) as ->; [|done].
      unfold pow2, Qeq, Qmult, inject_Z; simpl. lia. }
    pose proof (round_half_even_nonneg y Hy) as Hm0.
    pose proof (round_half_even_le_int y _ HyN) as HmN.
    set (m := round_half_even y) in *.
    assert (0 <= inject_Z m * pow2 (Z.neg q)) as Hr0.
    { apply Qmult_le_0_compat; [|lra]. change 0 with (inject_Z 0).
      by rewrite <- Zle_Qle. }
    assert (inject_Z m * pow2 (Z.neg q) <= 1) as Hr1.
    { unfold pow2, Qle, Qmult, inject_Z; simpl. lia. }
    destruct (Qle_bool (pow2 1024) (inject_Z m * pow2 (Z.neg q))) eqn:Hov.
    + exfalso. apply Qle_bool_iff in Hov.
      assert (pow2 1024 <= 1) as H5 by lra.
      revert H5. vm_compute. intros H5. by apply H5.
    + eexists. split; [done|]. rewrite Qred_correct. done.
  - exfalso. unfold Qle in Hx0; simpl in Hx0. lia.
Qed.

Lemma int_truediv_unit (k n : Z) :
  (0 <= k <= n)%Z → (0 < n)%Z →
  ∃ r, int_truediv k n = Some (FNum r) ∧ 0 <= r ∧ r <= 1.
Proof.
  intros Hk Hn. unfold int_truediv.
  assert ((n =? 0)%Z = false) as -> by lia.
  assert (0 < inject_Z n) as Hn'
    by (change 0 with (inject_Z 0); by rewrite <- Zlt_Qlt).
  assert (0 <= inject_Z k / inject_Z n) as H0.
  { apply Qle_shift_div_l; [done|]. rewrite Qmult_0_l.
    change 0 with (inject_Z 0). rewrite <- Zle_Qle. lia. }
  assert (inject_Z k / inject_Z n <= 1) as H1.
  { apply Qle_shift_div_r; [done|]. rewrite Qmult_1_l, <- Zle_Qle. lia. }
  destruct (round_b64_unit _ H0 H1) as (r & -> & Hr). by exists r.
Qed.

End UnitInterval.

Section Fractions01.
Import dssp_batch_summary.

Lemma summarize_fracs (dssp_path : string) (st : counts) (m : metrics) :
  summarize dssp_path st = Ok m →
  int_truediv (n_helix st) (n_total st) = Some (frac_helix m) ∧
  int_truediv (n_sheet st) (n_total st) = Some (frac_sheet m) ∧
  int_truediv (n_coil st) (n_total st) = Some (frac_coil m).
Proof.
  unfold summarize. destruct (n_total st =? 0) eqn:E; [done|].
  destruct (int_truediv (n_helix st) _); [|done].
  destruct (int_truediv (n_sheet st) _); [|done].
  destruct (int_truediv (n_coil st) _); [|done]. cbn [bind or_raise].
  destruct (match asas st with [] => _ | _ => _ end); [|done].
  cbn [bind]. by intros [= <-].
Qed.

(** Each of the three fractions of a returned record is a finite float
    between 0 and 1, and it is the correctly rounded quotient of its
    count by [n_total]. *)
Theorem fractions_in_unit_interval
    (open_text : string → option (list string)) (dssp_path : string)
    (m : metrics) :
  parse_dssp_counts open_text dssp_path = Ok m →
  int_truediv (m_n_helix m) (m_n_total m) = Some (frac_helix m) ∧
  int_truediv (m_n_sheet m) (m_n_total m) = Some (frac_sheet m) ∧
  int_truediv (m_n_coil m) (m_n_total m) = Some (frac_coil m) ∧
  ∃ fh fs fc,
    frac_helix m = FNum fh ∧ frac_sheet m = FNum fs ∧ frac_coil m = FNum fc ∧
    (0 <= fh <= 1)%Q ∧ (0 <= fs <= 1)%Q ∧ (0 <= fc <= 1)%Q.
Proof.
  unfold parse_dssp_counts. destruct (open_text dssp_path) as [lines|]; [|done].
  intros Hm.
  destruct (summarize_counts _ _ _ Hm) as (En & Eh & Es & Ec & Hn).
  destruct (summarize_fracs _ _ _ Hm) as (Fh & Fs & Fc).
  destruct (scan_ok lines) as (Hh & Hs & Hc & Hsum & _).
  rewrite En, Eh, Es, Ec. do 3 (split; [done|]).
  destruct (int_truediv_unit (n_helix (scan lines)) (n_total (scan lines)))
    as (fh & Gh & Bh); [lia..|].
  destruct (int_truediv_unit (n_sheet (scan lines)) (n_total (scan lines)))
    as (fs & Gs & Bs); [lia..|].
  destruct (int_truediv_unit (n_coil (scan lines)) (n_total (scan lines)))
    as (fc & Gc & Bc); [lia..|].
  exists fh, fs, fc. rewrite Fh in Gh. rewrite Fs in Gs. rewrite Fc in Gc.
  injection Gh as ->. injection Gs as ->. injection Gc as ->. done.
Qed.

Lemma fractions_in_unit_interval_witness :
  ∃ m, parse_dssp_counts (λ _, Some demo_table) "x.dssp" = Ok m ∧
       int_truediv (m_n_helix m) (m_n_total m) = Some (frac_helix m).
Proof.
  eexists. split; [vm_compute; reflexivity|].
  apply (fractions_in_unit_interval (λ _, Some demo_table) "x.dssp").
  vm_compute. reflexivity.
Defined.

End Fractions01.
(** ** Cleaning a structure file *)

Section Clean.
Import dssp_batch_summary.

Lemma filter_filter_imp {A} (f g : A → bool) (l : list A) :
  (∀ x, g x = true → f x = true) →
  List.filter g (List.filter f l) = List.filter g l.
Proof.
  intros Himp. induction l as [|x l IH]; [done|]. cbn [List.filter].
  destruct (f x) eqn:Ef; cbn [List.filter]; rewrite IH; [done|].
  destruct (g x) eqn:Eg; [|done]. apply Himp in Eg. congruence.
Qed.

Lemma filter_sublist {A} (f : A → bool) (l : list A) :
  List.filter f l `sublist_of` l.
Proof.
  induction l as [|x l IH]; [constructor|]. cbn [List.filter].
  destruct (f x); by constructor.
Qed.

(** [clean_pdb] keeps the lines that begin with [ATOM], [HETATM], [TER]
    or [END], in their order, and nothing else; every atom record of the
    input is in the output, and cleaning a cleaned file changes nothing. *)
Theorem clean_pdb_keeps_records (lines : list string) :
  clean_pdb lines = List.filter kept_by_clean lines ∧
  clean_pdb lines `sublist_of` lines ∧
  Forall (λ l, kept_by_clean l = true) (clean_pdb lines) ∧
  List.filter sum_pqr_chargesv3.is_pqr_line (clean_pdb lines)
    = List.filter sum_pqr_chargesv3.is_pqr_line lines ∧
  clean_pdb (clean_pdb lines) = clean_pdb lines.
Proof.
  split; [done|]. split; [apply filter_sublist|]. split.
  - apply Forall_forall. intros l Hl.
    apply list_elem_of_In, filter_In in Hl as [_ Hl]. exact Hl.
  - split.
    + apply filter_filter_imp. intros l.
      unfold sum_pqr_chargesv3.is_pqr_line.
      intros [->| ->]%orb_prop; by rewrite ?orb_true_r.
    + by apply filter_filter_imp.
Qed.

End Clean.

(** ** Collecting the inputs *)

Section Collect.
Import sum_pqr_chargesv3.

Lemma dedup_fold (inputs : list string) (seen : gset string)
    (unique : list string) :
  (∀ x, x ∈ seen ↔ x ∈ unique) → NoDup unique →
  ∃ new,
    (fold_left dedup_step inputs (seen, unique)).2 = unique ++ new ∧
    NoDup (unique ++ new) ∧ new `sublist_of` inputs ∧
    (∀ x, x ∈ unique ++ new ↔ x ∈ unique ∨ x ∈ inputs) ∧
    (NoDup inputs → (∀ x, x ∈ inputs → x ∉ unique) → new = inputs).
Proof.
  revert seen unique. induction inputs as [|p ps IH]; intros seen unique Hs Hn.
  - exists []. rewrite app_nil_r. split; [done|]. split; [done|].
    split; [done|]. split; [|done].
    intros x. split; [by left|]. intros [H|H]; [done|].
    by apply elem_of_nil in H.
  - cbn [fold_left]. unfold dedup_step at 2.
    destruct (decide (p ∈ seen)) as [Hin|Hnin].
    + destruct (IH seen unique Hs Hn) as (new & E & Hnd & Hsub & Hel & Hid).
      exists new. split; [done|]. split; [done|].
      split; [by apply sublist_cons|]. split.
      * intros x. rewrite Hel, elem_of_cons. apply Hs in Hin.
        split; [tauto|]. intros [?|[->|?]]; tauto.
      * intros _ Hdis. exfalso. apply (Hdis p); [by left|by apply Hs].
    + assert (p ∉ unique) as Hpu by (by rewrite <- Hs).
      destruct (IH ({[p]} ∪ seen) (unique ++ [p])) as (new & E & Hnd & Hsub & Hel & Hid).
      { intros x. rewrite elem_of_union, elem_of_singleton, elem_of_app,
          list_elem_of_singleton, Hs. tauto. }
      { apply NoDup_app. split; [done|]. split; [|apply NoDup_singleton].
        intros x Hx ->%list_elem_of_singleton. done. }
      exists (p :: new). rewrite E, <- !app_assoc. cbn [app].
      rewrite <- app_assoc in Hnd. cbn [app] in Hnd.
      split; [done|]. split; [done|]. split; [by apply sublist_skip|]. split.
      * intros x. rewrite <- app_assoc in Hel. cbn [app] in Hel.
        rewrite Hel, elem_of_app, list_elem_of_singleton, elem_of_cons. tauto.
      * intros Hndp Hdis. apply NoDup_cons in Hndp as [Hp Hps].
        f_equal. apply Hid; [done|]. intros x Hx.
        rewrite elem_of_app, list_elem_of_singleton.
        intros [Hu| ->]; [|done]. apply (Hdis x); [by right|done].
Qed.

Lemma filter_comm {A} (f g : A → bool) (l : list A) :
  List.filter f (List.filter g l) = List.filter g (List.filter f l).
Proof.
  induction l as [|x l IH]; [done|]. cbn [List.filter].
  destruct (f x) eqn:Ef, (g x) eqn:Eg; cbn [List.filter];
    rewrite ?Ef, ?Eg, IH; done.
Qed.

Lemma filter_andb {A} (f g : A → bool) (l : list A) :
  List.filter f (List.filter g l) = List.filter (λ x, f x && g x) l.
Proof.
  induction l as [|x l IH]; [done|]. cbn [List.filter].
  destruct (g x) eqn:Eg, (f x) eqn:Ef; cbn [andb List.filter];
    rewrite ?Ef, IH; done.
Qed.

Lemma keep_first_filter (f : string → bool) (l : list string) :
  keep_first (List.filter f l) = List.filter f (keep_first l).
Proof.
  induction l as [|x l IH]; [done|]. cbn [List.filter keep_first].
  destruct (f x) eqn:Ef; cbn [keep_first].
  - by rewrite IH, filter_comm.
  - rewrite IH. symmetry. apply filter_filter_imp. intros y Hy.
    destruct (String.eqb_spec y x) as [->|]; [congruence|done].
Qed.

(** The loop that removes the repetitions, from any of its states. *)
Lemma dedup_keep_first (inputs : list string) (seen : gset string)
    (unique : list string) :
  (fold_left dedup_step inputs (seen, unique)).2
  = unique
    ++ keep_first (List.filter (λ x, bool_decide (x ∉ seen)) inputs).
Proof.
  revert seen unique. induction inputs as [|p ps IH]; intros seen unique.
  - cbn. by rewrite app_nil_r.
  - cbn [fold_left List.filter]. unfold dedup_step at 2.
    destruct (decide (p ∈ seen)) as [Hin|Hnin].
    + rewrite bool_decide_eq_false_2 by (intros H; by apply H). apply IH.
    + rewrite bool_decide_eq_true_2 by done. cbn [keep_first].
      rewrite IH, <- app_assoc. cbn [app]. do 2 f_equal.
      rewrite <- keep_first_filter. f_equal.
      rewrite filter_andb. apply filter_ext. intros x.
      destruct (String.eqb_spec x p) as [->|Hne]; cbn [negb andb].
      * apply bool_decide_eq_false_2. intros H. apply H.
        by apply elem_of_union_l, elem_of_singleton.
      * apply bool_decide_ext.
        rewrite elem_of_union, elem_of_singleton. tauto.
Qed.

(** The paths [collect_inputs] returns are those its items give, each
    once, in the order of their first appearance: the list of the paths
    found, where every path is kept at its first place and dropped at
    the later ones; where no path comes twice the list is returned as it
    is.  The files taken from a directory all end in [.pqr] or
    [.pqr.gz]. *)
Theorem collect_inputs_unique (fs : fsys) (recursive : bool)
    (items : list string) :
  let found := flat_map fst (map (item_inputs fs recursive) items) in
  let paths := (collect_inputs fs recursive items).1 in
  paths = keep_first found ∧
  NoDup paths ∧ paths `sublist_of` found ∧
  (∀ p, p ∈ paths ↔ p ∈ found) ∧
  (NoDup found → paths = found) ∧
  (∀ item, isdir fs item = true → recursive = false →
     (item_inputs fs recursive item).1
       = map (path_join item) (List.filter is_pqr_name (listdir fs item))).
Proof.
  cbv zeta. unfold collect_inputs, dedup. cbn [fst].
  set (found := flat_map fst _).
  split.
  { rewrite dedup_keep_first. cbn [app]. f_equal.
    rewrite <- (filter_all_true found) at 2. apply filter_ext.
    intros x. apply bool_decide_eq_true_2. set_solver. }
  destruct (dedup_fold found ∅ []) as (new & -> & Hnd & Hsub & Hel & Hid).
  { intros x. split; [set_solver|]. by intros ?%elem_of_nil. }
  { constructor. }
  cbn [app] in *. split; [done|]. split; [done|]. split.
  - intros p. rewrite Hel. split; [|tauto]. intros [H|H]; [|done].
    by apply elem_of_nil in H.
  - split.
    + intros Hf. apply Hid; [done|]. intros x _. apply not_elem_of_nil.
    + intros item Hd ->. unfold item_inputs. by rewrite Hd.
Qed.

Lemma collect_inputs_unique_witness :
  isdir demo_fsys "d" = true ∧
  (item_inputs demo_fsys false "d").1
    = map (path_join "d") (List.filter is_pqr_name (listdir demo_fsys "d")) ∧
  flat_map fst (map (item_inputs demo_fsys false) ["d/b.pqr.gz"; "d"; "d/*.pqr"])
    = ["d/b.pqr.gz"; "d/a.pqr"; "d/b.pqr.gz"; "d/a.pqr"] ∧
  (collect_inputs demo_fsys false ["d/b.pqr.gz"; "d"; "d/*.pqr"]).1
    = ["d/b.pqr.gz"; "d/a.pqr"].
Proof.
  split; [reflexivity|]. split; [|split; vm_compute; reflexivity].
  pose proof (collect_inputs_unique demo_fsys false
                ["d/b.pqr.gz"; "d"; "d/*.pqr"]) as H.
  cbv zeta in H. destruct H as (_ & _ & _ & _ & _ & H).
  apply (H "d"); reflexivity.
Defined.

End Collect.
(** ** Line terminators; the two programs on one file *)

Section Terminators.
Import sum_pqr_chargesv3.

Lemma rstrip_lf_spec (s : string) : ∃ k, s = rstrip_lf s +:+ lfs k.
Proof.
  induction s as [|c s [k IH]]; [by exists O|]. cbn [rstrip_lf].
  destruct (rstrip_lf s) as [|d r] eqn:E.
  - change ("" +:+ lfs k) with (lfs k) in IH. subst s.
    destruct (Ascii.eqb_spec c "010") as [->|Hne].
    + by exists (S k).
    + by exists k.
  - exists k. rewrite append_cons. by rewrite <- IH.
Qed.

Lemma split_ws_lfs (k : nat) : split_ws (lfs k) = [].
Proof. induction k as [|k IH]; [done|]. cbn [lfs split_ws]. exact IH. Qed.

Lemma split_ws_app_lfs (a : string) (k : nat) :
  split_ws (a +:+ lfs k) = split_ws a.
Proof.
  induction a as [|c a IH]; [apply split_ws_lfs|].
  rewrite append_cons. cbn [split_ws].
  destruct (isspace c); [exact IH|].
  destruct a as [|d a].
  - change ("" +:+ lfs k) with (lfs k) in *.
    destruct k as [|k]; [done|]. cbn [lfs]. cbn [isspace].
    change (isspace "010") with true. cbv iota.
    change (String "010" (lfs k)) with (lfs (S k)). by rewrite split_ws_lfs.
  - rewrite append_cons in *. destruct (isspace d); by rewrite IH.
Qed.

Lemma prefix_app_lfs (p a : string) (k : nat) :
  has_char "010" p = false →
  String.prefix p (a +:+ lfs k) = String.prefix p a.
Proof.
  revert a. induction p as [|x p IH]; intros a Hp.
  - by destruct a, k.
  - cbn [has_char] in Hp. apply orb_false_elim in Hp as [Hx Hp].
    destruct a as [|d a].
    + change ("" +:+ lfs k) with (lfs k). destruct k as [|k]; [done|].
      cbn [lfs String.prefix].
      destruct (ascii_dec x "010") as [->|]; done.
    + rewrite append_cons. cbn [String.prefix].
      destruct (ascii_dec x d); [by apply IH|done].
Qed.

Lemma tolerant_charge_rstrip_lf (l : string) :
  tolerant_charge (rstrip_lf l) = tolerant_charge l.
Proof.
  destruct (rstrip_lf_spec l) as [k E]. rewrite E at 2.
  unfold tolerant_charge, is_pqr_line, startswith.
  by rewrite !prefix_app_lfs, split_ws_app_lfs.
Qed.

Lemma omap_tolerant_rstrip_lf (lines : list string) :
  omap tolerant_charge (map rstrip_lf lines) = omap tolerant_charge lines.
Proof.
  induction lines as [|l ls IH]; [done|]. cbn [map omap list_omap].
  by rewrite tolerant_charge_rstrip_lf, IH.
Qed.

Lemma file_total_omap (lines : list string) :
  sum_pqr_charges.file_total lines
  = fold_left fadd (omap legacy_charge lines) zero.
Proof.
  unfold sum_pqr_charges.file_total. generalize zero.
  induction lines as [|l ls IH]; intros t; [done|].
  cbn [fold_left omap list_omap]. rewrite charge_step_legacy, IH.
  by destruct (legacy_charge l).
Qed.

Lemma charges_agree_on_eleven (l : string) :
  (is_pqr_line l = true → length (split_ws l) = 11%nat) →
  legacy_charge l = tolerant_charge l.
Proof.
  intros H. unfold legacy_charge, tolerant_charge, second_to_last.
  fold (is_pqr_line l). destruct (is_pqr_line l); [|done].
  by rewrite H.
Qed.

(** The sum of [sum_pqr_chargesv3.py] does not depend on how the lines
    of the file end: for every file read to its end, the function
    returns the count and the sum of the lines as they are read, with
    their line feeds.  On a file whose record lines all have eleven
    parts, the legacy program and the tolerant one compute the same net
    charge. *)
Theorem programs_agree_on_eleven_columns (path : string) (lines : list string) :
  sum_charge_for_file path (Read lines Eof) = Ok (sum_charge_lines lines, []) ∧
  sum_charge_lines (map rstrip_lf lines) = sum_charge_lines lines ∧
  (Forall (λ l, is_pqr_line l = true → length (split_ws l) = 11%nat) lines →
   sum_pqr_charges.file_total lines = (sum_charge_lines lines).2).
Proof.
  assert (sum_charge_lines (map rstrip_lf lines) = sum_charge_lines lines) as E.
  { by rewrite !sum_charge_lines_omap, omap_tolerant_rstrip_lf. }
  split; [|split; [exact E|]].
  - unfold sum_charge_for_file.
    cbn [iter_pqr_lines read_lines read_end]. by rewrite E.
  - intros Hall. clear E. rewrite sum_charge_lines_omap. cbn [snd].
    rewrite file_total_omap. f_equal.
    induction Hall as [|l ls Hl _ IH]; [done|]. cbn [omap list_omap].
    by rewrite (charges_agree_on_eleven l Hl), IH.
Qed.

Lemma programs_agree_on_eleven_columns_witness :
  let lines := [legacy_example +:+ LF; "TER" +:+ LF; "END"] in
  Forall (λ l, is_pqr_line l = true → length (split_ws l) = 11%nat) lines ∧
  sum_pqr_charges.file_total lines = (sum_charge_lines lines).2.
Proof.
  assert (Forall (λ l, is_pqr_line l = true → length (split_ws l) = 11%nat)
            [legacy_example +:+ LF; "TER" +:+ LF; "END"]) as H.
  { repeat constructor; vm_compute; done. }
  split; [exact H|].
  pose proof (programs_agree_on_eleven_columns "x.pqr"
                [legacy_example +:+ LF; "TER" +:+ LF; "END"]) as (_ & _ & H').
  exact (H' H).
Defined.

End Terminators.
(** ** Further instances *)

Section MoreInstances.
Import dssp_batch_summary.

Lemma entity_key_no_delimiter_witness :
  contains "__" (basename "pdb/NP_1.pdb") = false ∧
  entity_key "pdb/NP_1.pdb" = basename "pdb/NP_1.pdb".
Proof.
  assert (contains "__" (basename "pdb/NP_1.pdb") = false) as H by reflexivity.
  split; [exact H|].
  apply (proj2 (proj2 (entity_key_no_delimiter "pdb/NP_1.pdb")) H).
Defined.


Lemma build_refseq_to_abbr_raises_iff_witness :
  Forall (λ l, map_entry l = None) ["# only a comment"; ""; "no pipe here"] ∧
  label_and_plot_net_charges.build_refseq_to_abbr "map.out"
    ["# only a comment"; ""; "no pipe here"]
  = Raise (RuntimeError ("No RefSeq->Abbr mappings parsed from " +:+ "map.out")).
Proof.
  assert (Forall (λ l, map_entry l = None)
            ["# only a comment"; ""; "no pipe here"]) as H
    by (repeat constructor).
  split; [exact H|].
  apply (proj2 (build_refseq_to_abbr_raises_iff "map.out"
                  ["# only a comment"; ""; "no pipe here"]) H).
Defined.

Lemma dssp_status_cases_witness :
  demo_key !! "XYZ" = None ∧
  dssp_status {[ "NP_9" := "XYZ" ]} demo_key "NP_9" = "unknown".
Proof.
  assert (demo_key !! "XYZ" = None) as H by reflexivity.
  split; [exact H|].
  apply (proj1 (dssp_status_cases {[ "NP_9" := "XYZ" ]} demo_key "NP_9") "XYZ");
    [reflexivity|exact H].
Defined.

Lemma label_status_cases_witness :
  let blank_row :=
    label_and_plot_net_charges.StatusDict key_with_unknown (Some "aquatic") in
  let row := ("NP_9__AF-P9.pqr", zero) in
  (∅ : gmap string string) !! split_head "__" row.1 = None ∧
  label_and_plot_net_charges.Abbr
    (label_and_plot_net_charges.label_row ∅ blank_row row) = None ∧
  label_and_plot_net_charges.Status
    (label_and_plot_net_charges.label_row ∅ blank_row row)
  = default "unknown" (label_and_plot_net_charges.nan_status blank_row).
Proof.
  assert ((∅ : gmap string string) !! split_head "__" "NP_9__AF-P9.pqr" = None)
    as H by reflexivity.
  split; [exact H|].
  apply (proj1 (label_status_cases ∅
                  (label_and_plot_net_charges.StatusDict key_with_unknown
                     (Some "aquatic"))
                  ("NP_9__AF-P9.pqr", zero)) H).
Defined.

End MoreInstances.
(** ** Reading the table of charges *)

Section ReadTable.
Import label_and_plot_net_charges.




End ReadTable.
